(** * ghproxy: the path matcher and the authenticated registry proxy engine

    A shallow embedding of [proxy/match.go] (the URL matcher) and of the
    registry proxy ([GhcrWithImageRouting], [GhcrToTarget], [GhcrRequest],
    [ChallengeReq]).  Go strings are byte strings and are modelled by
    [string] (a list of 8-bit [ascii]); Go [int] is the 64-bit signed
    integer, modelled by [Z] with its wrap-around written out; the token
    cache and HTTP header sets are finite maps. *)

From Stdlib Require Import ZArith String Ascii List Bool Lia.
From stdpp Require Import base option gmap strings.

Import ListNotations.
Local Open Scope string_scope.
Local Open Scope Z_scope.
Local Open Scope list_scope.

(** ** Go string primitives used by the sources *)

Module GoString.

(** [len(s)] *)
Definition len (s : string) : Z := Z.of_nat (String.length s).

(** [strings.HasPrefix(s, p)] *)
Definition HasPrefix (s p : string) : bool := String.prefix p s.


(** [strings.IndexByte(s, c)]: the index of the first [c] in [s], or -1. *)
Fixpoint IndexByte (s : string) (c : ascii) : Z :=
  match s with
  | EmptyString => -1
  | String a s' =>
      if Ascii.eqb a c then 0
      else let r := IndexByte s' c in if r <? 0 then -1 else r + 1
  end.

Fixpoint drop (n : nat) (s : string) : string :=
  match n, s with
  | O, _ => s
  | S _, EmptyString => EmptyString
  | S n', String _ s' => drop n' s'
  end.

Fixpoint take (n : nat) (s : string) : string :=
  match n, s with
  | O, _ => EmptyString
  | S _, EmptyString => EmptyString
  | S n', String a s' => String a (take n' s')
  end.

(** [s[i:]] and [s[:i]]; every slice expression of the sources is taken
    at an index between 0 and [len(s)], where Go does not panic. *)
Definition from (s : string) (i : Z) : string := drop (Z.to_nat i) s.
Definition upto (s : string) (i : Z) : string := take (Z.to_nat i) s.

(** [strings.HasSuffix(s, p)], which is
    [len(s) >= len(p) && s[len(s)-len(p):] == p] *)
Definition HasSuffix (s p : string) : bool :=
  (len p <=? len s) && String.eqb (from s (len s - len p)) p.

(** [strings.SplitN(s, sep, n)] for a one-byte separator and [n > 0]: at
    most [n] pieces, the last one being the unsplit remainder. *)
Fixpoint SplitN (s : string) (sep : ascii) (n : nat) : list string :=
  match n with
  | O => []
  | S O => [s]
  | S n' =>
      let i := IndexByte s sep in
      if i <? 0 then [s]
      else upto s i :: SplitN (from s (i + 1)) sep n'
  end.

(** [for _, r := range s { if r == c { ...; break } }] for an ASCII [c]:
    in UTF-8 a byte below 0x80 never occurs inside a multi-byte sequence,
    so the rune scan meets [c] exactly when the byte occurs in [s]. *)
Fixpoint ContainsByte (s : string) (c : ascii) : bool :=
  match s with
  | EmptyString => false
  | String a s' => if Ascii.eqb a c then true else ContainsByte s' c
  end.

End GoString.

Import GoString.

(** ** Configuration (the fields the sources read) *)

Record AuthConfig := {
  Auth_Enabled : bool;
  Auth_Method : string;
  Auth_ForceAllowApi : bool
}.

Record Config := {
  Auth : AuthConfig;
  Docker_Enabled : bool;
  Docker_Target : string;
  Server_SizeLimit : Z;
  BandwidthLimit_Enabled : bool
}.

(** ** proxy/match.go *)

Record GHProxyErrors := NewErrorWithStatusLookup {
  ErrStatusCode : Z;
  ErrMsg : string
}.

Definition githubPrefix := "https://github.com/".
Definition rawPrefix := "https://raw.githubusercontent.com/".
Definition gistPrefix := "https://gist.github.com/".
Definition gistContentPrefix := "https://gist.githubusercontent.com/".
Definition apiPrefix := "https://api.github.com/".
Definition releasesDownloadSnippet := "releases/download/".

Definition githubPrefixLen := len githubPrefix.
Definition rawPrefixLen := len rawPrefix.
Definition gistPrefixLen := len gistPrefix.
Definition gistContentPrefixLen := len gistContentPrefix.
Definition apiPrefixLen := len apiPrefix.

Definition slash : ascii := "/"%char.

(** The four results of [Matcher]: user, repo, matcher and the error
    pointer ([None] is [nil]). *)
Definition MatchResult : Type := string * string * string * option GHProxyErrors.

Definition fail (status : Z) (msg : string) : MatchResult :=
  ("", "", "", Some (NewErrorWithStatusLookup status msg)).

(** The [switch action] of the github.com branch. *)
Definition github_action (user repo remaining action : string) : MatchResult :=
  if String.eqb action "releases" then
    if HasPrefix remaining releasesDownloadSnippet
    then (user, repo, "releases", None)
    else fail 400 "malformed github path: not a releases download url"
  else if String.eqb action "archive" then (user, repo, "releases", None)
  else if String.eqb action "blob" then (user, repo, "blob", None)
  else if String.eqb action "raw" then (user, repo, "raw", None)
  else if String.eqb action "info" || String.eqb action "git-upload-pack"
  then (user, repo, "clone", None)
  else fail 400 ("unsupported github action: " +:+ action).

Definition match_github (rawPath : string) : MatchResult :=
  let remaining := from rawPath githubPrefixLen in
  let i := IndexByte remaining slash in
  if i <=? 0 then fail 400 "malformed github path: missing user" else
  let user := upto remaining i in
  let remaining := from remaining (i + 1) in
  let i := IndexByte remaining slash in
  if i <=? 0 then fail 400 "malformed github path: missing repo" else
  let repo := upto remaining i in
  let remaining := from remaining (i + 1) in
  if len remaining =? 0 then fail 400 "malformed github path: missing action" else
  let i := IndexByte remaining slash in
  let action := if negb (i =? -1) then upto remaining i else remaining in
  github_action user repo remaining action.

Definition match_raw (rawPath : string) : MatchResult :=
  let remaining := from rawPath rawPrefixLen in
  let i := IndexByte remaining slash in
  if i <=? 0 then fail 400 "malformed raw url: missing user" else
  let user := upto remaining i in
  let remaining := from remaining (i + 1) in
  let i := IndexByte remaining slash in
  if i <=? 0 then fail 400 "malformed raw url: missing repo" else
  let repo := upto remaining i in
  let remaining := from remaining (i + 1) in
  if len remaining =? 0 then fail 400 "malformed raw url: missing branch/commit"
  else (user, repo, "raw", None).

(** The gist.github.com and gist.githubusercontent.com branches have the
    same body and differ in the prefix length only. *)
Definition match_gist (rawPath : string) (prefixLen : Z) : MatchResult :=
  let remaining := from rawPath prefixLen in
  let i := IndexByte remaining slash in
  if i <=? 0 then
    if 0 <? len remaining then (remaining, "", "gist", None)
    else fail 400 "malformed gist url: missing user"
  else
    let user := upto remaining i in
    (user, "", "gist", None).

Definition match_api (rawPath : string) (cfg : Config) : MatchResult :=
  if negb (Auth_ForceAllowApi (Auth cfg))
     && (negb (String.eqb (Auth_Method (Auth cfg)) "header")
         || negb (Auth_Enabled (Auth cfg)))
  then fail 403 "API proxy requires header authentication" else
  let remaining := from rawPath apiPrefixLen in
  let '(user, repo) :=
    if HasPrefix remaining "repos/" then
      match SplitN (from remaining 6) slash 3 with
      | p0 :: p1 :: _ => (p0, p1)
      | _ => ("", "")
      end
    else if HasPrefix remaining "users/" then
      match SplitN (from remaining 6) slash 2 with
      | p0 :: _ => (p0, "")
      | _ => ("", "")
      end
    else ("", "") in
  (user, repo, "api", None).

Definition Matcher (rawPath : string) (cfg : Config) : MatchResult :=
  if len rawPath <? 18 then fail 404 "path too short"
  else if HasPrefix rawPath githubPrefix then match_github rawPath
  else if HasPrefix rawPath rawPrefix then match_raw rawPath
  else if HasPrefix rawPath gistPrefix then match_gist rawPath gistPrefixLen
  else if HasPrefix rawPath gistContentPrefix
       then match_gist rawPath gistContentPrefixLen
  else if HasPrefix rawPath apiPrefix then match_api rawPath cfg
  else fail 404 "no matcher found for the given path".

(** What may follow an action token in a github.com path: nothing, when the
    token is not empty, or a slash and the rest of the path. *)
Definition action_tail (action tail : string) : Prop :=
  (action <> "" /\ tail = "") \/ exists rest, tail = "/" +:+ rest.

(** ** The registry proxy: data *)

(** [http.Header] is a [map[string][]string]; every key the sources pass to
    [Get] and [Set] is already in canonical form. *)
Abbreviation Header := (gmap string (list string)).

Definition Header_Get (h : Header) (k : string) : string :=
  match h !! k with
  | Some (v :: _) => v
  | _ => ""
  end.

Definition Header_Set (h : Header) (k v : string) : Header := <[k := [v]]> h.

(** A Go [(value, error)] pair; the error is kept as its text, which the
    sources print with [%v]. *)
Inductive result (A : Type) : Type :=
| Ok (a : A)
| Err (e : string).
Arguments Ok {A} a.
Arguments Err {A} e.

Record imageInfo := {
  User : string;
  Repo : string;
  Image : string
}.

Record AuthToken := { Token : string }.

(** The value returned by [parseBearerWWWAuthenticateHeader]. *)
Record BearerChallenge := { Realm : string; Service : string }.

Record Request := {
  rq_Method : string;
  rq_URL : string;
  rq_Query : list (string * string);
  rq_Header : Header;
  rq_Body : option string
}.

Definition rq_with_header (rq : Request) (h : Header) : Request :=
  {| rq_Method := rq_Method rq; rq_URL := rq_URL rq; rq_Query := rq_Query rq;
     rq_Header := h; rq_Body := rq_Body rq |}.

(** The client side of a [touka.Context]: the inbound request and its route
    parameters. *)
Record Client := {
  cl_Method : string;
  cl_Header : Header;
  cl_ReqBodyFull : result string;
  cl_RequestURI : string;
  cl_RequestURIPath : string;
  cl_ReqQueryString : string;
  cl_Param : string -> string
}.

Definition cl_UserAgent (c : Client) : string := Header_Get (cl_Header c) "User-Agent".

(** The call sites of [ghcrclient.Do].  No call site sits in a loop, so each
    is reached at most once while one request is handled, and the site names
    the response it produced. *)
Inductive Site := Initial | Retry | Redirect | Challenge | TokenEndpoint.

#[global] Instance Site_eq_dec : EqDecision Site.
Proof. solve_decision. Defined.

(** What the engine does to the outside world, in order.  [Debugf], [Warnf]
    and [Errorf] only write to the process log and are left out. *)
Inductive Event :=
| EvDo (s : Site) (rq : Request)
| EvClose (s : Site)
| EvReadAll (s : Site)
| EvHandleError (msg : string)
| EvErrorPage (e : GHProxyErrors)
| EvRedirect (code : Z) (url : string)
| EvSetHeaders (h : Header)
| EvStatus (code : Z)
| EvSetBodyStream (s : Site) (limited : bool) (size : Z).

(** ** A state, trace and early-return monad

    The state is the token cache ([weakcache.Cache[string]] through its
    [Get]/[Put] contract), the trace collects the events, and [Return r]
    is a [return] statement of the enclosing Go function. *)

Inductive Outcome (R A : Type) : Type :=
| Next (a : A)
| Return (r : R).
Arguments Next {R A} a.
Arguments Return {R A} r.

Abbreviation Cache := (gmap string string).

Definition M (R A : Type) : Type := Cache -> Outcome R A * Cache * list Event.

Definition ret {R A} (a : A) : M R A := fun k => (Next a, k, []).

Definition bind {R A B} (m : M R A) (f : A -> M R B) : M R B :=
  fun k =>
    match m k with
    | (Next a, k', t) =>
        match f a k' with
        | (o, k'', t') => (o, k'', t ++ t')
        end
    | (Return r, k', t) => (Return r, k', t)
    end.

#[global] Instance M_ret {R} : MRet (M R) := fun A => @ret R A.
#[global] Instance M_bind {R} : MBind (M R) := fun A B f m => bind m f.

Definition emit {R} (e : Event) : M R unit := fun k => (Next tt, k, [e]).
Definition return_ {R A} (r : R) : M R A := fun k => (Return r, k, []).
Definition cache_Get {R} (key : string) : M R (option string) :=
  fun k => (Next (k !! key), k, []).
Definition cache_Put {R} (key v : string) : M R unit :=
  fun k => (Next tt, <[key := v]> k, []).

(** [defer e]: the event happens when the function returns, whichever
    [return] statement of the rest [m] is taken. *)
Definition deferred {R A} (e : Event) (m : M R A) : M R A :=
  fun k => match m k with (o, k', t) => (o, k', t ++ [e]) end.

(** A call of a function with result type [R] from a function with result
    type [R']. *)
Definition call {R R'} (m : M R R) : M R' R :=
  fun k =>
    match m k with
    | (Next r, k', t) | (Return r, k', t) => (Next r, k', t)
    end.

(** [v, err := e; if err != nil { handler; return r }] *)
Definition try {R A} (v : result A) (handler : string -> M R unit) (r : R) : M R A :=
  match v with
  | Ok a => ret a
  | Err e => handler e;; return_ r
  end.

(** ** Library functions the proxy calls

    The Go standard library ([net/url], [strconv]), the JSON decoder, the
    request builder of the HTTP client, and two helpers of package [proxy]
    whose source is not part of [match.go] or the registry file
    ([copyHeader], [parseBearerWWWAuthenticateHeader]) are taken as
    parameters; every theorem holds for all of them. *)
Class GoLib := {
  URL : Type;
  url_Parse : string -> result URL;
  url_IsAbs : URL -> bool;
  url_ResolveReference : URL -> URL -> URL;
  url_String : URL -> string;
  strconv_Atoi : string -> result Z;
  json_Unmarshal : string -> result AuthToken;
  (** the error of [RequestBuilder.Build()], if any, for the request the
      builder was configured with *)
  Build_error : Request -> option string;
  (** the error of [http.NewRequestWithContext(ctx, method, url, nil)] *)
  NewRequest_error : string -> string -> option string;
  (** [copyHeader(src, dst)]: the destination after the call *)
  copyHeader : Header -> Header -> Header;
  parseBearerWWWAuthenticateHeader : string -> result BearerChallenge
}.

Record Response `{GoLib} := {
  StatusCode : Z;
  rs_Header : Header;
  (** [resp.Request.URL], the URL of the request that produced it *)
  rs_Request_URL : URL;
  (** what [iox.ReadAll(resp.Body)] yields *)
  rs_Body : result string
}.

Definition dockerhubTarget := "registry-1.docker.io".
Definition ghcrTarget := "ghcr.io".

(** Go [int] arithmetic: 64-bit two's complement (the binaries are built
    for amd64 and arm64). *)
Definition wrap_int (z : Z) : Z := (z + 2 ^ 63) mod 2 ^ 64 - 2 ^ 63.

Section Proxy.

Context `{GoLib}.

(** The upstream as seen from one request: what [ghcrclient.Do] returns
    at each call site for the request sent there. *)
Variable transport : Site -> Request -> result Response.

(** A response together with the call site it came from. *)
Definition Live : Type := Site * Response.

Definition Do {R} (s : Site) (rq : Request) : M R (result Response) :=
  fun k => (Next (transport s rq), k, [EvDo s rq]).

Definition HandleError {R} (msg : string) : M R unit := emit (EvHandleError msg).
Definition ErrorPage {R} (e : GHProxyErrors) : M R unit := emit (EvErrorPage e).
Definition Body_Close {R} (w : Live) : M R unit := emit (EvClose (fst w)).

(** [NewRequestBuilder(method, u).NoDefaultHeaders()...Build()] *)
Definition Build (rq : Request) : result Request :=
  match Build_error rq with
  | Some e => Err e
  | None => Ok rq
  end.

(** [http.NewRequestWithContext(ctx, method, u, nil)] *)
Definition NewRequestWithContext (method u : string) : result Request :=
  match NewRequest_error method u with
  | Some e => Err e
  | None => Ok {| rq_Method := method; rq_URL := u; rq_Query := [];
                  rq_Header := ∅; rq_Body := None |}
  end.

(** *** ChallengeReq (lines 352-424) *)
Definition ChallengeReq (target : string) (image : imageInfo) : M string string :=
  req401 ← try (Build {| rq_Method := "GET";
                         rq_URL := "https://" +:+ target +:+ "/v2/";
                         rq_Query := []; rq_Header := ∅; rq_Body := None |})
               (fun e => HandleError ("Failed to create request: " +:+ e)) "";
  let req401 := rq_with_header req401 (Header_Set (rq_Header req401) "Host" target) in
  r ← Do Challenge req401;
  resp401 ← try r (fun e => HandleError ("Failed to send request: " +:+ e)) "";
  deferred (EvClose Challenge) (
    bearer ← try (parseBearerWWWAuthenticateHeader
                    (Header_Get (rs_Header resp401) "Www-Authenticate"))
                 (fun _ => ret tt) "";
    let scope := "repository:" +:+ Image image +:+ ":pull" in
    getAuthReq ← try (Build {| rq_Method := "GET"; rq_URL := Realm bearer;
                               rq_Query := [("service", Service bearer);
                                            ("scope", scope)];
                               rq_Header := Header_Set ∅ "Host" (Service bearer);
                               rq_Body := None |})
                     (fun _ => ret tt) "";
    r ← Do TokenEndpoint getAuthReq;
    authResp ← try r (fun _ => ret tt) "";
    deferred (EvClose TokenEndpoint) (
      emit (EvReadAll TokenEndpoint);;
      bodyBytes ← try (rs_Body authResp) (fun _ => ret tt) "";
      authToken ← try (json_Unmarshal bodyBytes) (fun _ => ret tt) "";
      return_ (Token authToken))).

(** *** GhcrRequest (lines 129-344) *)

(** Lines 137-181: read the body, build and send the initial request. *)
Definition send_initial (c : Client) (u : string) (image : option imageInfo)
    (target : string) : M unit (string * Live) :=
  let method := cl_Method c in
  bodyByte ← try (cl_ReqBodyFull c)
                 (fun e => HandleError ("Failed to read request body: " +:+ e)) tt;
  req ← try (Build {| rq_Method := method; rq_URL := u; rq_Query := [];
                      rq_Header := ∅; rq_Body := Some bodyByte |})
            (fun e => HandleError ("Failed to create request: " +:+ e)) tt;
  let h := copyHeader (cl_Header c) (rq_Header req) in
  let h := match cl_Header c !! "Accept" with
           | Some acceptHeader => <["Accept" := acceptHeader]> h
           | None => h
           end in
  let h := Header_Set h "Host" target in
  h ← match image with
      | Some img =>
          tok ← cache_Get (Image img);
          match tok with
          | Some token => ret (Header_Set h "Authorization" ("Bearer " +:+ token))
          | None => ret h
          end
      | None => ret h
      end;
  let req := rq_with_header req h in
  r ← Do Initial req;
  resp ← try r (fun e => HandleError ("Failed to send request: " +:+ e)) tt;
  ret (bodyByte, (Initial, resp)).

(** Lines 184-241: on 401 or 404, fetch a token and resend once. *)
Definition auth_retry (c : Client) (u : string) (image : option imageInfo)
    (target : string) (bodyByte : string) (resp : Live) : M unit Live :=
  let method := cl_Method c in
  if (StatusCode (snd resp) =? 401) || (StatusCode (snd resp) =? 404) then
    let shouldRetry := negb (String.eqb (cl_RequestURIPath c) "/v2/") in
    let originalStatusCode := StatusCode (snd resp) in
    if shouldRetry then
      match image with
      | None =>
          Body_Close resp;;
          ErrorPage (NewErrorWithStatusLookup originalStatusCode "Unauthorized");;
          return_ tt
      | Some img =>
          token ← call (ChallengeReq target img);
          if negb (String.eqb token "") then
            Body_Close resp;;
            cache_Put (Image img) token;;
            req_retry ← try (Build {| rq_Method := method; rq_URL := u;
                                      rq_Query := []; rq_Header := ∅;
                                      rq_Body := Some bodyByte |})
                            (fun e => HandleError
                               ("Failed to create retry request: " +:+ e)) tt;
            let h := copyHeader (cl_Header c) (rq_Header req_retry) in
            let h := match cl_Header c !! "Accept" with
                     | Some acceptHeader => <["Accept" := acceptHeader]> h
                     | None => h
                     end in
            let h := Header_Set h "Host" target in
            let h := Header_Set h "Authorization" ("Bearer " +:+ token) in
            let req_retry := rq_with_header req_retry h in
            r ← Do Retry req_retry;
            resp_retry ← try r (fun e => HandleError
                                  ("Failed to send retry request: " +:+ e)) tt;
            ret (Retry, resp_retry)
          else ret resp
      end
    else ret resp
  else ret resp.

(** Lines 244-285: follow one 302 or 307. *)
Definition follow_redirect (c : Client) (resp : Live) : M unit Live :=
  if (StatusCode (snd resp) =? 302) || (StatusCode (snd resp) =? 307) then
    let location := Header_Get (rs_Header (snd resp)) "Location" in
    if String.eqb location "" then
      Body_Close resp;;
      HandleError "Redirect response missing Location header";;
      return_ tt
    else
      redirectURL ← try (url_Parse location)
                        (fun e => Body_Close resp;;
                                  HandleError ("Failed to parse redirect location: " +:+ e))
                        tt;
      let redirectURL :=
        if negb (url_IsAbs redirectURL)
        then url_ResolveReference (rs_Request_URL (snd resp)) redirectURL
        else redirectURL in
      Body_Close resp;;
      redirectReq ← try (NewRequestWithContext "GET" (url_String redirectURL))
                        (fun e => HandleError ("Failed to create redirect request: " +:+ e))
                        tt;
      let redirectReq :=
        rq_with_header redirectReq
          (Header_Set (rq_Header redirectReq) "User-Agent" (cl_UserAgent c)) in
      r ← Do Redirect redirectReq;
      redirectResp ← try r (fun e => HandleError
                              ("Failed to execute redirect request to "
                               +:+ url_String redirectURL +:+ ": " +:+ e)) tt;
      ret (Redirect, redirectResp)
  else ret resp.

(** Lines 288-298: a final 404 becomes the not-found page. *)
Definition not_found (resp : Live) : M unit unit :=
  if StatusCode (snd resp) =? 404 then
    deferred (EvClose (fst resp)) (
      emit (EvReadAll (fst resp));;
      ErrorPage (NewErrorWithStatusLookup 404 "Page Not Found (From Upstream)");;
      return_ tt)
  else ret tt.

(** Line 307: [cfg.Server.SizeLimit * 1024 * 1024] *)
Definition sizelimit_of (cfg : Config) : Z :=
  wrap_int (wrap_int (Server_SizeLimit cfg * 1024) * 1024).

(** Lines 300-344: the size ceiling, then streaming. *)
Definition size_and_stream (cfg : Config) (resp : Live) : M unit unit :=
  let sizelimit := sizelimit_of cfg in
  let contentLength := Header_Get (rs_Header (snd resp)) "Content-Length" in
  bodySize ←
    (if negb (String.eqb contentLength "") then
       match strconv_Atoi contentLength with
       | Err _ => ret (-1)
       | Ok bodySize =>
           if bodySize >? sizelimit then
             let finalURL := url_String (rs_Request_URL (snd resp)) in
             Body_Close resp;;
             emit (EvRedirect 301 finalURL);;
             return_ tt
           else ret bodySize
       end
     else ret 0);
  emit (EvSetHeaders (rs_Header (snd resp)));;
  emit (EvStatus (StatusCode (snd resp)));;
  let limited := BandwidthLimit_Enabled cfg in
  if negb (String.eqb contentLength "") then
    emit (EvSetBodyStream (fst resp) limited bodySize);;
    return_ tt
  else
    emit (EvSetBodyStream (fst resp) limited (-1)).

(** Lines 137-241: the response after the initial request and the retry,
    when the request has not ended before. *)
Definition authorised_response (c : Client) (u : string)
    (image : option imageInfo) (target : string) : M unit Live :=
  '(bodyByte, resp) ← send_initial c u image target;
  auth_retry c u image target bodyByte resp.

(** Lines 137-298: the response left after the redirect and the not-found
    page as well. *)
Definition final_response (c : Client) (u : string) (image : option imageInfo)
    (target : string) : M unit Live :=
  resp ← authorised_response c u image target;
  resp ← follow_redirect c resp;
  not_found resp;;
  ret resp.

Definition GhcrRequest (c : Client) (u : string) (image : option imageInfo)
    (cfg : Config) (target : string) : M unit unit :=
  resp ← final_response c u image target;
  size_and_stream cfg resp.

(** *** GhcrToTarget (lines 86-126) *)

(** Lines 98-122: the upstream host and the destination URL, or the error
    page shown instead. *)
Definition resolve_upstream (c : Client) (cfg : Config) (target path : string)
    : GHProxyErrors + string * string :=
  if negb (String.eqb target "") then
    let upstreamTarget := target in
    let destUrl := "https://" +:+ upstreamTarget +:+ "/v2/" +:+ path in
    let query := cl_ReqQueryString c in
    let destUrl := if negb (String.eqb query "")
                   then destUrl +:+ "?" +:+ query else destUrl in
    inr (upstreamTarget, destUrl)
  else
    let dflt := Docker_Target cfg in
    if String.eqb dflt "ghcr" then
      inr (ghcrTarget, "https://" +:+ ghcrTarget +:+ cl_RequestURI c)
    else if String.eqb dflt "dockerhub" then
      inr (dockerhubTarget, "https://" +:+ dockerhubTarget +:+ cl_RequestURI c)
    else if String.eqb dflt "" then
      inl (NewErrorWithStatusLookup 403 "Docker Target is not set")
    else
      inr (dflt, "https://" +:+ dflt +:+ cl_RequestURI c).

Definition GhcrToTarget (c : Client) (cfg : Config) (target path : string)
    (image : option imageInfo) : M unit unit :=
  if negb (Docker_Enabled cfg) then
    ErrorPage (NewErrorWithStatusLookup 403 "Docker is not Allowed");;
    return_ tt
  else
    match resolve_upstream c cfg target path with
    | inl e => ErrorPage e;; return_ tt
    | inr (upstreamTarget, destUrl) =>
        GhcrRequest c destUrl image cfg upstreamTarget
    end.

(** *** GhcrWithImageRouting (lines 44-83) *)

(** Lines 56-71: the [switch] on the route parameter; the result stays
    empty when no case assigns it. *)
Definition route_target (reqTarget : string) : string :=
  if String.eqb reqTarget "docker.io" then dockerhubTarget
  else if String.eqb reqTarget "ghcr.io" then ghcrTarget
  else if HasSuffix reqTarget ".gcr.io" || String.eqb reqTarget "gcr.io"
  then reqTarget
  else if ContainsByte reqTarget "."%char then reqTarget
  else "".

Definition GhcrWithImageRouting (cfg : Config) (c : Client) : M unit unit :=
  let reqTarget := cl_Param c "target" in
  let reqImageUser := cl_Param c "user" in
  let reqImageName := cl_Param c "repo" in
  let reqFilePath := cl_Param c "filepath" in
  let path := reqImageUser +:+ "/" +:+ reqImageName +:+ reqFilePath in
  let target := route_target reqTarget in
  let image := {| User := reqImageUser; Repo := reqImageName;
                  Image := reqImageUser +:+ "/" +:+ reqImageName |} in
  GhcrToTarget c cfg target path (Some image).

(** The upstream host [GhcrWithImageRouting] ends up proxying to for a
    route target, or the error page. *)
Definition routed_upstream (c : Client) (cfg : Config) (reqTarget : string)
    : GHProxyErrors + string :=
  match resolve_upstream c cfg (route_target reqTarget)
          (cl_Param c "user" +:+ "/" +:+ cl_Param c "repo" +:+ cl_Param c "filepath") with
  | inl e => inl e
  | inr (upstreamTarget, _) => inr upstreamTarget
  end.

End Proxy.

(** ** Reading a trace *)

(** The requests sent at a call site, in order. *)
Definition sent_at (s : Site) (t : list Event) : list Request :=
  omap (fun e => match e with
                 | EvDo s' rq => if decide (s' = s) then Some rq else None
                 | _ => None
                 end) t.

(** What the client is answered with: a status, or the generic
    upstream-error page. *)
Inductive Answer :=
| StatusOf (code : Z)
| ProxyError.

(** Modelled from the spec: [ErrorPage] and [HandleError], helpers of
    package [proxy] whose source is outside the two files.  An error page
    is keyed by the status of the error it is given (section 6), and
    [HandleError] shows the generic upstream-error page (section 4.5);
    [c.Status] and [c.Redirect] set the status they are given. *)
Definition answer_of (e : Event) : option Answer :=
  match e with
  | EvStatus code => Some (StatusOf code)
  | EvErrorPage err => Some (StatusOf (ErrStatusCode err))
  | EvRedirect code _ => Some (StatusOf code)
  | EvHandleError _ => Some ProxyError
  | _ => None
  end.

(** The answers written while a request is handled, in order. *)
Definition client_answers (t : list Event) : list Answer := omap answer_of t.

(** Whether a body is handed to the client ([SetBodyStream]). *)
Definition streams_body (t : list Event) : bool :=
  existsb (fun e => match e with EvSetBodyStream _ _ _ => true | _ => false end) t.

Section Observations.

Context `{GoLib}.
Variable transport : Site -> Request -> result Response.

(** The response bodies open after a trace: a successful [Do] opens the
    body of its response, [Close] closes it. *)
Fixpoint open_bodies (t : list Event) (opened : list Site) : list Site :=
  match t with
  | [] => opened
  | EvDo s rq :: t' =>
      open_bodies t' (match transport s rq with
                      | Ok _ => s :: opened
                      | Err _ => opened
                      end)
  | EvClose s :: t' =>
      open_bodies t' (filter (fun s' => s' <> s) opened)
  | _ :: t' => open_bodies t' opened
  end.

(** The request [ChallengeReq] sends to the discovery endpoint. *)
Definition req401_of (target : string) : Request :=
  {| rq_Method := "GET"; rq_URL := "https://" +:+ target +:+ "/v2/";
     rq_Query := []; rq_Header := Header_Set ∅ "Host" target;
     rq_Body := None |}.

(** The request [ChallengeReq] sends to the token endpoint. *)
Definition getAuthReq_of (bearer : BearerChallenge) (image : imageInfo) : Request :=
  {| rq_Method := "GET"; rq_URL := Realm bearer;
     rq_Query := [("service", Service bearer);
                  ("scope", "repository:" +:+ Image image +:+ ":pull")];
     rq_Header := Header_Set ∅ "Host" (Service bearer);
     rq_Body := None |}.

(** Every step of the handshake succeeds: the discovery request is built
    and answered by [resp401], its challenge parses to [bearer], the token
    request is built and answered by [authResp], whose body reads as
    [bodyBytes] and decodes to [authToken]. *)
Definition handshake (target : string) (image : imageInfo)
    (resp401 : Response) (bearer : BearerChallenge) (authResp : Response)
    (bodyBytes : string) (authToken : AuthToken) : Prop :=
  Build_error (rq_with_header (req401_of target) ∅) = None
  /\ transport Challenge (req401_of target) = Ok resp401
  /\ parseBearerWWWAuthenticateHeader
       (Header_Get (rs_Header resp401) "Www-Authenticate") = Ok bearer
  /\ Build_error (getAuthReq_of bearer image) = None
  /\ transport TokenEndpoint (getAuthReq_of bearer image) = Ok authResp
  /\ rs_Body authResp = Ok bodyBytes
  /\ json_Unmarshal bodyBytes = Ok authToken.

(** The request as the builder is configured, before any header is set
    (lines 146-151 and 208-213). *)
Definition unsent_request (c : Client) (u bodyByte : string) : Request :=
  {| rq_Method := cl_Method c; rq_URL := u; rq_Query := [];
     rq_Header := ∅; rq_Body := Some bodyByte |}.

(** The headers both upstream requests start from (lines 158-166 and
    219-224). *)
Definition upstream_header (c : Client) (target : string) : Header :=
  let h := copyHeader (cl_Header c) ∅ in
  let h := match cl_Header c !! "Accept" with
           | Some acceptHeader => <["Accept" := acceptHeader]> h
           | None => h
           end in
  Header_Set h "Host" target.

(** The token the cache holds for the image of the request, if any
    (lines 169-174). *)
Definition cached_token (k : Cache) (image : option imageInfo) : option string :=
  match image with
  | Some img => k !! Image img
  | None => None
  end.

(** The initial request, with the cached token if there is one. *)
Definition initial_request (c : Client) (u target bodyByte : string)
    (cached : option string) : Request :=
  rq_with_header (unsent_request c u bodyByte)
    match cached with
    | Some token =>
        Header_Set (upstream_header c target) "Authorization" ("Bearer " +:+ token)
    | None => upstream_header c target
    end.

(** The request resent with a fresh token. *)
Definition retry_request (c : Client) (u target bodyByte token : string) : Request :=
  rq_with_header (unsent_request c u bodyByte)
    (Header_Set (upstream_header c target) "Authorization" ("Bearer " +:+ token)).

(** The follow-up of a redirect. *)
Definition redirect_request (c : Client) (location : string) : Request :=
  {| rq_Method := "GET"; rq_URL := location; rq_Query := [];
     rq_Header := Header_Set ∅ "User-Agent" (cl_UserAgent c);
     rq_Body := None |}.

(** Where a redirect leads: the parsed [Location], resolved against the
    URL of the redirecting response's request when it is relative. *)
Definition redirect_target (resp : Response) (parsed : URL) : URL :=
  if negb (url_IsAbs parsed)
  then url_ResolveReference (rs_Request_URL resp) parsed
  else parsed.

(** Lines 288-344, what is left to do once the redirect step is over. *)
Definition after_redirect (cfg : Config) (resp : Live) : M unit unit :=
  not_found resp;;
  size_and_stream cfg resp.

(** Lines 244-344, what is left to do once the retry step is over. *)
Definition after_auth (c : Client) (cfg : Config) (resp : Live) : M unit unit :=
  resp ← follow_redirect transport c resp;
  after_redirect cfg resp.

Definition auth_failed (r : Response) : bool :=
  (StatusCode r =? 401) || (StatusCode r =? 404).

Definition is_redirect (r : Response) : bool :=
  (StatusCode r =? 302) || (StatusCode r =? 307).

(** The response declares a [Content-Length] that parses above the
    ceiling (line 317). *)
Definition oversized (cfg : Config) (r : Response) : bool :=
  negb (String.eqb (Header_Get (rs_Header r) "Content-Length") "")
  && match strconv_Atoi (Header_Get (rs_Header r) "Content-Length") with
     | Ok bodySize => bodySize >? sizelimit_of cfg
     | Err _ => false
     end.

End Observations.

(** ** A concrete library and upstream for the examples

    Small stand-ins for the library parameters, exact on the inputs the
    examples use: URLs are kept as their text, a reference starting with
    [/] is resolved against the scheme and host of the base, and the token
    document and the challenge header are read by splitting at the double
    quotes. *)
Module Sample.

Definition dq : ascii := ascii_of_nat 34.

Fixpoint split_at (n : nat) (s : string) (c : ascii) : list string :=
  match n with
  | O => [s]
  | S n' =>
      let i := IndexByte s c in
      if i <? 0 then [s] else upto s i :: split_at n' (from s (i + 1)) c
  end.

Definition split (s : string) (c : ascii) : list string :=
  split_at (String.length s) s c.

Definition origin (base : string) : string :=
  let rest := from base 8 in
  let i := IndexByte rest slash in
  if i <? 0 then base else "https://" +:+ upto rest i.

Fixpoint digits (s : string) (acc : Z) : option Z :=
  match s with
  | EmptyString => Some acc
  | String a s' =>
      let d := Z.of_nat (nat_of_ascii a) - 48 in
      if (0 <=? d) && (d <=? 9) then digits s' (acc * 10 + d) else None
  end.

(** [strconv.Atoi]: an optional sign, then decimal digits, within the
    range of [int]. *)
Definition Atoi (s : string) : result Z :=
  let '(neg, body) :=
    match s with
    | String "+" r => (false, r)
    | String "-" r => (true, r)
    | _ => (false, s)
    end in
  match body with
  | EmptyString => Err "invalid syntax"
  | _ =>
      match digits body 0 with
      | None => Err "invalid syntax"
      | Some n =>
          let v := if neg : bool then - n else n in
          if (- 2 ^ 63 <=? v) && (v <? 2 ^ 63) then Ok v
          else Err "value out of range"
      end
  end.

Definition Unmarshal (body : string) : result AuthToken :=
  match split body dq with
  | [ "{"; "token"; ":"; t; "}" ] => Ok {| Token := t |}
  | _ => Err "invalid JSON"
  end.

Definition parseBearer (h : string) : result BearerChallenge :=
  match split h dq with
  | "Bearer realm=" :: realm :: ",service=" :: service :: _ =>
      Ok {| Realm := realm; Service := service |}
  | _ => Err "invalid challenge"
  end.

#[export] Instance lib : GoLib := {|
  URL := string;
  url_Parse := fun s => Ok s;
  url_IsAbs := fun u => HasPrefix u "https://" || HasPrefix u "http://";
  url_ResolveReference := fun base ref => origin base +:+ ref;
  url_String := fun u => u;
  strconv_Atoi := Atoi;
  json_Unmarshal := Unmarshal;
  Build_error := fun _ => None;
  NewRequest_error := fun _ _ => None;
  copyHeader := fun src dst => src ∪ dst;
  parseBearerWWWAuthenticateHeader := parseBearer
|}.

Definition quoted (s : string) : string := String dq s +:+ String dq "".

Definition cfg (mb : Z) : Config :=
  {| Auth := {| Auth_Enabled := false; Auth_Method := "";
                Auth_ForceAllowApi := false |};
     Docker_Enabled := true; Docker_Target := "ghcr";
     Server_SizeLimit := mb; BandwidthLimit_Enabled := false |}.

Definition cfg_default (dflt : string) : Config :=
  {| Auth := {| Auth_Enabled := false; Auth_Method := "";
                Auth_ForceAllowApi := false |};
     Docker_Enabled := true; Docker_Target := dflt;
     Server_SizeLimit := 10; BandwidthLimit_Enabled := false |}.

Definition img : imageInfo :=
  {| User := "alice"; Repo := "app"; Image := "alice/app" |}.

(** [GET /v2/alice/app/manifests/latest] *)
Definition client : Client :=
  {| cl_Method := "GET";
     cl_Header := {[ "User-Agent" := ["docker/27.0"]; "Accept" := ["*/*"] ]};
     cl_ReqBodyFull := Ok "";
     cl_RequestURI := "/v2/alice/app/manifests/latest";
     cl_RequestURIPath := "/v2/alice/app/manifests/latest";
     cl_ReqQueryString := "";
     cl_Param := fun _ => "" |}.

Definition u : string := "https://ghcr.io/v2/alice/app/manifests/latest".

Definition response (status : Z) (h : Header) (url body : string) : Response :=
  {| StatusCode := status; rs_Header := h; rs_Request_URL := url;
     rs_Body := Ok body |}.

Definition challenge_header : string :=
  "Bearer realm=" +:+ quoted "https://ghcr.io/token"
  +:+ ",service=" +:+ quoted "ghcr.io".

Definition token_body : string :=
  "{" +:+ quoted "token" +:+ ":" +:+ quoted "tok123" +:+ "}".

(** An upstream that wants a token, then answers the authorised request
    with [retried]; the redirect target answers 200 with five bytes. *)
Definition upstream (retried : Response) (s : Site) (rq : Request)
    : result Response :=
  match s with
  | Initial =>
      Ok (response 401 {[ "Www-Authenticate" := [challenge_header] ]}
            (rq_URL rq) "")
  | Challenge =>
      Ok (response 401 {[ "Www-Authenticate" := [challenge_header] ]}
            (rq_URL rq) "")
  | TokenEndpoint => Ok (response 200 ∅ (rq_URL rq) token_body)
  | Retry => Ok retried
  | Redirect => Ok (response 200 {[ "Content-Length" := ["5"] ]} (rq_URL rq) "hello")
  end.

(** An upstream that answers the initial request with [first] at once. *)
Definition direct (first : Response) (s : Site) (rq : Request) : result Response :=
  match s with
  | Initial => Ok first
  | Redirect => Ok (response 200 {[ "Content-Length" := ["5"] ]} (rq_URL rq) "hello")
  | _ => Err "connection refused"
  end.

(** Answers of the upstream to the authorised request. *)
Definition ok_small : Response :=
  response 200 {[ "Content-Length" := ["5"] ]} u "hello".
Definition ok_large : Response :=
  response 200 {[ "Content-Length" := ["20971520"] ]} u "".
Definition ok_chunked : Response := response 200 ∅ u "hello".
Definition ok_odd_length : Response :=
  response 200 {[ "Content-Length" := ["5 bytes"] ]} u "hello".
Definition moved : Response :=
  response 302 {[ "Location" := ["/blobs/abc"] ]} u "".

Definition bearer : BearerChallenge :=
  {| Realm := "https://ghcr.io/token"; Service := "ghcr.io" |}.

Definition unauthorized (url : string) : Response :=
  response 401 {[ "Www-Authenticate" := [challenge_header] ]} url "".

(** The path of a URL kept as text, for URLs without query or fragment. *)
Definition path_of (url : string) : string := from url (len (origin url)).

(** A client whose request body cannot be read. *)
Definition client_broken : Client :=
  {| cl_Method := "PUT";
     cl_Header := ∅;
     cl_ReqBodyFull := Err "unexpected EOF";
     cl_RequestURI := "/v2/alice/app/blobs/uploads/";
     cl_RequestURIPath := "/v2/alice/app/blobs/uploads/";
     cl_ReqQueryString := "";
     cl_Param := fun _ => "" |}.

(** [GET /v2/ghcr.io/alice/app/manifests/latest?ns=x] on the route with a
    target. *)
Definition client_routed : Client :=
  {| cl_Method := "GET";
     cl_Header := {[ "User-Agent" := ["docker/27.0"] ]};
     cl_ReqBodyFull := Ok "";
     cl_RequestURI := "/v2/ghcr.io/alice/app/manifests/latest?ns=x";
     cl_RequestURIPath := "/v2/ghcr.io/alice/app/manifests/latest";
     cl_ReqQueryString := "ns=x";
     cl_Param := fun name =>
       if String.eqb name "target" then "ghcr.io"
       else if String.eqb name "user" then "alice"
       else if String.eqb name "repo" then "app"
       else if String.eqb name "filepath" then "/manifests/latest"
       else "" |}.

(** A configuration with the registry proxy switched off. *)
Definition cfg_off : Config :=
  {| Auth := {| Auth_Enabled := false; Auth_Method := "";
                Auth_ForceAllowApi := false |};
     Docker_Enabled := false; Docker_Target := "ghcr";
     Server_SizeLimit := 10; BandwidthLimit_Enabled := false |}.

(** A cache that holds a token for [img]. *)
Definition warm : Cache := {[ "alice/app" := "cached" ]}.

(** The trace of a successful challenge for [img] at ghcr.io. *)
Definition challenge_trace : list Event :=
  [EvDo Challenge (req401_of "ghcr.io");
   EvDo TokenEndpoint (getAuthReq_of bearer img);
   EvReadAll TokenEndpoint; EvClose TokenEndpoint; EvClose Challenge].

(** The cache after a handshake for [img] on an empty cache. *)
Definition fresh : Cache := {[ "alice/app" := "tok123" ]}.


(** The trace up to the retry, for a request of [c] to [dest]. *)
Definition retried_trace (c : Client) (dest : string) (cached : option string)
    : list Event :=
  [EvDo Initial (initial_request c dest "ghcr.io" "" cached)]
  ++ challenge_trace
  ++ [EvClose Initial; EvDo Retry (retry_request c dest "ghcr.io" "" "tok123")].

(** Five bytes streamed from the response of call site [s]. *)
Definition small_stream (s : Site) : list Event :=
  [EvSetHeaders {[ "Content-Length" := ["5"] ]}; EvStatus 200;
   EvSetBodyStream s false 5].

(** The retried request is answered with a 302, which is followed. *)
Definition followed_trace : list Event :=
  retried_trace client u None
  ++ [EvClose Retry;
      EvDo Redirect (redirect_request client "https://ghcr.io/blobs/abc")]
  ++ small_stream Redirect.

(** The retried request is answered with five bytes. *)
Definition served_trace (cached : option string) : list Event :=
  retried_trace client u cached ++ small_stream Retry.


(** The destination of [client_routed]. *)
Definition u_routed : string :=
  "https://ghcr.io/v2/alice/app/manifests/latest?ns=x".

Definition routed_trace : list Event :=
  retried_trace client_routed u_routed None ++ small_stream Retry.

End Sample.

(** ** The rest of proxy/match.go *)

(** The package state behind [matchString] (lines 171-174): the table, a
    [map[string]struct{}] that is [nil] until it is built, and whether the
    [sync.Once] has run. *)
Record MatcherTable := {
  proxyableMatchersMap : option (gset string);
  initMatchersOnce : bool
}.

(** The state when the package is loaded. *)
Definition table_unset : MatcherTable :=
  {| proxyableMatchersMap := None; initMatchersOnce := false |}.

(** Lines 176-184: [initMatchersOnce.Do] runs the function the first time
    only. *)
Definition initMatchers (st : MatcherTable) : MatcherTable :=
  if initMatchersOnce st then st
  else
    let matchers := ["blob"; "raw"; "gist"] in
    {| proxyableMatchersMap :=
         Some (foldl (fun table m => {[ m ]} ∪ table) ∅ matchers);
       initMatchersOnce := true |}.

(** Lines 187-191; reading a [nil] map finds nothing. *)
Definition matchString (target : string) (st : MatcherTable) : bool * MatcherTable :=
  let st := initMatchers st in
  (match proxyableMatchersMap st with
   | Some table => bool_decide (target ∈ table)
   | None => false
   end, st).

(** The states the package can be in: once the [sync.Once] has run, the
    table is the one [initMatchers] builds. *)
Definition table_reachable (st : MatcherTable) : Prop :=
  st = table_unset \/ st = initMatchers table_unset.

(** The condition of line 148 under which the api.github.com branch
    refuses. *)
Definition api_denied (cfg : Config) : bool :=
  negb (Auth_ForceAllowApi (Auth cfg))
  && (negb (String.eqb (Auth_Method (Auth cfg)) "header")
      || negb (Auth_Enabled (Auth cfg))).

(** [len(path) > 0 && path[0] == '/'] *)
Definition leading_slash (path : string) : bool :=
  (0 <? len path)
  && match path with
     | String a _ => Ascii.eqb a slash
     | EmptyString => false
     end.

Section ExtractParts.

Context `{GoLib}.

(** [url.Values], [parsedURL.Path] and [parsedURL.Query()] of [net/url]. *)
Variable Values : Type.
Variable url_Path : URL -> string.
Variable url_Query : URL -> Values.

(** The five results of [extractParts] (lines 194-219); the last one is the
    error, [None] for [nil]. *)
Definition extractParts (rawURL : string)
    : string * string * string * option Values * option string :=
  match url_Parse rawURL with
  | Err e => ("", "", "", None, Some e)
  | Ok parsedURL =>
      let path := url_Path parsedURL in
      let path := if leading_slash path then from path 1 else path in
      let parts := SplitN path slash 3 in
      match parts with
      | p0 :: p1 :: rest =>
          let repoOwner := "/" +:+ p0 in
          let repoName := "/" +:+ p1 in
          let remainingPath :=
            match rest with
            | p2 :: _ => "/" +:+ p2
            | [] => ""
            end in
          (repoOwner, repoName, remainingPath, Some (url_Query parsedURL), None)
      | _ => ("", "", "", None, Some "URL path is too short")
      end
  end.

(** The path [extractParts] splits: without its leading slash. *)
Definition stripped_path (parsedURL : URL) : string :=
  if leading_slash (url_Path parsedURL) then from (url_Path parsedURL) 1
  else url_Path parsedURL.

End ExtractParts.

(** ** More ways to read a trace *)

(** The call sites whose response body was handed to the client. *)
Definition streamed_sites (t : list Event) : list Site :=
  omap (fun e => match e with
                 | EvSetBodyStream s _ _ => Some s
                 | _ => None
                 end) t.

(** All requests sent, with their call sites, in order. *)
Definition requests (t : list Event) : list (Site * Request) :=
  omap (fun e => match e with
                 | EvDo s rq => Some (s, rq)
                 | _ => None
                 end) t.

(** The call site a step hands a response on from, if it does. *)
Definition handed_on {R A} (site : A -> Site) (o : Outcome R A) : list Site :=
  match o with
  | Next a => [site a]
  | Return _ => []
  end.

(** The call sites of the requests sent, in order. *)
Definition sites (t : list Event) : list Site := map fst (requests t).

(** The call sites [GhcrRequest] can reach between the initial request and
    the redirect step, in the order of the source: the two of
    [ChallengeReq] (lines 369 and 400), then the retry (line 229). *)
Definition handshake_orders : list (list Site) :=
  [[]; [Challenge]; [Challenge; TokenEndpoint];
   [Challenge; TokenEndpoint; Retry]].

(** The call sites of the redirect step (line 278). *)
Definition redirect_orders : list (list Site) := [[]; [Redirect]].

(** ** Facts about the string primitives *)

Section StringFacts.

Lemma len_nonneg s : 0 <= len s.
Proof. unfold len. lia. Qed.

Lemma len_app p s : len (p +:+ s) = len p + len s.
Proof.
  assert (Hn : String.length (p +:+ s) = (String.length p + String.length s)%nat).
  { induction p as [|a p IH]; simpl; [reflexivity | by rewrite IH]. }
  unfold len. rewrite Hn. lia.
Qed.

Lemma len_zero s : len s = 0 -> s = "".
Proof. destruct s; [easy|]. unfold len; simpl. lia. Qed.

Lemma HasPrefix_app p s : HasPrefix (p +:+ s) p = true.
Proof.
  unfold HasPrefix. induction p as [|a p IH]; simpl; [by destruct s|].
  destruct (ascii_dec a a); [exact IH | congruence].
Qed.

Lemma from_app p s : from (p +:+ s) (len p) = s.
Proof.
  unfold from, len. rewrite Nat2Z.id.
  induction p as [|a p IH]; simpl; [reflexivity | exact IH].
Qed.

Lemma upto_app p s : upto (p +:+ s) (len p) = p.
Proof.
  unfold upto, len. rewrite Nat2Z.id.
  induction p as [|a p IH]; simpl; [by destruct s | by rewrite IH].
Qed.

Lemma from_succ a s i : 0 <= i -> from (String a s) (i + 1) = from s i.
Proof.
  intros Hi. unfold from.
  replace (Z.to_nat (i + 1)) with (S (Z.to_nat i)) by lia. reflexivity.
Qed.

Lemma upto_succ a s i : 0 <= i -> upto (String a s) (i + 1) = String a (upto s i).
Proof.
  intros Hi. unfold upto.
  replace (Z.to_nat (i + 1)) with (S (Z.to_nat i)) by lia. reflexivity.
Qed.

Lemma IndexByte_lower s c : -1 <= IndexByte s c.
Proof.
  induction s as [|a s IH]; simpl; [lia|].
  destruct (Ascii.eqb a c); [lia|].
  destruct (Z.ltb_spec (IndexByte s c) 0); lia.
Qed.

Lemma IndexByte_upper s c : IndexByte s c < len s.
Proof.
  unfold len. induction s as [|a s IH]; simpl; [lia|].
  destruct (Ascii.eqb a c); [lia|].
  destruct (Z.ltb_spec (IndexByte s c) 0); lia.
Qed.

(** A string without the byte has no index for it. *)
Lemma IndexByte_absent s c : ContainsByte s c = false -> IndexByte s c = -1.
Proof.
  induction s as [|a s IH]; simpl; [reflexivity|].
  destruct (Ascii.eqb a c); [discriminate|].
  intros Hs. rewrite (IH Hs). reflexivity.
Qed.

(** The first occurrence ends the longest prefix free of the byte. *)
Lemma IndexByte_segment seg c rest :
  ContainsByte seg c = false -> IndexByte (seg +:+ String c rest) c = len seg.
Proof.
  unfold len. induction seg as [|a seg IH]; simpl.
  - intros _. by rewrite Ascii.eqb_refl.
  - destruct (Ascii.eqb a c); [discriminate|].
    intros Hs. rewrite (IH Hs).
    destruct (Z.ltb_spec (Z.of_nat (String.length seg)) 0); lia.
Qed.

(** Conversely, an index splits the string at a prefix free of the byte. *)
Lemma IndexByte_split s c :
  0 <= IndexByte s c ->
  s = upto s (IndexByte s c) +:+ String c (from s (IndexByte s c + 1))
  /\ ContainsByte (upto s (IndexByte s c)) c = false.
Proof.
  induction s as [|a s IH]; simpl; [lia|].
  destruct (Ascii.eqb_spec a c) as [->|Hac].
  - intros _. split; reflexivity.
  - destruct (Z.ltb_spec (IndexByte s c) 0) as [Hlt|Hge]; [lia|].
    intros _. destruct (IH Hge) as [Hs Hfree].
    rewrite from_succ, upto_succ by lia.
    split.
    + transitivity (String a (upto s (IndexByte s c)
                              +:+ String c (from s (IndexByte s c + 1))));
        [f_equal; exact Hs | reflexivity].
    + cbn [ContainsByte].
      destruct (Ascii.eqb_spec a c); [contradiction | exact Hfree].
Qed.

Lemma upto_nonempty s i : 0 < i -> i < len s -> upto s i <> "".
Proof.
  unfold upto, len. intros Hi Hl.
  destruct s as [|a s]; simpl in *; [lia|].
  destruct (Z.to_nat i) eqn:E; [lia | discriminate].
Qed.

Lemma String_eqb_false s t : s <> t -> String.eqb s t = false.
Proof. intros Hne. by apply String.eqb_neq. Qed.

End StringFacts.

(** ** The matcher *)

Section MatcherFacts.

Lemma long_enough p rest : 18 <= len p -> (len (p +:+ rest) <? 18) = false.
Proof.
  intros Hp. apply Z.ltb_ge. rewrite len_app. pose proof (len_nonneg rest). lia.
Qed.

(** Every classified error comes with three empty strings. *)
Lemma Matcher_error_fields rawPath cfg user repo matcher e :
  Matcher rawPath cfg = (user, repo, matcher, Some e) ->
  user = "" /\ repo = "" /\ matcher = "".
Proof.
  unfold Matcher, match_github, match_raw, match_gist, match_api,
    github_action, fail.
  intros Hm. repeat case_match; simplify_eq; auto.
Qed.

Lemma IndexByte_slash seg rest :
  ContainsByte seg slash = false ->
  IndexByte (seg +:+ "/" +:+ rest) slash = len seg.
Proof. apply IndexByte_segment. Qed.

Lemma upto_slash seg rest : upto (seg +:+ "/" +:+ rest) (len seg) = seg.
Proof. apply upto_app. Qed.

Lemma from_slash seg rest : from (seg +:+ "/" +:+ rest) (len seg + 1) = rest.
Proof.
  assert (Hassoc : seg +:+ "/" +:+ rest = (seg +:+ "/") +:+ rest).
  { induction seg as [|a seg IH]; [reflexivity|].
    change (String a (seg +:+ "/" +:+ rest) = String a ((seg +:+ "/") +:+ rest)).
    by rewrite IH. }
  assert (Hlen : len seg + 1 = len (seg +:+ "/")).
  { rewrite len_app. reflexivity. }
  rewrite Hassoc, Hlen. apply from_app.
Qed.

Lemma len_pos s : s <> "" -> 0 < len s.
Proof.
  intros Hs. pose proof (len_nonneg s).
  destruct (Z.eq_dec (len s) 0) as [E|]; [by apply len_zero in E | lia].
Qed.

Lemma append_empty s : s +:+ "" = s.
Proof.
  induction s as [|a s IH]; [reflexivity|].
  change (String a (s +:+ "") = String a s). by rewrite IH.
Qed.

(** A github.com URL with an owner, a repository and an action token
    reaches the [switch] on the action. *)
Lemma Matcher_github_reaches_switch owner repo action tail cfg :
  owner <> "" -> repo <> "" ->
  ContainsByte owner slash = false ->
  ContainsByte repo slash = false ->
  ContainsByte action slash = false ->
  action_tail action tail ->
  Matcher (githubPrefix +:+ owner +:+ "/" +:+ repo +:+ "/" +:+ action +:+ tail) cfg
  = github_action owner repo (action +:+ tail) action.
Proof.
  intros Ho Hr Hos Hrs Has Ht. unfold Matcher.
  rewrite long_enough by (vm_compute; discriminate).
  rewrite HasPrefix_app. unfold match_github, githubPrefixLen.
  rewrite from_app.
  rewrite (IndexByte_slash owner) by assumption.
  pose proof (len_pos owner Ho) as Hlo.
  destruct (Z.leb_spec (len owner) 0) as [|_]; [lia|].
  rewrite upto_slash, from_slash.
  rewrite (IndexByte_slash repo) by assumption.
  pose proof (len_pos repo Hr) as Hlr.
  destruct (Z.leb_spec (len repo) 0) as [|_]; [lia|].
  rewrite upto_slash, from_slash.
  pose proof (len_nonneg action) as Hla.
  destruct Ht as [[Ha ->] | [rest ->]].
  - rewrite append_empty.
    assert (Hlen : (len action =? 0) = false)
      by (apply Z.eqb_neq; pose proof (len_pos action Ha); lia).
    rewrite Hlen, (IndexByte_absent action) by assumption. reflexivity.
  - assert (Hlen : (len (action +:+ "/" +:+ rest) =? 0) = false).
    { apply Z.eqb_neq. rewrite !len_app. pose proof (len_nonneg rest).
      change (len "/") with 1. lia. }
    rewrite Hlen, (IndexByte_slash action) by assumption.
    assert (Hi : (len action =? -1) = false) by (apply Z.eqb_neq; lia).
    rewrite Hi. cbn [negb]. rewrite upto_slash. reflexivity.
Qed.

Lemma match_github_success rawPath user repo matcher :
  match_github rawPath = (user, repo, matcher, None) ->
  user <> "" /\ repo <> "" /\ matcher <> "".
Proof.
  unfold match_github, github_action, fail. intros Hm.
  repeat case_match; simplify_eq;
    repeat match goal with
    | E : (_ <=? 0) = false |- _ => apply Z.leb_gt in E
    end;
    (split; [|split]);
    try discriminate;
    apply upto_nonempty; try assumption; apply IndexByte_upper.
Qed.

Lemma match_raw_success rawPath user repo matcher :
  match_raw rawPath = (user, repo, matcher, None) ->
  user <> "" /\ repo <> "" /\ matcher <> "".
Proof.
  unfold match_raw, fail. intros Hm.
  repeat case_match; simplify_eq;
    repeat match goal with
    | E : (_ <=? 0) = false |- _ => apply Z.leb_gt in E
    end;
    (split; [|split]);
    try discriminate;
    apply upto_nonempty; try assumption; apply IndexByte_upper.
Qed.

Lemma match_gist_success rawPath n user repo matcher :
  match_gist rawPath n = (user, repo, matcher, None) ->
  user <> "" /\ repo = "" /\ matcher = "gist".
Proof.
  unfold match_gist, fail. intros Hm.
  repeat case_match; simplify_eq; (split; [|split]); try reflexivity.
  - intros E.
    match goal with Hl : (0 <? len _) = true |- _ => rewrite E in Hl; discriminate Hl end.
  - match goal with E : (_ <=? 0) = false |- _ => apply Z.leb_gt in E end.
    apply upto_nonempty; [assumption | apply IndexByte_upper].
Qed.

(** Every success carries an action kind, and the owner and repository
    where the prefix makes them mandatory. *)
Lemma Matcher_success_fields rawPath cfg user repo matcher :
  Matcher rawPath cfg = (user, repo, matcher, None) ->
  matcher <> ""
  /\ (HasPrefix rawPath githubPrefix = true \/ HasPrefix rawPath rawPrefix = true ->
      user <> "" /\ repo <> "")
  /\ (HasPrefix rawPath gistPrefix = true \/ HasPrefix rawPath gistContentPrefix = true ->
      user <> "").
Proof.
  unfold Matcher. intros Hm.
  destruct (len rawPath <? 18); [discriminate|].
  destruct (HasPrefix rawPath githubPrefix) eqn:Hg.
  { apply match_github_success in Hm. tauto. }
  destruct (HasPrefix rawPath rawPrefix) eqn:Hr.
  { apply match_raw_success in Hm. tauto. }
  destruct (HasPrefix rawPath gistPrefix) eqn:Hgi.
  { apply match_gist_success in Hm. destruct Hm as (Hu & _ & ->).
    split; [discriminate|].
    split; [intros [?|?]; discriminate | intros _; exact Hu]. }
  destruct (HasPrefix rawPath gistContentPrefix) eqn:Hgc.
  { apply match_gist_success in Hm. destruct Hm as (Hu & _ & ->).
    split; [discriminate|].
    split; [intros [?|?]; discriminate | intros _; exact Hu]. }
  destruct (HasPrefix rawPath apiPrefix) eqn:Ha; [|discriminate].
  unfold match_api in Hm. repeat case_match; simplify_eq;
    (split; [discriminate | split; intros [?|?]; discriminate]).
Qed.

(** C8: for [https://github.com/<owner>/<repo>/<action>...] with non-empty
    owner and repo segments, the action token decides the result: a path
    that goes on with [releases/download/] and the action [archive] give
    [releases], [blob] gives [blob], [raw] gives [raw], [info] and
    [git-upload-pack] give [clone]; [releases] without the download snippet
    is a 400, and every other action token is the 400
    [unsupported github action]. *)
Theorem Matcher_github_dispatch owner repo action tail cfg :
  owner <> "" -> repo <> "" ->
  ContainsByte owner slash = false ->
  ContainsByte repo slash = false ->
  ContainsByte action slash = false ->
  action_tail action tail ->
  let rawPath :=
    githubPrefix +:+ owner +:+ "/" +:+ repo +:+ "/" +:+ action +:+ tail in
  (action = "releases" -> HasPrefix (action +:+ tail) "releases/download/" = true ->
     Matcher rawPath cfg = (owner, repo, "releases", None))
  /\ (action = "releases" -> HasPrefix (action +:+ tail) "releases/download/" = false ->
     Matcher rawPath cfg
     = ("", "", "", Some (NewErrorWithStatusLookup 400
          "malformed github path: not a releases download url")))
  /\ (action = "archive" -> Matcher rawPath cfg = (owner, repo, "releases", None))
  /\ (action = "blob" -> Matcher rawPath cfg = (owner, repo, "blob", None))
  /\ (action = "raw" -> Matcher rawPath cfg = (owner, repo, "raw", None))
  /\ (action = "info" -> Matcher rawPath cfg = (owner, repo, "clone", None))
  /\ (action = "git-upload-pack" ->
     Matcher rawPath cfg = (owner, repo, "clone", None))
  /\ (action <> "releases" -> action <> "archive" -> action <> "blob" ->
     action <> "raw" -> action <> "info" -> action <> "git-upload-pack" ->
     Matcher rawPath cfg
     = ("", "", "", Some (NewErrorWithStatusLookup 400
          ("unsupported github action: " +:+ action)))).
Proof.
  intros Ho Hr Hos Hrs Has Ht rawPath. subst rawPath.
  rewrite Matcher_github_reaches_switch by assumption.
  unfold github_action, releasesDownloadSnippet.
  split; [|split; [|split; [|split; [|split; [|split; [|split]]]]]].
  - intros -> Hd. by rewrite Hd.
  - intros -> Hd. by rewrite Hd.
  - by intros ->.
  - by intros ->.
  - by intros ->.
  - by intros ->.
  - by intros ->.
  - intros H1 H2 H3 H4 H5 H6.
    rewrite !String_eqb_false by assumption. reflexivity.
Qed.

Lemma Matcher_github_dispatch_witness :
  Matcher "https://github.com/alice/app/archive/v1.zip" (Sample.cfg 10)
  = ("alice", "app", "releases", None)
  /\ Matcher "https://github.com/alice/app/releases/download/v1/app.tgz" (Sample.cfg 10)
    = ("alice", "app", "releases", None)
  /\ Matcher "https://github.com/alice/app/releases/tag/v1" (Sample.cfg 10)
    = ("", "", "", Some (NewErrorWithStatusLookup 400
         "malformed github path: not a releases download url"))
  /\ Matcher "https://github.com/alice/app/issues/1" (Sample.cfg 10)
    = ("", "", "", Some (NewErrorWithStatusLookup 400
         "unsupported github action: issues")).
Proof.
  assert (Ha : "alice" <> "") by discriminate.
  assert (Hb : "app" <> "") by discriminate.
  assert (Htail : forall action rest, action_tail action ("/" +:+ rest))
    by (right; eauto).
  split; [|split; [|split]].
  - destruct (Matcher_github_dispatch "alice" "app" "archive" "/v1.zip"
                (Sample.cfg 10) Ha Hb eq_refl eq_refl eq_refl (Htail _ _))
      as (_ & _ & Harchive & _).
    exact (Harchive eq_refl).
  - destruct (Matcher_github_dispatch "alice" "app" "releases" "/download/v1/app.tgz"
                (Sample.cfg 10) Ha Hb eq_refl eq_refl eq_refl (Htail _ _))
      as (Hdownload & _).
    exact (Hdownload eq_refl eq_refl).
  - destruct (Matcher_github_dispatch "alice" "app" "releases" "/tag/v1"
                (Sample.cfg 10) Ha Hb eq_refl eq_refl eq_refl (Htail _ _))
      as (_ & Hother & _).
    exact (Hother eq_refl eq_refl).
  - destruct (Matcher_github_dispatch "alice" "app" "issues" "/1"
                (Sample.cfg 10) Ha Hb eq_refl eq_refl eq_refl (Htail _ _))
      as (_ & _ & _ & _ & _ & _ & _ & Hunsupported).
    apply Hunsupported; discriminate.
Defined.

(** Both gist prefixes lead to the same branch body. *)
Lemma Matcher_gist_branch prefix rest cfg :
  prefix = gistPrefix \/ prefix = gistContentPrefix ->
  Matcher (prefix +:+ rest) cfg = match_gist (prefix +:+ rest) (len prefix).
Proof.
  intros [-> | ->]; unfold Matcher;
    (rewrite long_enough by (vm_compute; discriminate)).
  - replace (HasPrefix (gistPrefix +:+ rest) githubPrefix) with false
      by reflexivity.
    replace (HasPrefix (gistPrefix +:+ rest) rawPrefix) with false
      by reflexivity.
    rewrite HasPrefix_app. reflexivity.
  - replace (HasPrefix (gistContentPrefix +:+ rest) githubPrefix) with false
      by reflexivity.
    replace (HasPrefix (gistContentPrefix +:+ rest) rawPrefix) with false
      by reflexivity.
    replace (HasPrefix (gistContentPrefix +:+ rest) gistPrefix) with false
      by reflexivity.
    rewrite HasPrefix_app. reflexivity.
Qed.

(** A gist URL whose owner segment is not empty succeeds, with or without
    anything after the owner. *)
Lemma Matcher_gist_owner prefix owner tail cfg :
  prefix = gistPrefix \/ prefix = gistContentPrefix ->
  owner <> "" -> ContainsByte owner slash = false ->
  tail = "" \/ (exists rest, tail = "/" +:+ rest) ->
  Matcher (prefix +:+ owner +:+ tail) cfg = (owner, "", "gist", None).
Proof.
  intros Hp Ho Hos Ht.
  rewrite Matcher_gist_branch by assumption.
  unfold match_gist. rewrite from_app.
  pose proof (len_pos owner Ho) as Hlo.
  destruct Ht as [-> | [rest ->]].
  - replace (owner +:+ "") with owner
      by (clear; induction owner as [|a o IH]; [reflexivity|];
          change (String a o = String a (o +:+ "")); by rewrite <- IH).
    rewrite IndexByte_absent by assumption. cbn [Z.leb Z.compare].
    destruct (Z.ltb_spec 0 (len owner)); [reflexivity | lia].
  - rewrite IndexByte_slash by assumption.
    destruct (Z.leb_spec (len owner) 0); [lia|].
    rewrite upto_slash. reflexivity.
Qed.

(** A gist URL with nothing after the prefix is the 400 [missing user]. *)
Lemma Matcher_gist_bare cfg :
  Matcher gistPrefix cfg
  = ("", "", "", Some (NewErrorWithStatusLookup 400 "malformed gist url: missing user"))
  /\ Matcher gistContentPrefix cfg
    = ("", "", "", Some (NewErrorWithStatusLookup 400 "malformed gist url: missing user")).
Proof. split; reflexivity. Qed.

(** Under the api.github.com prefix no segment is mandatory: a path that
    names no repository succeeds with empty owner and repo. *)
Lemma Matcher_api_optional_fields cfg :
  Auth_ForceAllowApi (Auth cfg) = true ->
  Matcher "https://api.github.com/repos/alice" cfg = ("", "", "api", None)
  /\ Matcher "https://api.github.com/rate_limit" cfg = ("", "", "api", None).
Proof.
  intros Hf. unfold Matcher, match_api. rewrite Hf. split; reflexivity.
Qed.

(** C7: the owner segment of a gist URL is empty when the prefix is
    followed by a slash; the matcher does not reject such a URL but
    returns everything after the prefix, slash included, as the owner,
    under both gist prefixes. *)
Theorem Matcher_gist_empty_owner_accepted rest cfg :
  Matcher (gistPrefix +:+ "/" +:+ rest) cfg = ("/" +:+ rest, "", "gist", None)
  /\ Matcher (gistContentPrefix +:+ "/" +:+ rest) cfg
    = ("/" +:+ rest, "", "gist", None).
Proof.
  assert (Hl : (0 <? len ("/" +:+ rest)) = true).
  { apply Z.ltb_lt. rewrite len_app. pose proof (len_nonneg rest).
    change (len "/") with 1. lia. }
  split; (rewrite Matcher_gist_branch by auto);
    unfold match_gist; rewrite from_app;
    change (IndexByte ("/" +:+ rest) slash) with 0;
    cbn [Z.leb Z.compare]; rewrite Hl; reflexivity.
Qed.

(** C6: on [https://gist.github.com//abc] the mandatory owner segment, the
    text between the prefix and the next slash, is empty, yet the matcher
    returns no error: it succeeds with the owner [/abc]. *)
Theorem Matcher_unparsed_owner_not_rejected cfg :
  let rawPath := "https://gist.github.com//abc" in
  let remaining := from rawPath gistPrefixLen in
  upto remaining (IndexByte remaining slash) = ""
  /\ Matcher rawPath cfg = ("/abc", "", "gist", None).
Proof.
  intros rawPath remaining. split.
  - reflexivity.
  - unfold Matcher, rawPath. reflexivity.
Qed.

End MatcherFacts.

(** ** The registry target *)

Section TargetFacts.

Lemma take_drop n s : take n s +:+ drop n s = s.
Proof.
  revert s. induction n as [|n IH]; intros [|a s]; try reflexivity.
  change (String a (take n s +:+ drop n s) = String a s). by rewrite IH.
Qed.

Lemma ContainsByte_app a b c :
  ContainsByte (a +:+ b) c = ContainsByte a c || ContainsByte b c.
Proof.
  induction a as [|x a IH]; [reflexivity|].
  change (ContainsByte (String x (a +:+ b)) c
          = ContainsByte (String x a) c || ContainsByte b c).
  cbn [ContainsByte]. destruct (Ascii.eqb x c); [reflexivity | exact IH].
Qed.

Lemma HasSuffix_contains s p c :
  HasSuffix s p = true -> ContainsByte p c = true -> ContainsByte s c = true.
Proof.
  unfold HasSuffix, from. intros Hs Hp.
  apply andb_true_iff in Hs as [_ He]. apply String.eqb_eq in He.
  rewrite <- (take_drop (Z.to_nat (len s - len p)) s), ContainsByte_app, He, Hp.
  apply orb_true_r.
Qed.

Lemma route_target_dotless t : ContainsByte t "." = false -> route_target t = "".
Proof.
  intros Hd. unfold route_target.
  destruct (String.eqb_spec t "docker.io") as [->|_]; [discriminate|].
  destruct (String.eqb_spec t "ghcr.io") as [->|_]; [discriminate|].
  destruct (HasSuffix t ".gcr.io") eqn:Hs.
  { apply (HasSuffix_contains _ _ ".") in Hs; [congruence | reflexivity]. }
  destruct (String.eqb_spec t "gcr.io") as [->|_]; [discriminate|].
  cbn [orb]. by rewrite Hd.
Qed.

Lemma resolve_explicit c cfg target path :
  target <> "" ->
  exists destUrl, resolve_upstream c cfg target path = inr (target, destUrl).
Proof.
  intros Ht. unfold resolve_upstream.
  rewrite String_eqb_false by assumption. cbn [negb]. eauto.
Qed.

Lemma routed_explicit c cfg t :
  route_target t <> "" -> routed_upstream c cfg t = inr (route_target t).
Proof.
  intros Ht. unfold routed_upstream.
  destruct (resolve_explicit c cfg (route_target t)
              (cl_Param c "user" +:+ "/" +:+ cl_Param c "repo" +:+ cl_Param c "filepath") Ht)
    as [d ->].
  reflexivity.
Qed.

Lemma ContainsByte_nonempty t c : ContainsByte t c = true -> t <> "".
Proof. by intros Ht ->. Qed.

(** C4 as the code has it: a route target that is docker.io, ghcr.io,
    gcr.io, ends in .gcr.io or contains a dot is resolved by the table,
    whatever the configured default; a target without a dot, empty or
    not, is resolved from the configured default: the aliases ghcr and
    dockerhub, a 403 when it is empty, the default itself otherwise. *)
Theorem routed_upstream_table c cfg t :
  (t = "docker.io" -> routed_upstream c cfg t = inr "registry-1.docker.io")
  /\ (t = "ghcr.io" -> routed_upstream c cfg t = inr "ghcr.io")
  /\ (t = "gcr.io" \/ HasSuffix t ".gcr.io" = true ->
      routed_upstream c cfg t = inr t)
  /\ (ContainsByte t "." = true -> t <> "docker.io" -> t <> "ghcr.io" ->
      routed_upstream c cfg t = inr t)
  /\ (ContainsByte t "." = false ->
      (Docker_Target cfg = "ghcr" -> routed_upstream c cfg t = inr "ghcr.io")
      /\ (Docker_Target cfg = "dockerhub" ->
          routed_upstream c cfg t = inr "registry-1.docker.io")
      /\ (Docker_Target cfg = "" ->
          routed_upstream c cfg t
          = inl (NewErrorWithStatusLookup 403 "Docker Target is not set"))
      /\ (Docker_Target cfg <> "ghcr" -> Docker_Target cfg <> "dockerhub" ->
          Docker_Target cfg <> "" ->
          routed_upstream c cfg t = inr (Docker_Target cfg))).
Proof.
  split; [|split; [|split; [|split]]].
  - intros ->. reflexivity.
  - intros ->. reflexivity.
  - intros Hg.
    assert (Hr : route_target t = t).
    { unfold route_target.
      destruct (String.eqb_spec t "docker.io") as [->|_];
        [destruct Hg; discriminate|].
      destruct (String.eqb_spec t "ghcr.io") as [->|_];
        [destruct Hg; discriminate|].
      destruct Hg as [-> | ->]; [reflexivity | reflexivity]. }
    assert (Hne : t <> "") by (destruct Hg as [-> | Hs]; [discriminate | by intros ->]).
    rewrite routed_explicit; rewrite Hr; [reflexivity | exact Hne].
  - intros Hd H1 H2.
    assert (Hr : route_target t = t).
    { unfold route_target. rewrite !String_eqb_false by assumption.
      destruct (HasSuffix t ".gcr.io" || String.eqb t "gcr.io"); [reflexivity|].
      by rewrite Hd. }
    rewrite routed_explicit; rewrite Hr;
      [reflexivity | by apply (ContainsByte_nonempty t ".")].
  - intros Hd. unfold routed_upstream, resolve_upstream.
    rewrite (route_target_dotless t Hd). cbn [String.eqb negb].
    split; [|split; [|split]].
    + intros ->. reflexivity.
    + intros ->. reflexivity.
    + intros ->. reflexivity.
    + intros H1 H2 H3. rewrite !String_eqb_false by assumption. reflexivity.
Qed.

Lemma routed_upstream_table_witness :
  routed_upstream Sample.client (Sample.cfg_default "") "eu.gcr.io" = inr "eu.gcr.io"
  /\ routed_upstream Sample.client (Sample.cfg_default "") "quay.io" = inr "quay.io"
  /\ routed_upstream Sample.client (Sample.cfg_default "dockerhub") ""
     = inr "registry-1.docker.io"
  /\ routed_upstream Sample.client (Sample.cfg_default "mirror.example.com") ""
     = inr "mirror.example.com".
Proof.
  split; [|split; [|split]].
  - destruct (routed_upstream_table Sample.client (Sample.cfg_default "") "eu.gcr.io")
      as (_ & _ & Hgcr & _).
    apply Hgcr. right. reflexivity.
  - destruct (routed_upstream_table Sample.client (Sample.cfg_default "") "quay.io")
      as (_ & _ & _ & Hdot & _).
    apply Hdot; [reflexivity | discriminate | discriminate].
  - destruct (routed_upstream_table Sample.client (Sample.cfg_default "dockerhub") "")
      as (_ & _ & _ & _ & Hdflt).
    destruct (Hdflt eq_refl) as (_ & Hhub & _). exact (Hhub eq_refl).
  - destruct (routed_upstream_table Sample.client
                (Sample.cfg_default "mirror.example.com") "")
      as (_ & _ & _ & _ & Hdflt).
    destruct (Hdflt eq_refl) as (_ & _ & _ & Hlit).
    apply Hlit; discriminate.
Defined.

(** C4, as stated, fails on the route target [library]: it is not empty,
    and the upstream is whatever the configured default says. *)
Lemma route_without_dot_uses_default :
  "library" <> ""
  /\ routed_upstream Sample.client (Sample.cfg_default "ghcr") "library"
     = inr "ghcr.io"
  /\ routed_upstream Sample.client (Sample.cfg_default "dockerhub") "library"
     = inr "registry-1.docker.io"
  /\ routed_upstream Sample.client (Sample.cfg_default "") "library"
     = inl (NewErrorWithStatusLookup 403 "Docker Target is not set").
Proof. split; [discriminate|]. split; [|split]; reflexivity. Qed.

End TargetFacts.

(** ** Proof automation for the monad *)

(** Runs the monad on the visible part of a computation. *)
Tactic Notation "run" :=
  cbv [mbind M_bind bind mret M_ret ret return_ try call deferred emit
       cache_Get cache_Put Do HandleError ErrorPage Body_Close Build
       NewRequestWithContext
       rq_with_header rq_Method rq_URL rq_Query rq_Header rq_Body];
  cbn [app fst snd].
Tactic Notation "run" "in" hyp(Hyp) :=
  cbv [mbind M_bind bind mret M_ret ret return_ try call deferred emit
       cache_Get cache_Put Do HandleError ErrorPage Body_Close Build
       NewRequestWithContext
       rq_with_header rq_Method rq_URL rq_Query rq_Header rq_Body] in Hyp;
  cbn [app fst snd] in Hyp.

(** Splits on the innermost value the computation is waiting for. *)
Ltac step :=
  match goal with
  | |- context [match ?x with _ => _ end] =>
      lazymatch x with
      | context [match _ with _ => _ end] => fail
      | _ => destruct x eqn:?
      end
  end; run.

(** ** The monad *)

Section MonadFacts.

Context {R A B : Type}.

Lemma bind_Next (m : M R A) (f : A -> M R B) k a k1 t1 o k2 t2 :
  m k = (Next a, k1, t1) ->
  f a k1 = (o, k2, t2) ->
  (m ≫= f) k = (o, k2, t1 ++ t2).
Proof. intros Hm Hf. unfold mbind, M_bind, bind. by rewrite Hm, Hf. Qed.

Lemma bind_Return (m : M R A) (f : A -> M R B) k r k1 t1 :
  m k = (Return r, k1, t1) ->
  (m ≫= f) k = (Return r, k1, t1).
Proof. intros Hm. unfold mbind, M_bind, bind. by rewrite Hm. Qed.

Lemma bind_inv (m : M R A) (f : A -> M R B) k o k2 t :
  (m ≫= f) k = (o, k2, t) ->
  (exists a k1 t1 t2,
      m k = (Next a, k1, t1) /\ f a k1 = (o, k2, t2) /\ t = t1 ++ t2)
  \/ (exists r, m k = (Return r, k2, t) /\ o = Return r).
Proof.
  unfold mbind, M_bind, bind.
  destruct (m k) as [[[a|r] k1] t1].
  - destruct (f a k1) as [[o' k'] t2] eqn:Hf. intros [= <- <- <-].
    left. eauto 10.
  - intros [= <- <- <-]. right. eauto.
Qed.

End MonadFacts.

Section TraceFacts.

Lemma sent_at_app s t1 t2 : sent_at s (t1 ++ t2) = sent_at s t1 ++ sent_at s t2.
Proof. apply omap_app. Qed.

Lemma client_answers_app t1 t2 :
  client_answers (t1 ++ t2) = client_answers t1 ++ client_answers t2.
Proof. apply omap_app. Qed.

Lemma streams_body_app t1 t2 :
  streams_body (t1 ++ t2) = streams_body t1 || streams_body t2.
Proof. apply existsb_app. Qed.

End TraceFacts.

(** ** The challenge resolver *)

Section ChallengeFacts.

Context `{GoLib}.
Variable transport : Site -> Request -> result Response.

(** [ChallengeReq] always returns, with the cache as it found it; it
    sends nothing at the call sites of [GhcrRequest], hands no body to the
    client and, when it returns a token, has written no answer. *)
Lemma ChallengeReq_run target image k :
  exists token t,
    ChallengeReq transport target image k = (Return token, k, t)
    /\ sent_at Initial t = [] /\ sent_at Retry t = [] /\ sent_at Redirect t = []
    /\ streams_body t = false
    /\ (token <> "" -> client_answers t = []).
Proof.
  unfold ChallengeReq. run. repeat step.
  all: eexists _, _; (split; [reflexivity|]).
  all: repeat (apply conj); try reflexivity; intros Hne; congruence.
Qed.

(** C9: [ChallengeReq] always returns; it returns the decoded token when
    every step of the handshake succeeds (the discovery request, the
    Bearer challenge, the token request with service and scope, the JSON
    document) and the empty string when any step fails, and no response
    body it opened is still open when it returns. *)
Theorem ChallengeReq_contract target image k :
  exists token t,
    ChallengeReq transport target image k = (Return token, k, t)
    /\ open_bodies transport t [] = []
    /\ (forall resp401 bearer authResp bodyBytes authToken,
          handshake transport target image resp401 bearer authResp bodyBytes authToken ->
          token = Token authToken
          /\ t = [EvDo Challenge (req401_of target);
                  EvDo TokenEndpoint (getAuthReq_of bearer image);
                  EvReadAll TokenEndpoint;
                  EvClose TokenEndpoint; EvClose Challenge])
    /\ ((forall resp401 bearer authResp bodyBytes authToken,
           ~ handshake transport target image resp401 bearer authResp bodyBytes authToken) ->
        token = "").
Proof.
  unfold handshake, ChallengeReq, req401_of, getAuthReq_of. run.
  repeat step.
  all: eexists _, _; (split; [reflexivity|]).
  (* every body opened by a successful [Do] has its [Close] in the trace *)
  all: split;
    [ cbn [open_bodies];
      repeat match goal with
             | E : transport _ _ = _ |- _ => rewrite E; clear E
             end;
      reflexivity |].
  (* the handshake succeeded: only the last branch is consistent with it *)
  all: split;
    [ intros resp401 bearer authResp bodyBytes authToken
        (E1 & E2 & E3 & E4 & E5 & E6 & E7);
      split; congruence |].
  (* no handshake: every branch but the last returns the empty string *)
  all: intros Hno; try reflexivity;
    exfalso; eapply Hno; repeat (apply conj);
    first [reflexivity | eassumption].
Qed.

End ChallengeFacts.

(** ** The proxy engine *)

Section EngineFacts.

Context `{GoLib}.
Variable transport : Site -> Request -> result Response.

Implicit Types (c : Client) (cfg : Config) (k : Cache) (resp : Live).

(** *** The initial request *)

Lemma send_initial_sent c u image target k bodyByte r :
  cl_ReqBodyFull c = Ok bodyByte ->
  Build_error (unsent_request c u bodyByte) = None ->
  transport Initial (initial_request c u target bodyByte (cached_token k image)) = Ok r ->
  send_initial transport c u image target k
  = (Next (bodyByte, (Initial, r)), k,
     [EvDo Initial (initial_request c u target bodyByte (cached_token k image))]).
Proof.
  unfold send_initial, initial_request, unsent_request, upstream_header, cached_token.
  intros Hb Hbuild Hdo. rewrite Hb. run. rewrite Hbuild.
  destruct image as [img|]; run; [destruct (k !! Image img); run|];
    run in Hdo; rewrite Hdo; reflexivity.
Qed.

Lemma send_initial_failed c u image target k bodyByte e :
  cl_ReqBodyFull c = Ok bodyByte ->
  Build_error (unsent_request c u bodyByte) = None ->
  transport Initial (initial_request c u target bodyByte (cached_token k image)) = Err e ->
  send_initial transport c u image target k
  = (Return tt, k,
     [EvDo Initial (initial_request c u target bodyByte (cached_token k image));
      EvHandleError ("Failed to send request: " +:+ e)]).
Proof.
  unfold send_initial, initial_request, unsent_request, upstream_header, cached_token.
  intros Hb Hbuild Hdo. rewrite Hb. run. rewrite Hbuild.
  destruct image as [img|]; run; [destruct (k !! Image img); run|];
    run in Hdo; rewrite Hdo; reflexivity.
Qed.

(** *** The retry *)

Lemma auth_retry_skipped c u image target bodyByte resp k :
  auth_failed (snd resp) = false \/ cl_RequestURIPath c = "/v2/" ->
  auth_retry transport c u image target bodyByte resp k = (Next resp, k, []).
Proof.
  unfold auth_retry, auth_failed. intros [Hs | Hp].
  - rewrite Hs. reflexivity.
  - rewrite Hp. destruct (_ || _); reflexivity.
Qed.

Lemma call_ChallengeReq target image k :
  exists token t,
    call (R' := unit) (ChallengeReq transport target image) k = (Next token, k, t)
    /\ ChallengeReq transport target image k = (Return token, k, t).
Proof.
  destruct (ChallengeReq_run transport target image k) as (token & t & Hrun & _).
  exists token, t. unfold call. by rewrite Hrun.
Qed.

Lemma auth_retry_fires c u img target bodyByte r k token tc resp_retry :
  auth_failed r = true ->
  cl_RequestURIPath c <> "/v2/" ->
  ChallengeReq transport target img k = (Return token, k, tc) ->
  token <> "" ->
  Build_error (unsent_request c u bodyByte) = None ->
  transport Retry (retry_request c u target bodyByte token) = Ok resp_retry ->
  auth_retry transport c u (Some img) target bodyByte (Initial, r) k
  = (Next (Retry, resp_retry), <[Image img := token]> k,
     tc ++ [EvClose Initial; EvDo Retry (retry_request c u target bodyByte token)]).
Proof.
  unfold auth_retry, auth_failed, retry_request, unsent_request, upstream_header.
  intros Hs Hp Hc Ht Hbuild Hdo. cbn [snd]. rewrite Hs.
  rewrite (String_eqb_false _ _ Hp). cbn [negb].
  run. rewrite Hc. rewrite (String_eqb_false _ _ Ht). run.
  rewrite Hbuild. run in Hdo. rewrite Hdo. reflexivity.
Qed.

Lemma auth_retry_no_token c u img target bodyByte resp k tc :
  auth_failed (snd resp) = true ->
  cl_RequestURIPath c <> "/v2/" ->
  ChallengeReq transport target img k = (Return "", k, tc) ->
  auth_retry transport c u (Some img) target bodyByte resp k = (Next resp, k, tc).
Proof.
  unfold auth_retry, auth_failed. intros Hs Hp Hc. rewrite Hs.
  rewrite (String_eqb_false _ _ Hp). cbn [negb].
  run. rewrite Hc. cbn [String.eqb negb]. by rewrite app_nil_r.
Qed.

(** Before the redirect step nothing is sent to a redirect target and no
    body is handed to the client. *)
Lemma send_initial_trace c u image target k o k' t :
  send_initial transport c u image target k = (o, k', t) ->
  sent_at Redirect t = [] /\ streams_body t = false.
Proof.
  unfold send_initial. run. repeat step.
  all: intros [= <- <- <-]; split; reflexivity.
Qed.

Lemma auth_retry_trace c u image target bodyByte resp k o k' t :
  auth_retry transport c u image target bodyByte resp k = (o, k', t) ->
  sent_at Redirect t = [] /\ streams_body t = false.
Proof.
  unfold auth_retry.
  destruct (_ || _); [|by intros [= <- <- <-]].
  destruct (negb _); [|by intros [= <- <- <-]].
  destruct image as [img|]; [|by intros [= <- <- <-]].
  destruct (ChallengeReq_run transport target img k)
    as (token & tc & Hrun & _ & _ & Hr & Hs & _).
  run. rewrite Hrun. repeat step.
  all: intros [= <- <- <-];
    rewrite ?sent_at_app, ?streams_body_app, ?Hr, ?Hs; split; reflexivity.
Qed.

Lemma authorised_response_trace c u image target k o k' t :
  authorised_response transport c u image target k = (o, k', t) ->
  sent_at Redirect t = [] /\ streams_body t = false.
Proof.
  unfold authorised_response. intros Hrun.
  apply bind_inv in Hrun
    as [([b r] & k1 & t1 & t2 & Hi & Ha & ->) | ([] & Hi & ->)].
  - apply send_initial_trace in Hi as [Hi1 Hi2].
    apply auth_retry_trace in Ha as [Ha1 Ha2].
    by rewrite sent_at_app, streams_body_app, Hi1, Hi2, Ha1, Ha2.
  - by apply send_initial_trace in Hi.
Qed.

(** *** The redirect *)

Lemma follow_redirect_skipped c resp k :
  is_redirect (snd resp) = false ->
  follow_redirect transport c resp k = (Next resp, k, []).
Proof. unfold follow_redirect, is_redirect. by intros ->. Qed.

Lemma follow_redirect_no_location c resp k :
  is_redirect (snd resp) = true ->
  Header_Get (rs_Header (snd resp)) "Location" = "" ->
  follow_redirect transport c resp k
  = (Return tt, k,
     [EvClose (fst resp);
      EvHandleError "Redirect response missing Location header"]).
Proof.
  unfold follow_redirect, is_redirect. intros -> ->. reflexivity.
Qed.

Lemma follow_redirect_follows c resp k parsed rr :
  is_redirect (snd resp) = true ->
  Header_Get (rs_Header (snd resp)) "Location" <> "" ->
  url_Parse (Header_Get (rs_Header (snd resp)) "Location") = Ok parsed ->
  NewRequest_error "GET" (url_String (redirect_target (snd resp) parsed)) = None ->
  transport Redirect
    (redirect_request c (url_String (redirect_target (snd resp) parsed))) = Ok rr ->
  follow_redirect transport c resp k
  = (Next (Redirect, rr), k,
     [EvClose (fst resp);
      EvDo Redirect
        (redirect_request c (url_String (redirect_target (snd resp) parsed)))]).
Proof.
  unfold follow_redirect, is_redirect, redirect_request, redirect_target.
  intros -> Hl Hp Hn Hdo. rewrite (String_eqb_false _ _ Hl), Hp.
  run. rewrite Hn. run in Hdo. rewrite Hdo. reflexivity.
Qed.

(** Whatever the redirect step does, it sends at most the follow-up and
    hands no body to the client. *)
Lemma follow_redirect_trace c resp k o k' t :
  follow_redirect transport c resp k = (o, k', t) ->
  k' = k /\ streams_body t = false
  /\ sent_at Initial t = [] /\ sent_at Retry t = []
  /\ sent_at Challenge t = [] /\ sent_at TokenEndpoint t = [].
Proof.
  unfold follow_redirect. run. repeat step.
  all: intros [= <- <- <-]; repeat (apply conj); reflexivity.
Qed.

(** *** The not-found page, the ceiling and the stream *)

Lemma after_redirect_trace cfg resp k o k' t :
  after_redirect cfg resp k = (o, k', t) ->
  k' = k /\ forall s, sent_at s t = [].
Proof.
  unfold after_redirect, not_found, size_and_stream. run. repeat step.
  all: intros [= <- <- <-]; split; [reflexivity | intros s; reflexivity].
Qed.

Lemma after_auth_trace c cfg resp k o k' t :
  after_auth transport c cfg resp k = (o, k', t) ->
  k' = k /\ sent_at Initial t = [] /\ sent_at Retry t = []
  /\ sent_at Challenge t = [] /\ sent_at TokenEndpoint t = [].
Proof.
  unfold after_auth. intros Hrun.
  apply bind_inv in Hrun
    as [(r & k1 & t1 & t2 & Hf & Ha & ->) | ([] & Hf & ->)].
  - apply follow_redirect_trace in Hf as (-> & _ & H1 & H2 & H3 & H4).
    apply after_redirect_trace in Ha as (-> & Hs).
    rewrite !sent_at_app, H1, H2, H3, H4, !Hs. auto.
  - apply follow_redirect_trace in Hf as (-> & _ & H1 & H2 & H3 & H4). auto.
Qed.

Lemma not_found_passes resp k :
  (StatusCode (snd resp) =? 404) = false ->
  not_found resp k = (Next tt, k, []).
Proof. unfold not_found. by intros ->. Qed.

Lemma not_found_page resp k :
  (StatusCode (snd resp) =? 404) = true ->
  not_found resp k
  = (Return tt, k,
     [EvReadAll (fst resp);
      EvErrorPage (NewErrorWithStatusLookup 404 "Page Not Found (From Upstream)");
      EvClose (fst resp)]).
Proof. unfold not_found. by intros ->. Qed.

Lemma size_and_stream_absent cfg resp k :
  Header_Get (rs_Header (snd resp)) "Content-Length" = "" ->
  size_and_stream cfg resp k
  = (Next tt, k,
     [EvSetHeaders (rs_Header (snd resp)); EvStatus (StatusCode (snd resp));
      EvSetBodyStream (fst resp) (BandwidthLimit_Enabled cfg) (-1)]).
Proof. unfold size_and_stream. by intros ->. Qed.

Lemma size_and_stream_unparsable cfg resp k e :
  Header_Get (rs_Header (snd resp)) "Content-Length" <> "" ->
  strconv_Atoi (Header_Get (rs_Header (snd resp)) "Content-Length") = Err e ->
  size_and_stream cfg resp k
  = (Return tt, k,
     [EvSetHeaders (rs_Header (snd resp)); EvStatus (StatusCode (snd resp));
      EvSetBodyStream (fst resp) (BandwidthLimit_Enabled cfg) (-1)]).
Proof.
  unfold size_and_stream. intros Hc Ha.
  rewrite (String_eqb_false _ _ Hc), Ha. reflexivity.
Qed.

Lemma size_and_stream_exceeded cfg resp k bodySize :
  Header_Get (rs_Header (snd resp)) "Content-Length" <> "" ->
  strconv_Atoi (Header_Get (rs_Header (snd resp)) "Content-Length") = Ok bodySize ->
  bodySize > sizelimit_of cfg ->
  size_and_stream cfg resp k
  = (Return tt, k,
     [EvClose (fst resp);
      EvRedirect 301 (url_String (rs_Request_URL (snd resp)))]).
Proof.
  unfold size_and_stream. intros Hc Ha Hgt.
  rewrite (String_eqb_false _ _ Hc), Ha. cbn [negb].
  destruct (Z.gtb_spec bodySize (sizelimit_of cfg)); [reflexivity | lia].
Qed.

Lemma size_and_stream_within cfg resp k bodySize :
  Header_Get (rs_Header (snd resp)) "Content-Length" <> "" ->
  strconv_Atoi (Header_Get (rs_Header (snd resp)) "Content-Length") = Ok bodySize ->
  bodySize <= sizelimit_of cfg ->
  size_and_stream cfg resp k
  = (Return tt, k,
     [EvSetHeaders (rs_Header (snd resp)); EvStatus (StatusCode (snd resp));
      EvSetBodyStream (fst resp) (BandwidthLimit_Enabled cfg) bodySize]).
Proof.
  unfold size_and_stream. intros Hc Ha Hle.
  rewrite (String_eqb_false _ _ Hc), Ha. cbn [negb].
  destruct (Z.gtb_spec bodySize (sizelimit_of cfg)); [lia | reflexivity].
Qed.

(** A response under the ceiling is streamed with its own status. *)
Lemma size_and_stream_status cfg resp k :
  oversized cfg (snd resp) = false ->
  exists o t,
    size_and_stream cfg resp k = (o, k, t)
    /\ client_answers t = [StatusOf (StatusCode (snd resp))]
    /\ streams_body t = true.
Proof.
  unfold oversized, size_and_stream. run.
  destruct (String.eqb _ ""); cbn [negb andb].
  - intros _. eexists _, _. repeat (apply conj); reflexivity.
  - destruct (strconv_Atoi _) as [n|e].
    + intros ->. run. eexists _, _. repeat (apply conj); reflexivity.
    + intros _. run. eexists _, _. repeat (apply conj); reflexivity.
Qed.

Lemma sizelimit_of_product cfg :
  sizelimit_of cfg = wrap_int (Server_SizeLimit cfg * 1024 * 1024).
Proof.
  unfold sizelimit_of, wrap_int.
  replace (((Server_SizeLimit cfg * 1024 + 2 ^ 63) mod 2 ^ 64 - 2 ^ 63) * 1024 + 2 ^ 63)
    with (((Server_SizeLimit cfg * 1024 + 2 ^ 63) mod 2 ^ 64) * 1024
          + (2 ^ 63 - 2 ^ 63 * 1024)) by lia.
  f_equal.
  rewrite Zplus_mod, Zmult_mod, Zmod_mod, <- Zmult_mod, <- Zplus_mod.
  replace ((Server_SizeLimit cfg * 1024 + 2 ^ 63) * 1024 + (2 ^ 63 - 2 ^ 63 * 1024))
    with (Server_SizeLimit cfg * 1024 * 1024 + 2 ^ 63) by lia.
  reflexivity.
Qed.

Lemma sizelimit_of_exact cfg :
  - 2 ^ 43 <= Server_SizeLimit cfg < 2 ^ 43 ->
  sizelimit_of cfg = Server_SizeLimit cfg * 1024 * 1024.
Proof.
  intros Hr. rewrite sizelimit_of_product. unfold wrap_int.
  rewrite Z.mod_small; lia.
Qed.

(** *** Putting the phases together *)

Lemma GhcrRequest_final c u image cfg target k resp k1 t1 o k2 t2 :
  final_response transport c u image target k = (Next resp, k1, t1) ->
  size_and_stream cfg resp k1 = (o, k2, t2) ->
  GhcrRequest transport c u image cfg target k = (o, k2, t1 ++ t2).
Proof. intros Hf Hs. unfold GhcrRequest. by eapply bind_Next. Qed.

Lemma GhcrRequest_after_auth c u image cfg target k resp k1 t1 o k2 t2 :
  authorised_response transport c u image target k = (Next resp, k1, t1) ->
  after_auth transport c cfg resp k1 = (o, k2, t2) ->
  GhcrRequest transport c u image cfg target k = (o, k2, t1 ++ t2).
Proof.
  unfold GhcrRequest, final_response, after_auth, after_redirect.
  unfold mbind, M_bind, bind, mret, M_ret, ret. intros -> Ha. revert Ha.
  destruct (follow_redirect transport c resp k1) as [[[r|[]] k'] t'].
  - destruct (not_found r k') as [[[[]|[]] k''] t''].
    + destruct (size_and_stream cfg r k'') as [[o' k3] t3].
      intros [= <- <- <-]. by rewrite app_nil_r, !app_assoc.
    + intros [= <- <- <-]. by rewrite !app_assoc.
  - intros [= <- <- <-]. reflexivity.
Qed.

Lemma authorised_response_steps c u image target k bodyByte resp0 k0 t0 o k1 t1 :
  send_initial transport c u image target k = (Next (bodyByte, resp0), k0, t0) ->
  auth_retry transport c u image target bodyByte resp0 k0 = (o, k1, t1) ->
  authorised_response transport c u image target k = (o, k1, t0 ++ t1).
Proof.
  intros Hs Ha. unfold authorised_response.
  eapply bind_Next; [exact Hs | exact Ha].
Qed.

Lemma final_response_trace c u image target k o k' t :
  final_response transport c u image target k = (o, k', t) ->
  streams_body t = false.
Proof.
  unfold final_response. intros Hrun.
  apply bind_inv in Hrun
    as [(r & k1 & t1 & t2 & Ha & Hrest & ->) | ([] & Ha & ->)];
    [|by apply authorised_response_trace in Ha as [_ ?]].
  apply authorised_response_trace in Ha as [_ Ha]. rewrite streams_body_app, Ha.
  apply bind_inv in Hrest
    as [(r' & k2 & t3 & t4 & Hf & Hrest & ->) | ([] & Hf & ->)].
  - apply follow_redirect_trace in Hf as (_ & Hf & _).
    rewrite streams_body_app, Hf.
    revert Hrest. unfold not_found. run. repeat step.
    all: by intros [= <- <- <-].
  - apply follow_redirect_trace in Hf as (_ & Hf & _). by rewrite Hf.
Qed.

Lemma bind_head {R A B} (m : M R A) (f : A -> M R B) k e :
  (exists o k1 t1, m k = (o, k1, e :: t1)) ->
  exists o k2 t, (m ≫= f) k = (o, k2, e :: t).
Proof.
  intros (o & k1 & t1 & Hm). unfold mbind, M_bind, bind. rewrite Hm.
  destruct o as [a|r]; [|eauto].
  destruct (f a k1) as [[o' k2] t2]. cbn [app]. eauto.
Qed.

(** *** The claims about the engine *)

(** C5: with a token cached for the image, the initial request carries
    [Authorization: Bearer <token>] and the buffered body bytes, which are
    also the body of a request resent later; when its response has status
    200, nothing is sent to the discovery or token endpoint and nothing is
    resent while the request is handled. *)
Theorem cached_token_no_challenge c u img cfg target k token bodyByte :
  k !! Image img = Some token ->
  cl_ReqBodyFull c = Ok bodyByte ->
  Build_error (unsent_request c u bodyByte) = None ->
  let req := initial_request c u target bodyByte (Some token) in
  Header_Get (rq_Header req) "Authorization" = "Bearer " +:+ token
  /\ rq_Body req = Some bodyByte
  /\ (forall fresh, rq_Body (retry_request c u target bodyByte fresh) = Some bodyByte)
  /\ (exists o k' t,
        GhcrRequest transport c u (Some img) cfg target k = (o, k', EvDo Initial req :: t))
  /\ (forall r, transport Initial req = Ok r -> StatusCode r = 200 ->
        exists o t,
          GhcrRequest transport c u (Some img) cfg target k
          = (o, k, EvDo Initial req :: t)
          /\ sent_at Challenge t = [] /\ sent_at TokenEndpoint t = []
          /\ sent_at Retry t = []).
Proof.
  intros Hk Hb Hbuild req.
  assert (Hreq : initial_request c u target bodyByte (cached_token k (Some img)) = req).
  { unfold cached_token. by rewrite Hk. }
  split; [|split; [|split; [|split]]].
  - unfold req, initial_request, Header_Get, Header_Set. cbn [rq_with_header rq_Header].
    by rewrite lookup_insert_eq.
  - reflexivity.
  - reflexivity.
  - unfold GhcrRequest, final_response, authorised_response.
    do 3 apply bind_head.
    destruct (transport Initial req) as [r|e] eqn:Hdo.
    + rewrite <- Hreq in Hdo.
      rewrite (send_initial_sent c u (Some img) target k bodyByte r Hb Hbuild Hdo).
      rewrite Hreq. eauto.
    + rewrite <- Hreq in Hdo.
      rewrite (send_initial_failed c u (Some img) target k bodyByte e Hb Hbuild Hdo).
      rewrite Hreq. eauto.
  - intros r Hdo Hst. rewrite <- Hreq in Hdo.
    pose proof (send_initial_sent c u (Some img) target k bodyByte r Hb Hbuild Hdo) as Hs.
    assert (Hok : auth_failed r = false) by (unfold auth_failed; by rewrite Hst).
    pose proof (auth_retry_skipped c u (Some img) target bodyByte (Initial, r) k
                  (or_introl Hok)) as Ha.
    pose proof (authorised_response_steps _ _ _ _ _ _ _ _ _ _ _ _ Hs Ha) as Hauth.
    destruct (after_auth transport c cfg (Initial, r) k) as [[o k2] t2] eqn:Hafter.
    pose proof (GhcrRequest_after_auth _ _ _ cfg _ _ _ _ _ _ _ _ Hauth Hafter) as Hrun.
    apply after_auth_trace in Hafter as (-> & _ & Hr & Hc & Ht).
    rewrite Hreq in Hrun. exists o, t2. auto.
Qed.

(** The client is answered with the status of the response the redirect
    step is given, when that response is no redirect and not over the
    ceiling. *)
Lemma after_auth_status c cfg resp k :
  is_redirect (snd resp) = false ->
  oversized cfg (snd resp) = false ->
  exists o t,
    after_auth transport c cfg resp k = (o, k, t)
    /\ client_answers t = [StatusOf (StatusCode (snd resp))].
Proof.
  intros Hr Ho. unfold after_auth, after_redirect.
  pose proof (follow_redirect_skipped c resp k Hr) as Hf.
  destruct (StatusCode (snd resp) =? 404) eqn:H404.
  - eexists _, _. split.
    + eapply bind_Next; [exact Hf|].
      eapply bind_Return. by apply not_found_page.
    + apply Z.eqb_eq in H404. rewrite H404. reflexivity.
  - destruct (size_and_stream_status cfg resp k Ho) as (o & t & Hs & Hans & _).
    exists o, t. split; [|exact Hans].
    eapply (bind_Next _ _ _ _ _ [] _ _ t); [exact Hf|].
    eapply (bind_Next _ _ _ _ _ [] _ _ t); [by apply not_found_passes | exact Hs].
Qed.

(** C1 as the code has it: the retry step does nothing unless the initial
    response is a 401 or 404 and the path is not [/v2/]; when it runs and
    the challenge yields a token, the stale body is closed, the token is
    cached under the image, the request is resent once with the fresh
    [Authorization] header and, whatever its status, the retried response
    is the one the engine goes on with, so that the client is answered
    with its status when it is neither a 302 or 307 nor over the size
    ceiling; when the challenge yields no token the original response is
    kept. *)
Theorem auth_retry_once c u img cfg target k bodyByte r0 :
  cl_ReqBodyFull c = Ok bodyByte ->
  Build_error (unsent_request c u bodyByte) = None ->
  let req0 := initial_request c u target bodyByte (cached_token k (Some img)) in
  transport Initial req0 = Ok r0 ->
  (auth_failed r0 = false \/ cl_RequestURIPath c = "/v2/" ->
     authorised_response transport c u (Some img) target k
     = (Next (Initial, r0), k, [EvDo Initial req0]))
  /\ (auth_failed r0 = true -> cl_RequestURIPath c <> "/v2/" ->
      forall token tc,
        ChallengeReq transport target img k = (Return token, k, tc) ->
        (token = "" ->
           authorised_response transport c u (Some img) target k
           = (Next (Initial, r0), k, [EvDo Initial req0] ++ tc))
        /\ (token <> "" ->
            forall resp_retry,
              let req_retry := retry_request c u target bodyByte token in
              transport Retry req_retry = Ok resp_retry ->
              Header_Get (rq_Header req_retry) "Authorization" = "Bearer " +:+ token
              /\ authorised_response transport c u (Some img) target k
                 = (Next (Retry, resp_retry), <[Image img := token]> k,
                    [EvDo Initial req0] ++ tc ++ [EvClose Initial; EvDo Retry req_retry])
              /\ exists o t,
                   GhcrRequest transport c u (Some img) cfg target k
                   = (o, <[Image img := token]> k, t)
                   /\ sent_at Initial t = [req0]
                   /\ sent_at Retry t = [req_retry]
                   /\ (is_redirect resp_retry = false ->
                       oversized cfg resp_retry = false ->
                       client_answers t = [StatusOf (StatusCode resp_retry)]))).
Proof.
  intros Hb Hbuild req0 Hdo.
  pose proof (send_initial_sent c u (Some img) target k bodyByte r0 Hb Hbuild Hdo) as Hs.
  fold req0 in Hs.
  split.
  - intros Hskip.
    pose proof (auth_retry_skipped c u (Some img) target bodyByte (Initial, r0) k Hskip) as Ha.
    exact (authorised_response_steps _ _ _ _ _ _ _ _ _ _ _ _ Hs Ha).
  - intros Hfail Hpath token tc Hc. split.
    + intros ->.
      pose proof (auth_retry_no_token c u img target bodyByte (Initial, r0) k tc
                    Hfail Hpath Hc) as Ha.
      exact (authorised_response_steps _ _ _ _ _ _ _ _ _ _ _ _ Hs Ha).
    + intros Htok resp_retry req_retry Hretry.
      pose proof (auth_retry_fires c u img target bodyByte r0 k token tc resp_retry
                    Hfail Hpath Hc Htok Hbuild Hretry) as Ha.
      pose proof (authorised_response_steps _ _ _ _ _ _ _ _ _ _ _ _ Hs Ha) as Hauth.
      fold req_retry in Hauth.
      split; [|split; [exact Hauth|]].
      { unfold req_retry, retry_request, Header_Get, Header_Set.
        cbn [rq_with_header rq_Header]. by rewrite lookup_insert_eq. }
      destruct (ChallengeReq_run transport target img k)
        as (token' & tc' & Hrun & Hci & Hcr & _ & _ & Hans).
      rewrite Hc in Hrun. injection Hrun as <- <-.
      destruct (after_auth transport c cfg (Retry, resp_retry) (<[Image img := token]> k))
        as [[o k2] t2] eqn:Hafter.
      pose proof (GhcrRequest_after_auth _ _ _ cfg _ _ _ _ _ _ _ _ Hauth Hafter) as Hrun.
      pose proof Hafter as Htrace.
      apply after_auth_trace in Htrace as (-> & Hi & Hr & _ & _).
      eexists _, _. split; [exact Hrun|].
      rewrite !sent_at_app, Hci, Hcr, Hi, Hr.
      split; [reflexivity|]. split; [reflexivity|].
      intros Hnr Hno.
      destruct (after_auth_status c cfg (Retry, resp_retry) (<[Image img := token]> k)
                  Hnr Hno) as (o' & t' & Hrun' & Hans').
      rewrite Hafter in Hrun'. injection Hrun' as <- <-.
      rewrite !client_answers_app, (Hans Htok), Hans'. reflexivity.
Qed.

(** C2: the redirect step does nothing unless the response it is given,
    retried or not, is a 302 or 307; a missing [Location] ends the request
    with an error; otherwise the old body is closed and one [GET] without
    a body, carrying the client's [User-Agent] and nothing else, goes to
    the location, resolved against the URL of the response's request when
    it is relative; its response is the one the engine goes on with, and
    nothing is sent after it, whatever its status. *)
Theorem redirect_followed_once c cfg resp k :
  (is_redirect (snd resp) = false ->
     follow_redirect transport c resp k = (Next resp, k, []))
  /\ (is_redirect (snd resp) = true ->
      Header_Get (rs_Header (snd resp)) "Location" = "" ->
      follow_redirect transport c resp k
      = (Return tt, k,
         [EvClose (fst resp);
          EvHandleError "Redirect response missing Location header"]))
  /\ (forall parsed rr,
        is_redirect (snd resp) = true ->
        Header_Get (rs_Header (snd resp)) "Location" <> "" ->
        url_Parse (Header_Get (rs_Header (snd resp)) "Location") = Ok parsed ->
        let location :=
          url_String (if url_IsAbs parsed then parsed
                      else url_ResolveReference (rs_Request_URL (snd resp)) parsed) in
        let redirectReq :=
          {| rq_Method := "GET"; rq_URL := location; rq_Query := [];
             rq_Header := {[ "User-Agent" := [cl_UserAgent c] ]};
             rq_Body := None |} in
        NewRequest_error "GET" location = None ->
        transport Redirect redirectReq = Ok rr ->
        follow_redirect transport c resp k
        = (Next (Redirect, rr), k, [EvClose (fst resp); EvDo Redirect redirectReq])
        /\ (exists o t,
              after_redirect cfg (Redirect, rr) k = (o, k, t)
              /\ (forall s, sent_at s t = [])
              /\ after_auth transport c cfg resp k
                 = (o, k, [EvClose (fst resp); EvDo Redirect redirectReq] ++ t))
        /\ (forall u image target k0 t0,
              authorised_response transport c u image target k0 = (Next resp, k, t0) ->
              exists o t,
                GhcrRequest transport c u image cfg target k0 = (o, k, t)
                /\ sent_at Redirect t = [redirectReq])).
Proof.
  split; [apply follow_redirect_skipped|].
  split; [apply follow_redirect_no_location|].
  intros parsed rr Hr Hl Hp location redirectReq Hn Hdo.
  assert (Hloc : url_String (redirect_target (snd resp) parsed) = location).
  { unfold redirect_target, location. by destruct (url_IsAbs parsed). }
  assert (Hreq : redirect_request c location = redirectReq).
  { unfold redirect_request, redirectReq, Header_Set. by rewrite insert_empty. }
  rewrite <- Hloc in Hn. rewrite <- Hreq, <- Hloc in Hdo.
  pose proof (follow_redirect_follows c resp k parsed rr Hr Hl Hp Hn Hdo) as Hf.
  rewrite Hloc, Hreq in Hf.
  destruct (after_redirect cfg (Redirect, rr) k) as [[o k2] t] eqn:Hafter.
  pose proof Hafter as Htrace. apply after_redirect_trace in Htrace as [-> Hsent].
  assert (Hauth : after_auth transport c cfg resp k
                  = (o, k, [EvClose (fst resp); EvDo Redirect redirectReq] ++ t)).
  { unfold after_auth. eapply bind_Next; [exact Hf | exact Hafter]. }
  split; [exact Hf|]. split; [eauto|].
  intros u image target k0 t0 H0.
  pose proof (GhcrRequest_after_auth _ _ _ cfg _ _ _ _ _ _ _ _ H0 Hauth) as Hrun.
  apply authorised_response_trace in H0 as [H0 _].
  eexists _, _. split; [exact Hrun|].
  rewrite !sent_at_app, H0, Hsent. reflexivity.
Qed.

(** C3: for the response the engine is left with, a [Content-Length] that
    does not parse is streamed with length -1 and no ceiling applies; one
    that parses above [SizeLimit * 1024 * 1024] closes the body and
    answers 301 to the final URL of the upstream response, and no body is
    handed to the client. *)
Theorem size_ceiling_enforced c u image cfg target k resp k1 t1 :
  final_response transport c u image target k = (Next resp, k1, t1) ->
  let contentLength := Header_Get (rs_Header (snd resp)) "Content-Length" in
  sizelimit_of cfg = wrap_int (Server_SizeLimit cfg * 1024 * 1024)
  /\ (- 2 ^ 43 <= Server_SizeLimit cfg < 2 ^ 43 ->
      sizelimit_of cfg = Server_SizeLimit cfg * 1024 * 1024)
  /\ (forall e,
        contentLength <> "" -> strconv_Atoi contentLength = Err e ->
        GhcrRequest transport c u image cfg target k
        = (Return tt, k1,
           t1 ++ [EvSetHeaders (rs_Header (snd resp));
                  EvStatus (StatusCode (snd resp));
                  EvSetBodyStream (fst resp) (BandwidthLimit_Enabled cfg) (-1)]))
  /\ (forall bodySize,
        contentLength <> "" -> strconv_Atoi contentLength = Ok bodySize ->
        bodySize > sizelimit_of cfg ->
        let t := t1 ++ [EvClose (fst resp);
                        EvRedirect 301 (url_String (rs_Request_URL (snd resp)))] in
        GhcrRequest transport c u image cfg target k = (Return tt, k1, t)
        /\ streams_body t = false)
  /\ (forall bodySize,
        contentLength <> "" -> strconv_Atoi contentLength = Ok bodySize ->
        bodySize <= sizelimit_of cfg ->
        GhcrRequest transport c u image cfg target k
        = (Return tt, k1,
           t1 ++ [EvSetHeaders (rs_Header (snd resp));
                  EvStatus (StatusCode (snd resp));
                  EvSetBodyStream (fst resp) (BandwidthLimit_Enabled cfg) bodySize])).
Proof.
  intros Hf contentLength.
  split; [apply sizelimit_of_product|].
  split; [apply sizelimit_of_exact|].
  split; [|split].
  - intros e Hc Ha. eapply GhcrRequest_final; [exact Hf|].
    by eapply size_and_stream_unparsable.
  - intros bodySize Hc Ha Hgt t. split.
    + eapply GhcrRequest_final; [exact Hf|].
      by eapply size_and_stream_exceeded.
    + unfold t. rewrite streams_body_app.
      by rewrite (final_response_trace _ _ _ _ _ _ _ _ Hf).
  - intros bodySize Hc Ha Hle. eapply GhcrRequest_final; [exact Hf|].
    by eapply size_and_stream_within.
Qed.

(** C10: a final response without a [Content-Length] header is streamed
    with length -1 whatever its body and whatever the ceiling; the 301 of
    the ceiling is only ever answered to a response whose [Content-Length]
    parses to an integer above it. *)
Theorem no_content_length_no_ceiling c u image cfg target k resp k1 t1 :
  final_response transport c u image target k = (Next resp, k1, t1) ->
  let contentLength := Header_Get (rs_Header (snd resp)) "Content-Length" in
  (contentLength = "" ->
     GhcrRequest transport c u image cfg target k
     = (Next tt, k1,
        t1 ++ [EvSetHeaders (rs_Header (snd resp));
               EvStatus (StatusCode (snd resp));
               EvSetBodyStream (fst resp) (BandwidthLimit_Enabled cfg) (-1)]))
  /\ (exists o t2,
        GhcrRequest transport c u image cfg target k = (o, k1, t1 ++ t2)
        /\ forall code url,
             In (EvRedirect code url) t2 ->
             contentLength <> ""
             /\ exists bodySize,
                  strconv_Atoi contentLength = Ok bodySize
                  /\ bodySize > sizelimit_of cfg).
Proof.
  intros Hf contentLength. split.
  - intros Hc. eapply GhcrRequest_final; [exact Hf|].
    by apply size_and_stream_absent.
  - destruct (String.eqb_spec contentLength "") as [Hc|Hc].
    + eexists _, _. split.
      * eapply GhcrRequest_final; [exact Hf|]. by apply size_and_stream_absent.
      * intros code url [E|[E|[E|[]]]]; discriminate E.
    + destruct (strconv_Atoi contentLength) as [bodySize|e] eqn:Ha.
      * destruct (Z_gt_le_dec bodySize (sizelimit_of cfg)) as [Hgt|Hle].
        -- eexists _, _. split.
           ++ eapply GhcrRequest_final; [exact Hf|].
              by eapply size_and_stream_exceeded.
           ++ intros _ _ _. eauto.
        -- eexists _, _. split.
           ++ eapply GhcrRequest_final; [exact Hf|].
              by eapply size_and_stream_within.
           ++ intros code url [E|[E|[E|[]]]]; discriminate E.
      * eexists _, _. split.
        -- eapply GhcrRequest_final; [exact Hf|].
           by eapply size_and_stream_unparsable.
        -- intros code url [E|[E|[E|[]]]]; discriminate E.
Qed.

End EngineFacts.

(** ** The claims on concrete requests *)

Section Scenarios.

Import Sample.

Lemma ChallengeReq_contract_witness :
  exists t,
    ChallengeReq (upstream ok_small) "ghcr.io" img ∅ = (Return "tok123", ∅, t)
    /\ open_bodies (upstream ok_small) t [] = []
    /\ t = challenge_trace.
Proof.
  destruct (ChallengeReq_contract (upstream ok_small) "ghcr.io" img ∅)
    as (token & t & Hrun & Hclosed & Hok & _).
  assert (Hh : handshake (upstream ok_small) "ghcr.io" img
                 (unauthorized "https://ghcr.io/v2/") bearer
                 (response 200 ∅ "https://ghcr.io/token" token_body)
                 token_body {| Token := "tok123" |}).
  { repeat (apply conj); reflexivity. }
  destruct (Hok _ _ _ _ _ Hh) as [-> ->].
  exists challenge_trace. repeat (apply conj); [exact Hrun | exact Hclosed | reflexivity].
Defined.

Lemma auth_retry_once_witness :
  exists o t,
    GhcrRequest (upstream ok_small) client u (Some img) (cfg 10) "ghcr.io" ∅
    = (o, <["alice/app" := "tok123"]> ∅, t)
    /\ sent_at Retry t = [retry_request client u "ghcr.io" "" "tok123"]
    /\ client_answers t = [StatusOf 200].
Proof.
  destruct (auth_retry_once (upstream ok_small) client u img (cfg 10) "ghcr.io" ∅ ""
              (unauthorized u) eq_refl eq_refl eq_refl) as [_ Hfire].
  destruct (Hfire eq_refl ltac:(discriminate) "tok123" challenge_trace eq_refl)
    as [_ Htoken].
  destruct (Htoken ltac:(discriminate) ok_small eq_refl)
    as (_ & _ & o & t & Hrun & _ & Hretry & Hstatus).
  exists o, t. repeat (apply conj);
    [exact Hrun | exact Hretry | apply Hstatus; reflexivity].
Defined.

(** C1, as stated, fails when the retried response is a redirect: the
    redirect is followed and the client is answered with the status of its
    target, 200, not with the 302 of the retried response; and when the
    retried response is over the ceiling, the client is answered 301, not
    with its 200. *)
Lemma retried_status_not_observed :
  let before :=
    [EvDo Initial (initial_request client u "ghcr.io" "" None)]
    ++ challenge_trace
    ++ [EvClose Initial; EvDo Retry (retry_request client u "ghcr.io" "" "tok123")] in
  let followed :=
    before ++ [EvClose Retry;
               EvDo Redirect (redirect_request client "https://ghcr.io/blobs/abc");
               EvSetHeaders {[ "Content-Length" := ["5"] ]}; EvStatus 200;
               EvSetBodyStream Redirect false 5] in
  let offloaded := before ++ [EvClose Retry; EvRedirect 301 u] in
  (StatusCode moved = 302
   /\ GhcrRequest (upstream moved) client u (Some img) (cfg 10) "ghcr.io" ∅
      = (Return tt, {[ "alice/app" := "tok123" ]}, followed)
   /\ client_answers followed = [StatusOf 200])
  /\ (StatusCode ok_large = 200
      /\ GhcrRequest (upstream ok_large) client u (Some img) (cfg 10) "ghcr.io" ∅
         = (Return tt, {[ "alice/app" := "tok123" ]}, offloaded)
      /\ client_answers offloaded = [StatusOf 301]).
Proof. repeat (apply conj); reflexivity. Qed.

Lemma cached_token_no_challenge_witness :
  exists o t,
    GhcrRequest (direct ok_small) client u (Some img) (cfg 10) "ghcr.io" warm
    = (o, warm,
       EvDo Initial (initial_request client u "ghcr.io" "" (Some "cached")) :: t)
    /\ sent_at Challenge t = [] /\ sent_at TokenEndpoint t = [].
Proof.
  destruct (cached_token_no_challenge (direct ok_small) client u img (cfg 10) "ghcr.io"
              warm "cached" "" eq_refl eq_refl eq_refl)
    as (_ & _ & _ & _ & Hquiet).
  destruct (Hquiet ok_small eq_refl eq_refl) as (o & t & Hrun & Hc & Ht & _).
  exists o, t. auto.
Defined.

Lemma redirect_followed_once_witness :
  let redirectReq :=
    {| rq_Method := "GET"; rq_URL := "https://ghcr.io/blobs/abc"; rq_Query := [];
       rq_Header := {[ "User-Agent" := ["docker/27.0"] ]}; rq_Body := None |} in
  follow_redirect (direct moved) client (Initial, moved) ∅
  = (Next (Redirect, response 200 {[ "Content-Length" := ["5"] ]}
                       "https://ghcr.io/blobs/abc" "hello"), ∅,
     [EvClose Initial; EvDo Redirect redirectReq])
  /\ exists o t,
       GhcrRequest (direct moved) client u (Some img) (cfg 10) "ghcr.io" ∅ = (o, ∅, t)
       /\ sent_at Redirect t = [redirectReq].
Proof.
  intros redirectReq.
  destruct (redirect_followed_once (direct moved) client (cfg 10) (Initial, moved) ∅)
    as (_ & _ & Hfollow).
  destruct (Hfollow "/blobs/abc"
              (response 200 {[ "Content-Length" := ["5"] ]}
                 "https://ghcr.io/blobs/abc" "hello")
              eq_refl ltac:(discriminate) eq_refl eq_refl eq_refl)
    as (Hstep & _ & Hengine).
  split; [exact Hstep|].
  apply (Hengine u (Some img) "ghcr.io" ∅
           [EvDo Initial (initial_request client u "ghcr.io" "" None)]).
  reflexivity.
Defined.

Lemma size_ceiling_enforced_witness :
  let sent := EvDo Initial (initial_request client u "ghcr.io" "" None) in
  (GhcrRequest (direct ok_large) client u (Some img) (cfg 10) "ghcr.io" ∅
   = (Return tt, ∅, [sent; EvClose Initial; EvRedirect 301 u])
   /\ streams_body [sent; EvClose Initial; EvRedirect 301 u] = false)
  /\ GhcrRequest (direct ok_odd_length) client u (Some img) (cfg 10) "ghcr.io" ∅
     = (Return tt, ∅,
        [sent; EvSetHeaders {[ "Content-Length" := ["5 bytes"] ]}; EvStatus 200;
         EvSetBodyStream Initial false (-1)]).
Proof.
  intros sent. split.
  - assert (Hf : final_response (direct ok_large) client u (Some img) "ghcr.io" ∅
                 = (Next (Initial, ok_large), ∅, [sent]))
      by reflexivity.
    destruct (size_ceiling_enforced (direct ok_large) client u (Some img) (cfg 10)
                "ghcr.io" ∅ (Initial, ok_large) ∅ _ Hf)
      as (_ & _ & _ & Hover & _).
    apply (Hover 20971520); [discriminate | reflexivity | reflexivity].
  - assert (Hf : final_response (direct ok_odd_length) client u (Some img) "ghcr.io" ∅
                 = (Next (Initial, ok_odd_length), ∅, [sent]))
      by reflexivity.
    destruct (size_ceiling_enforced (direct ok_odd_length) client u (Some img) (cfg 10)
                "ghcr.io" ∅ (Initial, ok_odd_length) ∅ _ Hf)
      as (_ & _ & Hodd & _).
    apply (Hodd "invalid syntax"); [discriminate | reflexivity].
Defined.

Lemma no_content_length_no_ceiling_witness :
  GhcrRequest (direct ok_chunked) client u (Some img) (cfg 0) "ghcr.io" ∅
  = (Next tt, ∅,
     [EvDo Initial (initial_request client u "ghcr.io" "" None);
      EvSetHeaders ∅; EvStatus 200; EvSetBodyStream Initial false (-1)]).
Proof.
  assert (Hf : final_response (direct ok_chunked) client u (Some img) "ghcr.io" ∅
               = (Next (Initial, ok_chunked), ∅,
                  [EvDo Initial (initial_request client u "ghcr.io" "" None)]))
    by reflexivity.
  destruct (no_content_length_no_ceiling (direct ok_chunked) client u (Some img) (cfg 0)
              "ghcr.io" ∅ (Initial, ok_chunked) ∅ _ Hf)
    as (Habsent & _).
  exact (Habsent eq_refl).
Defined.

End Scenarios.

(** ** More about the matcher *)

Section MatcherMore.

Lemma HasPrefix_inv s p : HasPrefix s p = true -> s = p +:+ from s (len p).
Proof.
  unfold HasPrefix, from, len. rewrite Nat2Z.id. revert s.
  induction p as [|a p IH]; intros s Hp; [reflexivity|].
  destruct s as [|b s]; [discriminate|]. cbn [String.prefix] in Hp.
  destruct (ascii_dec a b) as [->|]; [|discriminate].
  change (String b s = String b (p +:+ drop (String.length p) s)).
  by rewrite <- (IH s Hp).
Qed.

Lemma HasPrefix_len s p : HasPrefix s p = true -> len p <= len s.
Proof.
  intros Hp. rewrite (HasPrefix_inv s p Hp), len_app.
  pose proof (len_nonneg (from s (len p))). lia.
Qed.

(** No path is under two of the five prefixes. *)
Lemma prefixes_exclusive s :
  (HasPrefix s githubPrefix = true ->
     HasPrefix s rawPrefix = false /\ HasPrefix s gistPrefix = false
     /\ HasPrefix s gistContentPrefix = false /\ HasPrefix s apiPrefix = false)
  /\ (HasPrefix s rawPrefix = true ->
     HasPrefix s githubPrefix = false /\ HasPrefix s gistPrefix = false
     /\ HasPrefix s gistContentPrefix = false /\ HasPrefix s apiPrefix = false)
  /\ (HasPrefix s gistPrefix = true ->
     HasPrefix s githubPrefix = false /\ HasPrefix s rawPrefix = false
     /\ HasPrefix s gistContentPrefix = false /\ HasPrefix s apiPrefix = false)
  /\ (HasPrefix s gistContentPrefix = true ->
     HasPrefix s githubPrefix = false /\ HasPrefix s rawPrefix = false
     /\ HasPrefix s gistPrefix = false /\ HasPrefix s apiPrefix = false)
  /\ (HasPrefix s apiPrefix = true ->
     HasPrefix s githubPrefix = false /\ HasPrefix s rawPrefix = false
     /\ HasPrefix s gistPrefix = false /\ HasPrefix s gistContentPrefix = false).
Proof.
  repeat apply conj; intros Hp; apply HasPrefix_inv in Hp; rewrite Hp;
    repeat apply conj; vm_compute; reflexivity.
Qed.

Lemma prefixed_long_enough s p :
  In p [githubPrefix; rawPrefix; gistPrefix; gistContentPrefix; apiPrefix] ->
  HasPrefix s p = true -> (len s <? 18) = false.
Proof.
  intros Hin Hp. apply HasPrefix_len in Hp. apply Z.ltb_ge.
  assert (18 <= len p); [|lia].
  cbn [In] in Hin.
  destruct Hin as [<-|[<-|[<-|[<-|[<-|[]]]]]]; vm_compute; discriminate.
Qed.

(** None of the four branches with mandatory segments answers 404 or 403,
    and the api.github.com branch answers nothing but 403. *)
Lemma branch_error_status rawPath cfg user repo matcher e :
  (match_github rawPath = (user, repo, matcher, Some e) -> ErrStatusCode e = 400)
  /\ (match_raw rawPath = (user, repo, matcher, Some e) -> ErrStatusCode e = 400)
  /\ (forall n, match_gist rawPath n = (user, repo, matcher, Some e) ->
              ErrStatusCode e = 400)
  /\ (match_api rawPath cfg = (user, repo, matcher, Some e) ->
      ErrStatusCode e = 403 /\ api_denied cfg = true).
Proof.
  unfold match_github, match_raw, match_gist, match_api, github_action, fail,
    api_denied.
  repeat apply conj; intros; repeat case_match; simplify_eq; auto.
Qed.

(** The matcher answers 404 exactly for the paths under none of its five
    prefixes: the length check of line 39 never turns away a path that one
    of the branches would have taken. *)
Theorem Matcher_not_found_iff rawPath cfg :
  (exists user repo matcher e,
      Matcher rawPath cfg = (user, repo, matcher, Some e) /\ ErrStatusCode e = 404)
  <-> (HasPrefix rawPath githubPrefix = false /\ HasPrefix rawPath rawPrefix = false
       /\ HasPrefix rawPath gistPrefix = false
       /\ HasPrefix rawPath gistContentPrefix = false
       /\ HasPrefix rawPath apiPrefix = false).
Proof.
  split.
  - intros (user & repo & matcher & e & Hm & He). revert Hm. unfold Matcher.
    destruct (len rawPath <? 18) eqn:Hshort.
    { intros _.
      repeat apply conj;
        match goal with
        | |- HasPrefix _ ?p = false =>
            destruct (HasPrefix rawPath p) eqn:Hp; [|reflexivity];
            apply (prefixed_long_enough rawPath p) in Hp;
            [congruence | cbn [In]; tauto]
        end. }
    destruct (branch_error_status rawPath cfg user repo matcher e)
      as (Hg & Hr & Hgi & Ha).
    destruct (HasPrefix rawPath githubPrefix); [intros Hm; apply Hg in Hm; lia|].
    destruct (HasPrefix rawPath rawPrefix); [intros Hm; apply Hr in Hm; lia|].
    destruct (HasPrefix rawPath gistPrefix); [intros Hm; apply Hgi in Hm; lia|].
    destruct (HasPrefix rawPath gistContentPrefix);
      [intros Hm; apply Hgi in Hm; lia|].
    destruct (HasPrefix rawPath apiPrefix);
      [intros Hm; apply Ha in Hm as [Hm _]; lia|].
    auto.
  - intros (Hg & Hr & Hgi & Hgc & Ha). unfold Matcher.
    rewrite Hg, Hr, Hgi, Hgc, Ha.
    destruct (len rawPath <? 18); unfold fail; eauto 10.
Qed.

(** Under the api.github.com prefix the matcher either refuses with 403,
    when the configuration does not allow the API, or succeeds with the
    kind [api]: it never answers 400 or 404 there, whatever follows the
    prefix. *)
Theorem Matcher_api_gate rawPath cfg :
  HasPrefix rawPath apiPrefix = true ->
  (api_denied cfg = true ->
     Matcher rawPath cfg
     = ("", "", "", Some (NewErrorWithStatusLookup 403
          "API proxy requires header authentication")))
  /\ (api_denied cfg = false ->
      exists user repo, Matcher rawPath cfg = (user, repo, "api", None)).
Proof.
  intros Ha.
  destruct (prefixes_exclusive rawPath) as (_ & _ & _ & _ & Hex).
  destruct (Hex Ha) as (Hg & Hr & Hgi & Hgc).
  unfold Matcher.
  rewrite (prefixed_long_enough rawPath apiPrefix) by (cbn [In]; tauto).
  rewrite Hg, Hr, Hgi, Hgc, Ha. unfold match_api. fold (api_denied cfg).
  split; intros ->; [reflexivity|].
  destruct (if HasPrefix _ "repos/" then _ else _) as [user repo]. eauto.
Qed.

Lemma Matcher_api_gate_witness :
  Matcher "https://api.github.com/repos/alice/app/tags" (Sample.cfg 10)
  = ("", "", "", Some (NewErrorWithStatusLookup 403
       "API proxy requires header authentication")).
Proof.
  destruct (Matcher_api_gate "https://api.github.com/repos/alice/app/tags"
              (Sample.cfg 10) eq_refl) as [Hdenied _].
  exact (Hdenied eq_refl).
Defined.

Lemma SplitN_two seg tail :
  ContainsByte seg slash = false ->
  tail = "" \/ (exists rest, tail = "/" +:+ rest) ->
  exists more, SplitN (seg +:+ tail) slash 2 = seg :: more.
Proof.
  intros Hs [-> | [rest ->]]; cbn [SplitN].
  - rewrite append_empty, IndexByte_absent by assumption. cbn. eauto.
  - rewrite IndexByte_slash by assumption.
    destruct (Z.ltb_spec (len seg) 0) as [Hl|_];
      [pose proof (len_nonneg seg); lia|].
    rewrite upto_slash. eauto.
Qed.

Lemma SplitN_three seg1 seg2 tail :
  ContainsByte seg1 slash = false ->
  ContainsByte seg2 slash = false ->
  tail = "" \/ (exists rest, tail = "/" +:+ rest) ->
  exists more, SplitN (seg1 +:+ "/" +:+ seg2 +:+ tail) slash 3 = seg1 :: seg2 :: more.
Proof.
  intros H1 H2 Ht. cbn [SplitN].
  rewrite IndexByte_slash by assumption.
  destruct (Z.ltb_spec (len seg1) 0) as [Hl|_];
    [pose proof (len_nonneg seg1); lia|].
  rewrite upto_slash, from_slash.
  destruct (SplitN_two seg2 tail H2 Ht) as [more Hm].
  cbn [SplitN] in Hm. rewrite Hm. eauto.
Qed.

Lemma Matcher_api_branch rest cfg :
  api_denied cfg = false ->
  Matcher (apiPrefix +:+ rest) cfg
  = (let '(user, repo) :=
       if HasPrefix rest "repos/" then
         match SplitN (from rest 6) slash 3 with
         | p0 :: p1 :: _ => (p0, p1)
         | _ => ("", "")
         end
       else if HasPrefix rest "users/" then
         match SplitN (from rest 6) slash 2 with
         | p0 :: _ => (p0, "")
         | _ => ("", "")
         end
       else ("", "") in
     (user, repo, "api", None)).
Proof.
  intros Hd. unfold Matcher.
  rewrite long_enough by (vm_compute; discriminate).
  replace (HasPrefix (apiPrefix +:+ rest) githubPrefix) with false
    by (vm_compute; reflexivity).
  replace (HasPrefix (apiPrefix +:+ rest) rawPrefix) with false
    by (vm_compute; reflexivity).
  replace (HasPrefix (apiPrefix +:+ rest) gistPrefix) with false
    by (vm_compute; reflexivity).
  replace (HasPrefix (apiPrefix +:+ rest) gistContentPrefix) with false
    by (vm_compute; reflexivity).
  rewrite HasPrefix_app. unfold match_api. fold (api_denied cfg). rewrite Hd.
  unfold apiPrefixLen. rewrite from_app. reflexivity.
Qed.

(** With the API allowed, [repos/<owner>/<repo>] gives both fields and
    [users/<owner>] the owner, with or without anything after them; a
    [repos/] path with a single segment gives neither, and so does every
    other API path.  Every one of them succeeds. *)
Theorem Matcher_api_fields owner repo tail other cfg :
  api_denied cfg = false ->
  ContainsByte owner slash = false ->
  ContainsByte repo slash = false ->
  tail = "" \/ (exists rest, tail = "/" +:+ rest) ->
  HasPrefix other "repos/" = false -> HasPrefix other "users/" = false ->
  Matcher (apiPrefix +:+ "repos/" +:+ owner +:+ "/" +:+ repo +:+ tail) cfg
  = (owner, repo, "api", None)
  /\ Matcher (apiPrefix +:+ "repos/" +:+ owner) cfg = ("", "", "api", None)
  /\ Matcher (apiPrefix +:+ "users/" +:+ owner +:+ tail) cfg = (owner, "", "api", None)
  /\ Matcher (apiPrefix +:+ other) cfg = ("", "", "api", None).
Proof.
  intros Hd Ho Hr Ht Hn1 Hn2.
  rewrite !Matcher_api_branch by assumption.
  rewrite !HasPrefix_app, Hn1, Hn2.
  replace (HasPrefix ("users/" +:+ owner +:+ tail) "repos/") with false
    by (vm_compute; reflexivity).
  rewrite ?HasPrefix_app.
  assert (Hrepos : forall x, from ("repos/" +:+ x) 6 = x)
    by (intros x; apply (from_app "repos/")).
  assert (Husers : forall x, from ("users/" +:+ x) 6 = x)
    by (intros x; apply (from_app "users/")).
  rewrite !Hrepos, Husers.
  destruct (SplitN_three owner repo tail Ho Hr Ht) as [m3 ->].
  destruct (SplitN_two owner tail Ho Ht) as [m2 ->].
  repeat apply conj; try reflexivity.
  cbn [SplitN]. rewrite IndexByte_absent by assumption. reflexivity.
Qed.

Lemma Matcher_api_fields_witness :
  let open :=
    {| Auth := {| Auth_Enabled := true; Auth_Method := "header";
                  Auth_ForceAllowApi := false |};
       Docker_Enabled := true; Docker_Target := "";
       Server_SizeLimit := 0; BandwidthLimit_Enabled := false |} in
  Matcher "https://api.github.com/repos/alice/app/tags" open
  = ("alice", "app", "api", None)
  /\ Matcher "https://api.github.com/repos/alice" open = ("", "", "api", None)
  /\ Matcher "https://api.github.com/users/alice/tags" open
    = ("alice", "", "api", None)
  /\ Matcher "https://api.github.com/rate_limit" open = ("", "", "api", None).
Proof.
  intros open.
  exact (Matcher_api_fields "alice" "app" "/tags" "rate_limit" open
           eq_refl eq_refl eq_refl (or_intror (ex_intro _ "tags" eq_refl))
           eq_refl eq_refl).
Defined.

(** Two leading segments, as the github.com and raw branches cut them. *)
Lemma two_segments remaining :
  (IndexByte remaining slash <=? 0) = false ->
  (IndexByte (from remaining (IndexByte remaining slash + 1)) slash <=? 0) = false ->
  let user := upto remaining (IndexByte remaining slash) in
  let remaining' := from remaining (IndexByte remaining slash + 1) in
  let repo := upto remaining' (IndexByte remaining' slash) in
  remaining
  = user +:+ "/" +:+ repo +:+ "/" +:+ from remaining' (IndexByte remaining' slash + 1)
  /\ user <> "" /\ repo <> ""
  /\ ContainsByte user slash = false /\ ContainsByte repo slash = false.
Proof.
  intros Hi Hj user remaining' repo. subst user repo remaining'.
  apply Z.leb_gt in Hi. apply Z.leb_gt in Hj.
  destruct (IndexByte_split remaining slash) as [Hs1 Hf1]; [lia|].
  destruct (IndexByte_split (from remaining (IndexByte remaining slash + 1)) slash)
    as [Hs2 Hf2]; [lia|].
  repeat apply conj.
  - rewrite Hs1 at 1. rewrite Hs2 at 1. reflexivity.
  - apply upto_nonempty; [exact Hi | apply IndexByte_upper].
  - apply upto_nonempty; [exact Hj | apply IndexByte_upper].
  - exact Hf1.
  - exact Hf2.
Qed.

Lemma match_github_inv rawPath user repo matcher :
  match_github rawPath = (user, repo, matcher, None) ->
  let remaining := from rawPath githubPrefixLen in
  let remaining' := from remaining (IndexByte remaining slash + 1) in
  (IndexByte remaining slash <=? 0) = false
  /\ (IndexByte remaining' slash <=? 0) = false
  /\ user = upto remaining (IndexByte remaining slash)
  /\ repo = upto remaining' (IndexByte remaining' slash)
  /\ from remaining' (IndexByte remaining' slash + 1) <> "".
Proof.
  unfold match_github, github_action, fail. intros Hm.
  repeat case_match; simplify_eq; cbv zeta; repeat apply conj; try reflexivity;
    intros E;
    match goal with
    | Hl : (len _ =? 0) = false |- _ => rewrite E in Hl; discriminate Hl
    end.
Qed.

Lemma match_raw_inv rawPath user repo matcher :
  match_raw rawPath = (user, repo, matcher, None) ->
  let remaining := from rawPath rawPrefixLen in
  let remaining' := from remaining (IndexByte remaining slash + 1) in
  (IndexByte remaining slash <=? 0) = false
  /\ (IndexByte remaining' slash <=? 0) = false
  /\ user = upto remaining (IndexByte remaining slash)
  /\ repo = upto remaining' (IndexByte remaining' slash)
  /\ from remaining' (IndexByte remaining' slash + 1) <> "".
Proof.
  unfold match_raw, fail. intros Hm.
  repeat case_match; simplify_eq; cbv zeta; repeat apply conj; try reflexivity;
    intros E;
    match goal with
    | Hl : (len _ =? 0) = false |- _ => rewrite E in Hl; discriminate Hl
    end.
Qed.

(** Under the github.com and raw prefixes a success returns the first two
    path segments and nothing else: the URL is the prefix, the returned
    owner, a slash, the returned repo, a slash and a non-empty rest, and
    neither field is empty or contains a slash. *)
Theorem Matcher_segments rawPath cfg user repo matcher prefix :
  prefix = githubPrefix \/ prefix = rawPrefix ->
  HasPrefix rawPath prefix = true ->
  Matcher rawPath cfg = (user, repo, matcher, None) ->
  exists rest,
    rawPath = prefix +:+ user +:+ "/" +:+ repo +:+ "/" +:+ rest
    /\ user <> "" /\ repo <> "" /\ rest <> ""
    /\ ContainsByte user slash = false /\ ContainsByte repo slash = false.
Proof.
  intros Hprefix Hp Hm.
  pose proof (HasPrefix_inv rawPath prefix Hp) as Hraw.
  assert (Hinv :
    let remaining := from rawPath (len prefix) in
    let remaining' := from remaining (IndexByte remaining slash + 1) in
    (IndexByte remaining slash <=? 0) = false
    /\ (IndexByte remaining' slash <=? 0) = false
    /\ user = upto remaining (IndexByte remaining slash)
    /\ repo = upto remaining' (IndexByte remaining' slash)
    /\ from remaining' (IndexByte remaining' slash + 1) <> "").
  { revert Hm. unfold Matcher.
    destruct (len rawPath <? 18); [discriminate|].
    destruct Hprefix as [-> | ->].
    - rewrite Hp. apply match_github_inv.
    - destruct (prefixes_exclusive rawPath) as (_ & Hex & _).
      destruct (Hex Hp) as (-> & _). rewrite Hp. apply match_raw_inv. }
  cbv zeta in Hinv. destruct Hinv as (Hi & Hj & -> & -> & Hrest).
  destruct (two_segments (from rawPath (len prefix)) Hi Hj)
    as (Hsplit & Hu & Hr & Hus & Hrs).
  eexists. split.
  - transitivity (prefix +:+ from rawPath (len prefix)); [exact Hraw|].
    f_equal. exact Hsplit.
  - repeat apply conj; assumption.
Qed.

Lemma Matcher_segments_witness :
  exists rest,
    "https://raw.githubusercontent.com/alice/app/main/README.md"
    = rawPrefix +:+ "alice" +:+ "/" +:+ "app" +:+ "/" +:+ rest
    /\ rest <> "".
Proof.
  destruct (Matcher_segments
              "https://raw.githubusercontent.com/alice/app/main/README.md"
              (Sample.cfg 10) "alice" "app" "raw" rawPrefix
              (or_intror eq_refl) eq_refl eq_refl)
    as (rest & Hraw & _ & _ & Hrest & _).
  exists rest. split; assumption.
Defined.

Lemma Matcher_raw_reaches owner tail cfg :
  owner <> "" -> ContainsByte owner slash = false ->
  Matcher (rawPrefix +:+ owner +:+ "/" +:+ tail) cfg
  = (let i := IndexByte tail slash in
     if i <=? 0 then fail 400 "malformed raw url: missing repo"
     else if len (from tail (i + 1)) =? 0
          then fail 400 "malformed raw url: missing branch/commit"
          else (owner, upto tail i, "raw", None)).
Proof.
  intros Ho Hos. unfold Matcher.
  rewrite long_enough by (vm_compute; discriminate).
  replace (HasPrefix (rawPrefix +:+ owner +:+ "/" +:+ tail) githubPrefix) with false
    by (vm_compute; reflexivity).
  rewrite HasPrefix_app. unfold match_raw, rawPrefixLen. rewrite from_app.
  rewrite (IndexByte_slash owner) by assumption.
  pose proof (len_pos owner Ho).
  destruct (Z.leb_spec (len owner) 0); [lia|].
  rewrite upto_slash, from_slash. reflexivity.
Qed.

(** Under the raw prefix, an owner, a repo and anything non-empty after the
    second slash give [(owner, repo, raw)], whatever that rest is; with
    nothing after the second slash the branch is reported missing, and
    without the second slash it is the repo that is reported missing. *)
Theorem Matcher_raw_branch owner repo rest cfg :
  owner <> "" -> repo <> "" ->
  ContainsByte owner slash = false ->
  ContainsByte repo slash = false ->
  (rest <> "" ->
     Matcher (rawPrefix +:+ owner +:+ "/" +:+ repo +:+ "/" +:+ rest) cfg
     = (owner, repo, "raw", None))
  /\ Matcher (rawPrefix +:+ owner +:+ "/" +:+ repo +:+ "/") cfg
    = ("", "", "", Some (NewErrorWithStatusLookup 400
         "malformed raw url: missing branch/commit"))
  /\ Matcher (rawPrefix +:+ owner +:+ "/" +:+ repo) cfg
    = ("", "", "", Some (NewErrorWithStatusLookup 400
         "malformed raw url: missing repo")).
Proof.
  intros Ho Hr Hos Hrs.
  pose proof (len_pos repo Hr) as Hlr.
  rewrite !Matcher_raw_reaches by assumption. cbv zeta.
  repeat apply conj.
  - intros Hrest. rewrite (IndexByte_slash repo) by assumption.
    destruct (Z.leb_spec (len repo) 0); [lia|].
    rewrite upto_slash, from_slash.
    pose proof (len_pos rest Hrest).
    destruct (Z.eqb_spec (len rest) 0); [lia | reflexivity].
  - change (repo +:+ "/") with (repo +:+ "/" +:+ "").
    rewrite (IndexByte_slash repo) by assumption.
    destruct (Z.leb_spec (len repo) 0); [lia|].
    rewrite from_slash. reflexivity.
  - rewrite (IndexByte_absent repo) by assumption. reflexivity.
Qed.

Lemma Matcher_raw_branch_witness :
  Matcher "https://raw.githubusercontent.com/alice/app//README.md" (Sample.cfg 10)
  = ("alice", "app", "raw", None)
  /\ Matcher "https://raw.githubusercontent.com/alice/app" (Sample.cfg 10)
    = ("", "", "", Some (NewErrorWithStatusLookup 400
         "malformed raw url: missing repo")).
Proof.
  destruct (Matcher_raw_branch "alice" "app" "/README.md" (Sample.cfg 10)
              ltac:(discriminate) ltac:(discriminate) eq_refl eq_refl)
    as (Hok & _ & Hshort).
  split; [apply Hok; discriminate | exact Hshort].
Defined.

Lemma Matcher_error_fields_witness :
  Matcher "https://github.com/alice" (Sample.cfg 10)
  = ("", "", "", Some (NewErrorWithStatusLookup 400
       "malformed github path: missing user")).
Proof.
  destruct (Matcher "https://github.com/alice" (Sample.cfg 10))
    as [[[user repo] matcher] err] eqn:Hm.
  assert (He : err = Some (NewErrorWithStatusLookup 400
                             "malformed github path: missing user"))
    by (vm_compute in Hm; congruence).
  subst err.
  destruct (Matcher_error_fields _ _ _ _ _ _ Hm) as (-> & -> & ->).
  reflexivity.
Defined.

Lemma Matcher_success_fields_witness :
  Matcher "https://gist.github.com/alice/abc123" (Sample.cfg 10)
  = ("alice", "", "gist", None)
  /\ "gist" <> "" /\ "alice" <> "".
Proof.
  assert (Hm : Matcher "https://gist.github.com/alice/abc123" (Sample.cfg 10)
               = ("alice", "", "gist", None)) by reflexivity.
  destruct (Matcher_success_fields _ _ _ _ _ Hm) as (Hk & _ & Hgist).
  split; [exact Hm|]. split; [exact Hk | apply Hgist; left; reflexivity].
Defined.

(** A success names one of six kinds, and the prefix decides which: the
    github.com branch gives releases, blob, raw or clone, the raw branch
    raw, both gist branches gist with an empty repo, the API branch api. *)
Theorem Matcher_kind rawPath cfg user repo matcher :
  Matcher rawPath cfg = (user, repo, matcher, None) ->
  (HasPrefix rawPath githubPrefix = true
   /\ In matcher ["releases"; "blob"; "raw"; "clone"])
  \/ (HasPrefix rawPath rawPrefix = true /\ matcher = "raw")
  \/ ((HasPrefix rawPath gistPrefix = true
       \/ HasPrefix rawPath gistContentPrefix = true)
      /\ matcher = "gist" /\ repo = "")
  \/ (HasPrefix rawPath apiPrefix = true /\ matcher = "api").
Proof.
  unfold Matcher. destruct (len rawPath <? 18); [discriminate|].
  destruct (HasPrefix rawPath githubPrefix).
  { intros Hm. left. split; [reflexivity|]. revert Hm.
    unfold match_github, github_action, fail. cbn [In].
    intros Hm. repeat case_match; simplify_eq; tauto. }
  destruct (HasPrefix rawPath rawPrefix).
  { intros Hm. right. left. split; [reflexivity|]. revert Hm.
    unfold match_raw, fail. intros Hm. repeat case_match; simplify_eq; reflexivity. }
  destruct (HasPrefix rawPath gistPrefix).
  { intros Hm. apply match_gist_success in Hm as (_ & -> & ->). tauto. }
  destruct (HasPrefix rawPath gistContentPrefix).
  { intros Hm. apply match_gist_success in Hm as (_ & -> & ->). tauto. }
  destruct (HasPrefix rawPath apiPrefix); [|discriminate].
  intros Hm. right. right. right. split; [reflexivity|]. revert Hm.
  unfold match_api, fail. intros Hm. repeat case_match; simplify_eq; reflexivity.
Qed.

Lemma Matcher_kind_witness :
  In "clone" ["releases"; "blob"; "raw"; "clone"]
  /\ Matcher "https://github.com/alice/app/info/refs" (Sample.cfg 10)
    = ("alice", "app", "clone", None).
Proof.
  assert (Hm : Matcher "https://github.com/alice/app/info/refs" (Sample.cfg 10)
               = ("alice", "app", "clone", None)) by reflexivity.
  destruct (Matcher_kind _ _ _ _ _ Hm)
    as [[_ Hin] | [[_ E] | [(_ & E & _) | [_ E]]]]; try discriminate E.
  split; [exact Hin | exact Hm].
Defined.

Lemma matchString_answer target st :
  table_reachable st ->
  fst (matchString target st) = true
  <-> target = "blob" \/ target = "raw" \/ target = "gist".
Proof.
  intros Hst.
  assert (Hinit : initMatchers st = initMatchers table_unset)
    by (destruct Hst as [-> | ->]; reflexivity).
  unfold matchString. rewrite Hinit. cbn [fst snd].
  cbn [initMatchers table_unset initMatchersOnce proxyableMatchersMap foldl].
  rewrite bool_decide_eq_true, !elem_of_union, !elem_of_singleton.
  pose proof (not_elem_of_empty (C := gset string) target). tauto.
Qed.

Lemma Matcher_kinds_of rawPath cfg user repo matcher :
  Matcher rawPath cfg = (user, repo, matcher, None) ->
  In matcher ["releases"; "blob"; "raw"; "clone"; "gist"; "api"].
Proof.
  unfold Matcher. destruct (len rawPath <? 18); [discriminate|].
  destruct (HasPrefix rawPath githubPrefix).
  { unfold match_github, github_action, fail. cbn [In].
    intros Hm. repeat case_match; simplify_eq; tauto. }
  destruct (HasPrefix rawPath rawPrefix).
  { unfold match_raw, fail. cbn [In].
    intros Hm. repeat case_match; simplify_eq; tauto. }
  destruct (HasPrefix rawPath gistPrefix).
  { intros Hm. apply match_gist_success in Hm as (_ & -> & ->). cbn. tauto. }
  destruct (HasPrefix rawPath gistContentPrefix).
  { intros Hm. apply match_gist_success in Hm as (_ & -> & ->). cbn. tauto. }
  destruct (HasPrefix rawPath apiPrefix); [|discriminate].
  unfold match_api, fail. cbn [In].
  intros Hm. repeat case_match; simplify_eq; tauto.
Qed.

(** From any state the package can be in, [matchString] says yes exactly
    for blob, raw and gist, and leaves the table built: the answer does not
    depend on whether the table had been built before, and asking again
    changes nothing. *)
Theorem matchString_table target st :
  table_reachable st ->
  (fst (matchString target st) = true
   <-> target = "blob" \/ target = "raw" \/ target = "gist")
  /\ snd (matchString target st) = initMatchers table_unset
  /\ table_reachable (snd (matchString target st))
  /\ matchString target (snd (matchString target st)) = matchString target st.
Proof.
  intros Hst. split; [by apply matchString_answer|].
  assert (Hinit : initMatchers st = initMatchers table_unset)
    by (destruct Hst as [-> | ->]; reflexivity).
  unfold matchString. rewrite Hinit. cbn [fst snd].
  split; [reflexivity | split; [right; reflexivity | reflexivity]].
Qed.

Lemma matchString_table_witness :
  fst (matchString "gist" table_unset) = true
  /\ fst (matchString "releases" (snd (matchString "gist" table_unset))) = false.
Proof.
  destruct (matchString_table "gist" table_unset (or_introl eq_refl))
    as (Hyes & _ & Hreach & _).
  destruct (matchString_table "releases" _ Hreach) as (Hno & _).
  split.
  - apply Hyes. right. right. reflexivity.
  - destruct (fst (matchString "releases" _)); [|reflexivity].
    destruct Hno as [Hno _].
    destruct (Hno eq_refl) as [E|[E|E]]; discriminate E.
Defined.

(** What the matcher accepts and the table of proxyable kinds together: an
    accepted URL is proxyable exactly when its kind is blob, raw or gist,
    so never when it is a release download, clone traffic or an API
    call. *)
Theorem Matcher_proxyable rawPath cfg user repo matcher st :
  table_reachable st ->
  Matcher rawPath cfg = (user, repo, matcher, None) ->
  fst (matchString matcher st) = false
  <-> matcher = "releases" \/ matcher = "clone" \/ matcher = "api".
Proof.
  intros Hst Hm.
  pose proof (matchString_answer matcher st Hst) as Hyes.
  pose proof (Matcher_kinds_of _ _ _ _ _ Hm) as Hin.
  destruct (fst (matchString matcher st)).
  - split; [discriminate|].
    destruct Hyes as [Hyes _]. destruct (Hyes eq_refl) as [->|[->| ->]];
      intros [E|[E|E]]; discriminate E.
  - split; [intros _|reflexivity].
    destruct Hyes as [_ Hyes]. cbn [In] in Hin.
    destruct Hin as [<-|[<-|[<-|[<-|[<-|[<-|[]]]]]]]; auto;
      exfalso; assert (false = true) by (apply Hyes; auto); discriminate.
Qed.

Lemma Matcher_proxyable_witness :
  fst (matchString "releases" table_unset) = false.
Proof.
  apply (Matcher_proxyable "https://github.com/alice/app/archive/v1.zip"
           (Sample.cfg 10) "alice" "app" "releases" table_unset
           (or_introl eq_refl) eq_refl).
  left. reflexivity.
Defined.

End MatcherMore.

(** ** extractParts *)

Section ExtractPartsFacts.

Context `{GoLib}.
Variable Values : Type.
Variable url_Path : URL -> string.
Variable url_Query : URL -> Values.

Lemma IndexByte_present s c : ContainsByte s c = true -> 0 <= IndexByte s c.
Proof.
  induction s as [|a s IH]; cbn [ContainsByte IndexByte]; [discriminate|].
  destruct (Ascii.eqb a c); [lia|].
  intros Hs. specialize (IH Hs).
  destruct (Z.ltb_spec (IndexByte s c) 0); lia.
Qed.

Lemma ContainsByte_dec s c :
  (ContainsByte s c = false /\ IndexByte s c = -1)
  \/ (ContainsByte s c = true /\ 0 <= IndexByte s c).
Proof.
  destruct (ContainsByte s c) eqn:Hc.
  - right. split; [reflexivity | by apply IndexByte_present].
  - left. split; [reflexivity | by apply IndexByte_absent].
Qed.

Lemma append_assoc a b c : (a +:+ b) +:+ c = a +:+ b +:+ c.
Proof.
  induction a as [|x a IH]; [reflexivity|].
  change (String x ((a +:+ b) +:+ c) = String x (a +:+ b +:+ c)). by rewrite IH.
Qed.

(** What [SplitN(path, "/", 3)] returns: one piece for a path without a
    slash, otherwise the first segment, the second one and, when there is
    a second slash, everything after it. *)
Lemma SplitN_3_cases path :
  (ContainsByte path slash = false /\ SplitN path slash 3 = [path])
  \/ (exists p0 p1,
        ContainsByte p0 slash = false /\ ContainsByte p1 slash = false
        /\ ((path = p0 +:+ "/" +:+ p1 /\ SplitN path slash 3 = [p0; p1])
            \/ exists p2, path = p0 +:+ "/" +:+ p1 +:+ "/" +:+ p2
                          /\ SplitN path slash 3 = [p0; p1; p2])).
Proof.
  destruct (ContainsByte_dec path slash) as [[Hc Hi] | [Hc Hi]].
  - left. split; [exact Hc|]. cbn [SplitN]. rewrite Hi. reflexivity.
  - right. destruct (IndexByte_split path slash Hi) as [Hs Hf].
    set (p0 := upto path (IndexByte path slash)) in *.
    set (rest := from path (IndexByte path slash + 1)) in *.
    exists p0.
    assert (Hsplit : SplitN path slash 3 = p0 :: SplitN rest slash 2).
    { cbn [SplitN]. destruct (Z.ltb_spec (IndexByte path slash) 0); [lia|].
      reflexivity. }
    destruct (ContainsByte_dec rest slash) as [[Hc' Hi'] | [Hc' Hi']].
    + exists rest. repeat apply conj; [exact Hf | exact Hc' |].
      left. split; [exact Hs|]. rewrite Hsplit. cbn [SplitN]. rewrite Hi'. reflexivity.
    + destruct (IndexByte_split rest slash Hi') as [Hs' Hf'].
      exists (upto rest (IndexByte rest slash)).
      repeat apply conj; [exact Hf | exact Hf' |].
      right. exists (from rest (IndexByte rest slash + 1)). split.
      * rewrite Hs at 1. f_equal. apply (f_equal (String slash)). exact Hs'.
      * rewrite Hsplit. cbn [SplitN].
        destruct (Z.ltb_spec (IndexByte rest slash) 0); [lia|]. reflexivity.
Qed.

(** A success of [extractParts] loses nothing of the path: the three
    strings it returns, put side by side, are the path of the parsed URL
    with exactly one leading slash; the owner and the name are a slash
    and one segment each, and the query is the parsed one. *)
Theorem extractParts_round_trip rawURL repoOwner repoName remainingPath query :
  extractParts Values url_Path url_Query rawURL
  = (repoOwner, repoName, remainingPath, query, None) ->
  exists parsedURL p0 p1,
    url_Parse rawURL = Ok parsedURL
    /\ query = Some (url_Query parsedURL)
    /\ repoOwner +:+ repoName +:+ remainingPath
       = "/" +:+ stripped_path url_Path parsedURL
    /\ repoOwner = "/" +:+ p0 /\ repoName = "/" +:+ p1
    /\ ContainsByte p0 slash = false /\ ContainsByte p1 slash = false
    /\ (remainingPath = "" \/ HasPrefix remainingPath "/" = true).
Proof.
  unfold extractParts. destruct (url_Parse rawURL) as [parsedURL|e]; [|discriminate].
  fold (stripped_path url_Path parsedURL).
  destruct (SplitN_3_cases (stripped_path url_Path parsedURL))
    as [[_ ->] | (p0 & p1 & Hp0 & Hp1 & [[Hpath ->] | (p2 & Hpath & ->)])];
    [discriminate| |].
  - intros [= <- <- <- <-]. exists parsedURL, p0, p1.
    repeat apply conj; try reflexivity; try assumption; [|by left].
    rewrite Hpath, append_empty. apply (append_assoc "/" p0).
  - intros [= <- <- <- <-]. exists parsedURL, p0, p1.
    repeat apply conj; try reflexivity; try assumption;
      [|right; apply HasPrefix_app].
    rewrite Hpath. apply (append_assoc "/" p0).
Qed.

(** [extractParts] fails in two cases only: the URL does not parse, or its
    path, without the leading slash, has no slash left; every failure
    returns empty strings and no query, and a path with a slash left never
    fails, even when a segment is empty. *)
Theorem extractParts_errors rawURL :
  (forall e, url_Parse rawURL = Err e ->
     extractParts Values url_Path url_Query rawURL = ("", "", "", None, Some e))
  /\ (forall parsedURL, url_Parse rawURL = Ok parsedURL ->
      (ContainsByte (stripped_path url_Path parsedURL) slash = false ->
         extractParts Values url_Path url_Query rawURL
         = ("", "", "", None, Some "URL path is too short"))
      /\ (ContainsByte (stripped_path url_Path parsedURL) slash = true ->
          exists repoOwner repoName remainingPath,
            extractParts Values url_Path url_Query rawURL
            = (repoOwner, repoName, remainingPath,
               Some (url_Query parsedURL), None))).
Proof.
  unfold extractParts. split.
  - by intros e ->.
  - intros parsedURL ->. fold (stripped_path url_Path parsedURL).
    destruct (SplitN_3_cases (stripped_path url_Path parsedURL))
      as [[Hc ->] | (p0 & p1 & Hp0 & Hp1 & [[Hpath ->] | (p2 & Hpath & ->)])].
    + split; [reflexivity | congruence].
    + split; [|eauto]. rewrite Hpath, ContainsByte_app.
      replace (ContainsByte ("/" +:+ p1) slash) with true by reflexivity.
      rewrite orb_true_r. discriminate.
    + split; [|eauto]. rewrite Hpath, ContainsByte_app.
      replace (ContainsByte ("/" +:+ p1 +:+ "/" +:+ p2) slash) with true
        by reflexivity.
      rewrite orb_true_r. discriminate.
Qed.

End ExtractPartsFacts.

Section ExtractPartsScenario.

Import Sample.

Lemma extractParts_round_trip_witness :
  extractParts string path_of (fun _ => "") "https://github.com/alice/app/blob/main/a.go"
  = ("/alice", "/app", "/blob/main/a.go", Some "", None)
  /\ "/alice" +:+ "/app" +:+ "/blob/main/a.go"
     = "/" +:+ stripped_path path_of "https://github.com/alice/app/blob/main/a.go".
Proof.
  assert (Hrun : extractParts string path_of (fun _ => "")
                   "https://github.com/alice/app/blob/main/a.go"
                 = ("/alice", "/app", "/blob/main/a.go", Some "", None))
    by reflexivity.
  destruct (@extractParts_round_trip lib string path_of (fun _ => "")
              _ _ _ _ _ Hrun)
    as (parsedURL & p0 & p1 & Hparse & _ & Hjoin & _).
  injection Hparse as <-.
  split; [exact Hrun | exact Hjoin].
Defined.

Lemma extractParts_errors_witness :
  extractParts string path_of (fun _ => "") "https://github.com/alice"
  = ("", "", "", None, Some "URL path is too short")
  /\ exists repoOwner repoName remainingPath,
       extractParts string path_of (fun _ => "") "https://github.com/alice/"
       = (repoOwner, repoName, remainingPath, Some "", None).
Proof.
  split.
  - destruct (@extractParts_errors lib string path_of (fun _ => "")
                "https://github.com/alice") as [_ Hok].
    destruct (Hok _ eq_refl) as [Hshort _]. exact (Hshort eq_refl).
  - destruct (@extractParts_errors lib string path_of (fun _ => "")
                "https://github.com/alice/") as [_ Hok].
    destruct (Hok _ eq_refl) as [_ Hlong]. exact (Hlong eq_refl).
Defined.

End ExtractPartsScenario.

(** ** More about the proxy engine *)

Section EngineMore.

Context `{GoLib}.
Variable transport : Site -> Request -> result Response.

Implicit Types (c : Client) (cfg : Config) (k : Cache) (resp : Live).

Lemma open_bodies_app t1 t2 opened :
  open_bodies transport (t1 ++ t2) opened
  = open_bodies transport t2 (open_bodies transport t1 opened).
Proof.
  revert opened. induction t1 as [|e t1 IH]; intros opened; [reflexivity|].
  destruct e; cbn [app open_bodies]; apply IH.
Qed.

Lemma streamed_sites_app t1 t2 :
  streamed_sites (t1 ++ t2) = streamed_sites t1 ++ streamed_sites t2.
Proof. apply omap_app. Qed.

Lemma sites_app t1 t2 : sites (t1 ++ t2) = sites t1 ++ sites t2.
Proof. unfold sites, requests. by rewrite omap_app, map_app. Qed.

Lemma requests_sites t : requests t = [] <-> sites t = [].
Proof. unfold sites. destruct (requests t); cbn; split; intros; congruence. Qed.

Lemma close_only (s : Site) : filter (fun s' => s' <> s) [s] = [].
Proof. rewrite filter_cons. destruct (decide (s <> s)); [congruence | reflexivity]. Qed.

(** The phases of [GhcrRequest]: a run ends in the first phase that
    returns. *)
Lemma GhcrRequest_inv c u image cfg target k o k' t :
  GhcrRequest transport c u image cfg target k = (o, k', t) ->
  (o = Return tt /\ send_initial transport c u image target k = (Return tt, k', t))
  \/ exists bodyByte resp0 k0 t0,
       send_initial transport c u image target k = (Next (bodyByte, resp0), k0, t0)
       /\ ((exists t1,
              o = Return tt /\ t = t0 ++ t1
              /\ auth_retry transport c u image target bodyByte resp0 k0
                 = (Return tt, k', t1))
           \/ exists resp1 k1 t1,
                auth_retry transport c u image target bodyByte resp0 k0
                = (Next resp1, k1, t1)
                /\ ((exists t2,
                       o = Return tt /\ t = t0 ++ t1 ++ t2
                       /\ follow_redirect transport c resp1 k1 = (Return tt, k', t2))
                    \/ exists resp2 k2 t2 t3,
                         follow_redirect transport c resp1 k1 = (Next resp2, k2, t2)
                         /\ after_redirect cfg resp2 k2 = (o, k', t3)
                         /\ t = t0 ++ t1 ++ t2 ++ t3)).
Proof.
  unfold GhcrRequest, final_response, authorised_response, after_redirect.
  unfold mbind, M_bind, bind, mret, M_ret, ret. intros Hrun.
  destruct (send_initial transport c u image target k) as [[[[b r0]|[]] k0] t0];
    [|injection Hrun as <- <- <-; by left].
  right. exists b, r0, k0, t0. split; [reflexivity|].
  destruct (auth_retry transport c u image target b r0 k0) as [[[r1|[]] k1] t1];
    [|injection Hrun as <- <- <-; left; eauto].
  right. exists r1, k1, t1. split; [reflexivity|].
  destruct (follow_redirect transport c r1 k1) as [[[r2|[]] k2] t2];
    [|injection Hrun as <- <- <-; left; exists t2; by rewrite app_assoc].
  right. exists r2, k2, t2.
  destruct (not_found r2 k2) as [[[[]|[]] k3] t3].
  - destruct (size_and_stream cfg r2 k3) as [[o4 k4] t4].
    injection Hrun as <- <- <-. exists (t3 ++ t4).
    repeat (apply conj); [reflexivity | reflexivity |].
    by rewrite app_nil_r, !app_assoc.
  - injection Hrun as <- <- <-. exists t3.
    repeat (apply conj); [reflexivity | reflexivity |].
    by rewrite !app_assoc.
Qed.

(** *** What each phase does *)

(** The initial phase either hands on the response to the one request it
    sent, or ends the request with the upstream-error page. *)
Lemma send_initial_summary c u image target k o k' t :
  send_initial transport c u image target k = (o, k', t) ->
  k' = k
  /\ match o with
     | Next (bodyByte, resp) =>
         fst resp = Initial
         /\ cl_ReqBodyFull c = Ok bodyByte
         /\ Build_error (unsent_request c u bodyByte) = None
         /\ transport Initial
              (initial_request c u target bodyByte (cached_token k image))
            = Ok (snd resp)
         /\ t = [EvDo Initial
                   (initial_request c u target bodyByte (cached_token k image))]
     | Return _ =>
         (((exists e, cl_ReqBodyFull c = Err e)
           \/ (exists bodyByte e,
                 cl_ReqBodyFull c = Ok bodyByte
                 /\ Build_error (unsent_request c u bodyByte) = Some e))
          /\ exists msg, t = [EvHandleError msg])
         \/ (exists bodyByte e,
               cl_ReqBodyFull c = Ok bodyByte
               /\ Build_error (unsent_request c u bodyByte) = None
               /\ transport Initial
                    (initial_request c u target bodyByte (cached_token k image))
                  = Err e
               /\ t = [EvDo Initial
                         (initial_request c u target bodyByte (cached_token k image));
                       EvHandleError ("Failed to send request: " +:+ e)])
     end.
Proof.
  destruct (cl_ReqBodyFull c) as [bodyByte|e] eqn:Hb.
  - destruct (Build_error (unsent_request c u bodyByte)) as [e|] eqn:Hbuild.
    + unfold send_initial. rewrite Hb. run.
      unfold unsent_request in Hbuild. rewrite Hbuild.
      intros [= <- <- <-]. split; [reflexivity|]. left. split; [|eauto].
      right. exists bodyByte, e. split; [reflexivity | exact Hbuild].
    + destruct (transport Initial
                  (initial_request c u target bodyByte (cached_token k image)))
        as [r|e] eqn:Hdo.
      * rewrite (send_initial_sent transport c u image target k bodyByte r Hb Hbuild Hdo).
        intros [= <- <- <-]. repeat (apply conj); try reflexivity; assumption.
      * rewrite (send_initial_failed transport c u image target k bodyByte e Hb Hbuild Hdo).
        intros [= <- <- <-]. split; [reflexivity|]. right.
        exists bodyByte, e. repeat (apply conj); try reflexivity; assumption.
  - unfold send_initial. rewrite Hb. intros [= <- <- <-].
    split; [reflexivity|]. left. split; eauto.
Qed.

(** [ChallengeReq] leaves the cache and the body of the initial response
    alone, hands nothing to the client, and reaches its two call sites in
    order; it writes the upstream-error page only when the discovery
    request is not built or not answered, and then returns no token. *)
Lemma ChallengeReq_summary target image k :
  exists token tc,
    ChallengeReq transport target image k = (Return token, k, tc)
    /\ streamed_sites tc = []
    /\ open_bodies transport tc [Initial] = [Initial]
    /\ sent_at Initial tc = [] /\ sent_at Retry tc = [] /\ sent_at Redirect tc = []
    /\ (sites tc = [] \/ sites tc = [Challenge]
        \/ sites tc = [Challenge; TokenEndpoint])
    /\ (token <> "" ->
        sites tc = [Challenge; TokenEndpoint] /\ client_answers tc = [])
    /\ (client_answers tc = []
        \/ (client_answers tc = [ProxyError] /\ token = ""
            /\ sent_at TokenEndpoint tc = []))
    /\ (Build_error (rq_with_header (req401_of target) ∅) = None ->
        sent_at Challenge tc = [req401_of target])
    /\ (Build_error (rq_with_header (req401_of target) ∅) <> None ->
        sent_at Challenge tc = []).
Proof.
  unfold ChallengeReq, req401_of. run. repeat step.
  all: eexists _, _; (split; [reflexivity|]).
  all: split; [reflexivity|].
  all: split;
    [ cbn [open_bodies];
      repeat match goal with
             | E : transport _ _ = _ |- _ => rewrite E; clear E
             end;
      reflexivity |].
  all: do 3 (split; [reflexivity|]).
  all: split; [cbn; tauto|].
  all: split; [intros Hne; first [congruence | split; reflexivity]|].
  all: split; [first [left; reflexivity | right; repeat (apply conj); reflexivity]|].
  all: split; [intros Hb; first [congruence | reflexivity]|].
  all: intros Hb; first [congruence | reflexivity].
Qed.

(** The redirect step closes the body it is given whenever it does not
    hand it on, and the only request it sends is the follow-up. *)
Lemma follow_redirect_summary c resp k o k' t :
  follow_redirect transport c resp k = (o, k', t) ->
  k' = k /\ streamed_sites t = []
  /\ open_bodies transport t [fst resp] = handed_on fst o
  /\ In (sites t) redirect_orders
  /\ client_answers t = match o with Next _ => [] | Return _ => [ProxyError] end.
Proof.
  unfold follow_redirect. run. repeat step.
  all: intros [= <- <- <-].
  all: do 2 (split; [reflexivity|]).
  all: split;
    [ cbn [open_bodies]; rewrite ?close_only;
      repeat match goal with
             | E : transport _ _ = _ |- _ => rewrite E; clear E
             end;
      reflexivity |].
  all: split; [cbn; tauto | reflexivity].
Qed.

(** What is left after the redirect step sends nothing, answers the
    client once, and either closes the body or hands it to the client. *)
Lemma after_redirect_summary cfg resp k o k' t :
  after_redirect cfg resp k = (o, k', t) ->
  k' = k /\ sites t = []
  /\ open_bodies transport t [fst resp] = streamed_sites t
  /\ (streamed_sites t = [] \/ streamed_sites t = [fst resp])
  /\ exists a, client_answers t = [a].
Proof.
  unfold after_redirect, not_found, size_and_stream. run. repeat step.
  all: intros [= <- <- <-].
  all: do 2 (split; [reflexivity|]).
  all: split; [cbn [open_bodies streamed_sites omap]; rewrite ?close_only; reflexivity|].
  all: split; [cbn; tauto | eexists; reflexivity].
Qed.

(** The retry step never touches the cache or the initial body unless
    the handshake gave a token; with a token it closes the initial body,
    caches the token under the image and resends once. *)
Lemma auth_retry_summary c u image target bodyByte r k o k' t :
  auth_retry transport c u image target bodyByte (Initial, r) k = (o, k', t) ->
  streamed_sites t = []
  /\ open_bodies transport t [Initial] = handed_on fst o
  /\ In (sites t) handshake_orders
  /\ sent_at Initial t = [] /\ sent_at Redirect t = []
  /\ ((k' = k /\ sent_at Retry t = [])
      \/ exists img token,
           image = Some img /\ token <> "" /\ k' = <[Image img := token]> k
           /\ (sent_at Retry t = []
               \/ sent_at Retry t = [retry_request c u target bodyByte token]))
  /\ match o with
     | Next _ =>
         client_answers t = []
         \/ (client_answers t = [ProxyError] /\ k' = k
             /\ sent_at TokenEndpoint t = [] /\ sent_at Retry t = [])
     | Return _ => exists a, client_answers t = [a]
     end
  /\ (sent_at Challenge t <> [] ->
      (sent_at Challenge t = [req401_of target]
       /\ Build_error (rq_with_header (req401_of target) ∅) = None)
      /\ auth_failed r = true /\ cl_RequestURIPath c <> "/v2/"
      /\ exists img, image = Some img)
  /\ (forall img,
        image = Some img -> auth_failed r = true ->
        cl_RequestURIPath c <> "/v2/" ->
        Build_error (rq_with_header (req401_of target) ∅) = None ->
        sent_at Challenge t = [req401_of target]).
Proof.
  unfold auth_retry, auth_failed. cbn [snd fst].
  destruct ((StatusCode r =? 401) || (StatusCode r =? 404)) eqn:Hs.
  2: { intros [= <- <- <-]. repeat (apply conj); try reflexivity.
       - cbn; tauto.
       - left. split; reflexivity.
       - left. reflexivity.
       - intros Hne. by destruct Hne.
       - intros img _ Hf. discriminate Hf. }
  destruct (String.eqb_spec (cl_RequestURIPath c) "/v2/") as [Hp|Hp]; cbn [negb].
  { intros [= <- <- <-]. repeat (apply conj); try reflexivity.
    - cbn; tauto.
    - left. split; reflexivity.
    - left. reflexivity.
    - intros Hne. by destruct Hne.
    - intros img _ _ Hne. by destruct Hne. }
  destruct image as [img|].
  2: { intros [= <- <- <-]. repeat (apply conj); try reflexivity.
       - cbn; tauto.
       - left. split; reflexivity.
       - eexists. reflexivity.
       - intros Hne. by destruct Hne.
       - intros img Hi. discriminate Hi. }
  destruct (ChallengeReq_summary target img k)
    as (token & tc & Hrun & Hstream & Hopen & Hi & Hrt & Hrd & Hsites & Htok
        & Hans & Hsent & Hunsent).
  assert (Hch : sent_at Challenge tc <> [] ->
                sent_at Challenge tc = [req401_of target]
                /\ Build_error (rq_with_header (req401_of target) ∅) = None).
  { destruct (Build_error (rq_with_header (req401_of target) ∅)) eqn:Hb.
    - rewrite Hunsent by discriminate. intros Hne. by destruct Hne.
    - intros _. split; [by apply Hsent | reflexivity]. }
  run. rewrite Hrun.
  destruct (String.eqb_spec token "") as [->|Htoken]; cbn [negb]; run.
  - intros [= <- <- <-]. rewrite app_nil_r.
    repeat (apply conj); try assumption.
    + destruct Hsites as [-> | [-> | ->]]; cbn; tauto.
    + left. split; [reflexivity | assumption].
    + destruct Hans as [Ha | (Ha & _ & Ht)]; [by left|].
      right. repeat (apply conj); try assumption; reflexivity.
    + intros Hne. destruct (Hch Hne). repeat (apply conj); eauto.
    + intros img' _ _ _. exact Hsent.
  - destruct (Htok Htoken) as [Hs2 Ha2].
    match goal with
    | |- context [Build_error ?rq] => destruct (Build_error rq) as [e|] eqn:Hbuild
    end; run;
      [|match goal with
        | |- context [transport Retry ?rq] =>
            destruct (transport Retry rq) as [rr|e] eqn:Hdo
        end; run].
    all: intros [= <- <- <-].
    all: rewrite ?streamed_sites_app, ?open_bodies_app, ?sites_app, ?sent_at_app,
           ?client_answers_app, ?Hstream, ?Hopen, ?Hi, ?Hrt, ?Hrd, ?Hs2, ?Ha2.
    all: cbn [open_bodies]; rewrite ?close_only, ?Hdo.
    all: repeat (apply conj); try reflexivity.
    all: try (cbn; tauto).
    all: try (right; exists img, token; repeat (apply conj);
              try reflexivity; try assumption; cbn; tauto).
    all: try (eexists; reflexivity).
    all: try (left; reflexivity).
    all: try (intros Hne; rewrite app_nil_r in *; destruct (Hch Hne);
              repeat (apply conj); eauto).
    all: try (intros img' _ _ _ Hb; rewrite app_nil_r; by apply Hsent).
Qed.

Lemma send_initial_next c u image target k bodyByte resp k' t :
  send_initial transport c u image target k = (Next (bodyByte, resp), k', t) ->
  k' = k /\ fst resp = Initial
  /\ streamed_sites t = [] /\ open_bodies transport t [] = [Initial]
  /\ sites t = [Initial] /\ client_answers t = []
  /\ sent_at Challenge t = [] /\ sent_at TokenEndpoint t = []
  /\ sent_at Retry t = [] /\ sent_at Redirect t = []
  /\ cl_ReqBodyFull c = Ok bodyByte
  /\ Build_error (unsent_request c u bodyByte) = None
  /\ transport Initial (initial_request c u target bodyByte (cached_token k image))
     = Ok (snd resp).
Proof.
  intros Hi. apply send_initial_summary in Hi as (-> & Hs & Hb & Hbuild & Hdo & ->).
  repeat (apply conj); try reflexivity; try assumption.
  cbn [open_bodies]. by rewrite Hdo.
Qed.

Lemma send_initial_return c u image target k r k' t :
  send_initial transport c u image target k = (Return r, k', t) ->
  k' = k
  /\ streamed_sites t = [] /\ open_bodies transport t [] = []
  /\ client_answers t = [ProxyError]
  /\ sent_at Challenge t = [] /\ sent_at TokenEndpoint t = []
  /\ sent_at Retry t = [] /\ sent_at Redirect t = []
  /\ ((sites t = []
       /\ ((exists e, cl_ReqBodyFull c = Err e)
           \/ (exists bodyByte e,
                 cl_ReqBodyFull c = Ok bodyByte
                 /\ Build_error (unsent_request c u bodyByte) = Some e))
       /\ exists msg, t = [EvHandleError msg])
      \/ (sites t = [Initial]
          /\ exists bodyByte e,
               cl_ReqBodyFull c = Ok bodyByte
               /\ Build_error (unsent_request c u bodyByte) = None
               /\ transport Initial
                    (initial_request c u target bodyByte (cached_token k image))
                  = Err e)).
Proof.
  intros Hi.
  apply send_initial_summary in Hi
    as (-> & [(Hwhy & msg & ->) | (bodyByte & e & Hb & Hbuild & Hdo & ->)]).
  - repeat (apply conj); try reflexivity. left. eauto.
  - repeat (apply conj); try reflexivity.
    + cbn [open_bodies]. by rewrite Hdo.
    + right. eauto 10.
Qed.

Lemma send_initial_requests c u image target k o k' t :
  send_initial transport c u image target k = (o, k', t) ->
  forall rq,
    In rq (sent_at Initial t) ->
    exists bodyByte,
      cl_ReqBodyFull c = Ok bodyByte
      /\ rq = initial_request c u target bodyByte (cached_token k image).
Proof.
  intros Hi. apply send_initial_summary in Hi as [_ Hi].
  destruct o as [[bodyByte resp]|[]].
  - destruct Hi as (_ & Hb & _ & _ & ->). intros rq [<- | []]. eauto.
  - destruct Hi as [(_ & msg & ->) | (bodyByte & e & Hb & _ & _ & ->)].
    + intros rq [].
    + intros rq [<- | []]. eauto.
Qed.

Lemma initial_request_fields c u target bodyByte cached :
  rq_URL (initial_request c u target bodyByte cached) = u
  /\ rq_Method (initial_request c u target bodyByte cached) = cl_Method c
  /\ rq_Body (initial_request c u target bodyByte cached) = Some bodyByte
  /\ Header_Get (rq_Header (initial_request c u target bodyByte cached)) "Host"
     = target.
Proof.
  repeat (apply conj); try reflexivity.
  unfold initial_request, upstream_header, Header_Get, Header_Set.
  cbn [rq_with_header rq_Header].
  destruct cached as [token|].
  - rewrite lookup_insert_ne by discriminate. by rewrite lookup_insert_eq.
  - by rewrite lookup_insert_eq.
Qed.

Lemma retry_request_fields c u target bodyByte token :
  rq_URL (retry_request c u target bodyByte token) = u
  /\ rq_Method (retry_request c u target bodyByte token) = cl_Method c
  /\ rq_Body (retry_request c u target bodyByte token) = Some bodyByte
  /\ Header_Get (rq_Header (retry_request c u target bodyByte token)) "Host"
     = target.
Proof.
  repeat (apply conj); try reflexivity.
  unfold retry_request, upstream_header, Header_Get, Header_Set.
  cbn [rq_with_header rq_Header].
  rewrite lookup_insert_ne by discriminate. by rewrite lookup_insert_eq.
Qed.

(** Runs [GhcrRequest_inv] and the summaries of the first two phases. *)
Ltac phases Hrun :=
  apply GhcrRequest_inv in Hrun
    as [[-> Hi]
       | (bodyByte & [s0 r0] & k0 & t0 & Hi
          & [(t1 & -> & -> & Ha)
            | (resp1 & k1 & t1 & Ha
               & [(t2 & -> & -> & Hf)
                 | (resp2 & k2 & t2 & t3 & Hf & Har & ->)])])];
  pose proof (send_initial_requests _ _ _ _ _ _ _ _ Hi) as Hreq0;
  [ apply send_initial_return in Hi
      as (-> & Hst0 & Hop0 & Han0 & Hc0 & Hte0 & Hrt0 & Hrd0 & Hwhy)
  | apply send_initial_next in Hi
      as (-> & Hs0 & Hst0 & Hop0 & Hsi0 & Han0 & Hc0 & Hte0 & Hrt0 & Hrd0
          & Hb & Hbuild & Hdo);
    cbn [fst snd] in Hs0, Hdo; subst s0;
    apply auth_retry_summary in Ha
      as (Hst1 & Hop1 & Hsi1 & Hin1 & Hrd1 & Hk1 & Han1 & Hc1 & Hc1')
  | apply send_initial_next in Hi
      as (-> & Hs0 & Hst0 & Hop0 & Hsi0 & Han0 & Hc0 & Hte0 & Hrt0 & Hrd0
          & Hb & Hbuild & Hdo);
    cbn [fst snd] in Hs0, Hdo; subst s0;
    apply auth_retry_summary in Ha
      as (Hst1 & Hop1 & Hsi1 & Hin1 & Hrd1 & Hk1 & Han1 & Hc1 & Hc1');
    pose proof (follow_redirect_trace _ _ _ _ _ _ _ Hf)
      as (_ & _ & Hin2 & Hrt2 & Hc2 & Hte2);
    apply follow_redirect_summary in Hf as (-> & Hst2 & Hop2 & Hsi2 & Han2)
  | apply send_initial_next in Hi
      as (-> & Hs0 & Hst0 & Hop0 & Hsi0 & Han0 & Hc0 & Hte0 & Hrt0 & Hrd0
          & Hb & Hbuild & Hdo);
    cbn [fst snd] in Hs0, Hdo; subst s0;
    apply auth_retry_summary in Ha
      as (Hst1 & Hop1 & Hsi1 & Hin1 & Hrd1 & Hk1 & Han1 & Hc1 & Hc1');
    pose proof (follow_redirect_trace _ _ _ _ _ _ _ Hf)
      as (_ & _ & Hin2 & Hrt2 & Hc2 & Hte2);
    apply follow_redirect_summary in Hf as (-> & Hst2 & Hop2 & Hsi2 & Han2);
    pose proof (after_redirect_trace _ _ _ _ _ _ Har) as (_ & Hsent3);
    apply (after_redirect_summary) in Har as (-> & Hsi3 & Hop3 & Hst3 & Han3) ].

(** *** The engine as a whole *)

(** Whatever the upstream answers and wherever the request ends, every
    response body [GhcrRequest] and [ChallengeReq] opened is closed when
    [GhcrRequest] returns, except the one handed to the client with
    [SetBodyStream], and at most one is handed over. *)
Theorem GhcrRequest_bodies c u image cfg target k o k' t :
  GhcrRequest transport c u image cfg target k = (o, k', t) ->
  open_bodies transport t [] = streamed_sites t
  /\ (length (streamed_sites t) <= 1)%nat.
Proof.
  intros Hrun. phases Hrun.
  - rewrite Hop0, Hst0. split; [reflexivity | cbn; lia].
  - rewrite open_bodies_app, streamed_sites_app, Hop0, Hst0, Hop1, Hst1.
    split; [reflexivity | cbn; lia].
  - rewrite !open_bodies_app, !streamed_sites_app, Hop0, Hst0, Hop1, Hst1.
    cbn [handed_on]. rewrite Hop2, Hst2. split; [reflexivity | cbn; lia].
  - rewrite !open_bodies_app, !streamed_sites_app, Hop0, Hst0, Hop1, Hst1.
    cbn [handed_on]. rewrite Hop2, Hst2. cbn [handed_on app]. rewrite Hop3.
    split; [reflexivity|].
    destruct Hst3 as [-> | ->]; cbn; lia.
Qed.

(** The upstream is contacted in the order of the source and at most once
    per call site: nothing at all, or the initial request, then a prefix
    of discovery, token request and retry, then possibly the one follow-up
    of a redirect. *)
Theorem GhcrRequest_sites c u image cfg target k o k' t :
  GhcrRequest transport c u image cfg target k = (o, k', t) ->
  sites t = []
  \/ exists handshake redirect,
       In handshake handshake_orders /\ In redirect redirect_orders
       /\ sites t = Initial :: handshake ++ redirect.
Proof.
  intros Hrun. phases Hrun.
  - destruct Hwhy as [(-> & _) | (-> & _)]; [by left|].
    right. exists [], []. cbn. tauto.
  - right. exists (sites t1), []. rewrite sites_app, Hsi0, app_nil_r.
    repeat (apply conj); [assumption | cbn; tauto | reflexivity].
  - right. exists (sites t1), (sites t2). rewrite !sites_app, Hsi0.
    repeat (apply conj); [assumption | assumption | reflexivity].
  - right. exists (sites t1), (sites t2). rewrite !sites_app, Hsi0, Hsi3, app_nil_r.
    repeat (apply conj); [assumption | assumption | reflexivity].
Qed.




(** Nothing is sent upstream exactly when the body of the client request
    cannot be read or the initial request cannot be built; the client is
    then shown the upstream-error page and the cache is left alone. *)
Theorem GhcrRequest_nothing_sent c u image cfg target k o k' t :
  GhcrRequest transport c u image cfg target k = (o, k', t) ->
  (requests t = [] <->
   (exists e, cl_ReqBodyFull c = Err e)
   \/ (exists bodyByte e,
         cl_ReqBodyFull c = Ok bodyByte
         /\ Build_error (unsent_request c u bodyByte) = Some e))
  /\ (requests t = [] ->
      o = Return tt /\ k' = k /\ exists msg, t = [EvHandleError msg]).
Proof.
  intros Hrun. rewrite requests_sites.
  assert (Hno : forall bodyByte,
            cl_ReqBodyFull c = Ok bodyByte ->
            Build_error (unsent_request c u bodyByte) = None ->
            ~ ((exists e, cl_ReqBodyFull c = Err e)
               \/ (exists bodyByte e,
                     cl_ReqBodyFull c = Ok bodyByte
                     /\ Build_error (unsent_request c u bodyByte) = Some e))).
  { intros b Hb Hbuild [[e He] | (b' & e & Hb' & He)]; congruence. }
  phases Hrun.
  - destruct Hwhy as [(Hs & Hwhy & Hmsg) | (Hs & b & e & Hb & Hbuild & _)].
    + rewrite Hs. split; [tauto | auto].
    + rewrite Hs. split; [|discriminate].
      split; [discriminate|]. intros Hw. by destruct (Hno b Hb Hbuild).
  - rewrite sites_app, Hsi0. split; [|discriminate].
    split; [discriminate|]. intros Hw. by destruct (Hno bodyByte Hb Hbuild).
  - rewrite sites_app, Hsi0. split; [|discriminate].
    split; [discriminate|]. intros Hw. by destruct (Hno bodyByte Hb Hbuild).
  - rewrite sites_app, Hsi0. split; [|discriminate].
    split; [discriminate|]. intros Hw. by destruct (Hno bodyByte Hb Hbuild).
Qed.

(** The handshake is started exactly when the request names an image, the
    initial request is answered with a 401 or a 404, the path is not
    [/v2/], and the discovery request can be built; it is started at most
    once, and always at [https://<target>/v2/]. *)
Theorem GhcrRequest_challenge c u image cfg target k o k' t :
  GhcrRequest transport c u image cfg target k = (o, k', t) ->
  (sent_at Challenge t = [] \/ sent_at Challenge t = [req401_of target])
  /\ (sent_at Challenge t <> [] <->
      exists img bodyByte r,
        image = Some img
        /\ cl_ReqBodyFull c = Ok bodyByte
        /\ Build_error (unsent_request c u bodyByte) = None
        /\ transport Initial
             (initial_request c u target bodyByte (cached_token k image)) = Ok r
        /\ auth_failed r = true
        /\ cl_RequestURIPath c <> "/v2/"
        /\ Build_error (rq_with_header (req401_of target) ∅) = None).
Proof.
  intros Hrun.
  assert (Hdec : forall l : list Request, l = [] \/ l <> []).
  { intros [|x l]; [by left | by right]. }
  phases Hrun.
  - rewrite Hc0. split; [by left|]. split; [intros Hne; by destruct Hne|].
    intros (img & b & r & _ & Hb & Hbuild & Hdo & _).
    destruct Hwhy as [(_ & [[e He] | (b' & e & Hb' & He)] & _)
                     | (_ & b' & e & Hb' & _ & He)]; congruence.
  - rewrite sent_at_app, Hc0. cbn [app]. split.
    + destruct (Hdec (sent_at Challenge t1)) as [-> | Hne]; [by left|].
      right. by destruct (Hc1 Hne) as [[-> _] _].
    + split.
      * intros Hne. destruct (Hc1 Hne) as ([_ Hb401] & Hfail & Hpath & img & ->).
        exists img, bodyByte, r0. repeat (apply conj); auto.
      * intros (img & b & r & -> & Hb' & _ & Hdo' & Hfail & Hpath & Hb401).
        assert (b = bodyByte) as -> by congruence.
        assert (r = r0) as -> by congruence.
        by rewrite (Hc1' img eq_refl Hfail Hpath Hb401).
  - rewrite !sent_at_app, Hc0, Hc2, app_nil_r. cbn [app]. split.
    + destruct (Hdec (sent_at Challenge t1)) as [-> | Hne]; [by left|].
      right. by destruct (Hc1 Hne) as [[-> _] _].
    + split.
      * intros Hne. destruct (Hc1 Hne) as ([_ Hb401] & Hfail & Hpath & img & ->).
        exists img, bodyByte, r0. repeat (apply conj); auto.
      * intros (img & b & r & -> & Hb' & _ & Hdo' & Hfail & Hpath & Hb401).
        assert (b = bodyByte) as -> by congruence.
        assert (r = r0) as -> by congruence.
        by rewrite (Hc1' img eq_refl Hfail Hpath Hb401).
  - rewrite !sent_at_app, Hc0, Hc2, Hsent3, !app_nil_r. cbn [app]. split.
    + destruct (Hdec (sent_at Challenge t1)) as [-> | Hne]; [by left|].
      right. by destruct (Hc1 Hne) as [[-> _] _].
    + split.
      * intros Hne. destruct (Hc1 Hne) as ([_ Hb401] & Hfail & Hpath & img & ->).
        exists img, bodyByte, r0. repeat (apply conj); auto.
      * intros (img & b & r & -> & Hb' & _ & Hdo' & Hfail & Hpath & Hb401).
        assert (b = bodyByte) as -> by congruence.
        assert (r = r0) as -> by congruence.
        by rewrite (Hc1' img eq_refl Hfail Hpath Hb401).
Qed.

(** A caller that names no image gets no handshake: a 401 or 404 to the
    initial request, on a path other than [/v2/], closes the body and ends
    the request with the error page of that status under the message
    "Unauthorized", and nothing else is sent. *)
Theorem GhcrRequest_no_image c u cfg target k bodyByte r :
  cl_ReqBodyFull c = Ok bodyByte ->
  Build_error (unsent_request c u bodyByte) = None ->
  transport Initial (initial_request c u target bodyByte None) = Ok r ->
  auth_failed r = true ->
  cl_RequestURIPath c <> "/v2/" ->
  GhcrRequest transport c u None cfg target k
  = (Return tt, k,
     [EvDo Initial (initial_request c u target bodyByte None);
      EvClose Initial;
      EvErrorPage (NewErrorWithStatusLookup (StatusCode r) "Unauthorized")]).
Proof.
  intros Hb Hbuild Hdo Hfail Hpath.
  pose proof (send_initial_sent transport c u None target k bodyByte r Hb Hbuild Hdo)
    as Hs.
  assert (Ha : auth_retry transport c u None target bodyByte (Initial, r) k
               = (Return tt, k,
                  [EvClose Initial;
                   EvErrorPage (NewErrorWithStatusLookup (StatusCode r)
                                  "Unauthorized")])).
  { unfold auth_retry. unfold auth_failed in Hfail. cbn [snd]. rewrite Hfail.
    by rewrite (String_eqb_false _ _ Hpath). }
  unfold GhcrRequest, final_response.
  do 2 apply bind_Return.
  exact (authorised_response_steps transport _ _ _ _ _ _ _ _ _ _ _ _ Hs Ha).
Qed.

(** The initial request and the retried one go to the destination URL
    with the client's method and buffered body and with [Host] set to the
    upstream; the discovery request goes to [/v2/] of the same upstream. *)
Theorem GhcrRequest_requests c u image cfg target k o k' t :
  GhcrRequest transport c u image cfg target k = (o, k', t) ->
  (forall rq,
     In rq (sent_at Initial t ++ sent_at Retry t) ->
     rq_URL rq = u /\ rq_Method rq = cl_Method c
     /\ Header_Get (rq_Header rq) "Host" = target
     /\ exists bodyByte, cl_ReqBodyFull c = Ok bodyByte /\ rq_Body rq = Some bodyByte)
  /\ (forall rq,
        In rq (sent_at Challenge t) ->
        rq_URL rq = "https://" +:+ target +:+ "/v2/"
        /\ Header_Get (rq_Header rq) "Host" = target).
Proof.
  intros Hrun.
  assert (Hfirst : forall bodyByte cached rq,
            cl_ReqBodyFull c = Ok bodyByte ->
            rq = initial_request c u target bodyByte cached ->
            rq_URL rq = u /\ rq_Method rq = cl_Method c
            /\ Header_Get (rq_Header rq) "Host" = target
            /\ exists bodyByte,
                 cl_ReqBodyFull c = Ok bodyByte /\ rq_Body rq = Some bodyByte).
  { intros b cached rq Hb ->.
    destruct (initial_request_fields c u target b cached) as (Hu & Hm & Hbody & Hh).
    eauto 10. }
  assert (Hagain : forall bodyByte token rq,
            cl_ReqBodyFull c = Ok bodyByte ->
            rq = retry_request c u target bodyByte token ->
            rq_URL rq = u /\ rq_Method rq = cl_Method c
            /\ Header_Get (rq_Header rq) "Host" = target
            /\ exists bodyByte,
                 cl_ReqBodyFull c = Ok bodyByte /\ rq_Body rq = Some bodyByte).
  { intros b token rq Hb ->.
    destruct (retry_request_fields c u target b token) as (Hu & Hm & Hbody & Hh).
    eauto 10. }
  assert (Hdisc : forall rq,
            rq = req401_of target ->
            rq_URL rq = "https://" +:+ target +:+ "/v2/"
            /\ Header_Get (rq_Header rq) "Host" = target).
  { intros rq ->. split; [reflexivity|].
    unfold req401_of, Header_Get, Header_Set. cbn [rq_Header].
    by rewrite lookup_insert_eq. }
  assert (Hdec : forall l : list Request, l = [] \/ l <> []).
  { intros [|x l]; [by left | by right]. }
  phases Hrun.
  - rewrite Hrt0, Hc0, app_nil_r. split; [|intros rq []].
    intros rq Hin. destruct (Hreq0 rq Hin) as (b & Hb & ->). eauto.
  - rewrite !sent_at_app, Hrt0, Hc0, Hin1, app_nil_r. cbn [app]. split.
    + intros rq Hin. apply in_app_or in Hin as [Hin | Hin].
      * destruct (Hreq0 rq Hin) as (b & Hb' & ->). eauto.
      * destruct Hk1 as [[_ Hr1] | (img & token & _ & _ & _ & [Hr1 | Hr1])];
          rewrite Hr1 in Hin;
          [by destruct Hin | by destruct Hin | destruct Hin as [<- | []]]. eauto.
    + intros rq Hin. destruct (Hdec (sent_at Challenge t1)) as [He | Hne].
      * rewrite He in Hin. destruct Hin.
      * destruct (Hc1 Hne) as [[He _] _]. rewrite He in Hin.
        destruct Hin as [<- | []]. eauto.
  - rewrite !sent_at_app, Hrt0, Hc0, Hin1, Hin2, Hrt2, Hc2, !app_nil_r. cbn [app].
    split.
    + intros rq Hin. apply in_app_or in Hin as [Hin | Hin].
      * destruct (Hreq0 rq Hin) as (b & Hb' & ->). eauto.
      * destruct Hk1 as [[_ Hr1] | (img & token & _ & _ & _ & [Hr1 | Hr1])];
          rewrite Hr1 in Hin;
          [by destruct Hin | by destruct Hin | destruct Hin as [<- | []]]. eauto.
    + intros rq Hin. destruct (Hdec (sent_at Challenge t1)) as [He | Hne].
      * rewrite He in Hin. destruct Hin.
      * destruct (Hc1 Hne) as [[He _] _]. rewrite He in Hin.
        destruct Hin as [<- | []]. eauto.
  - rewrite !sent_at_app, Hrt0, Hc0, Hin1, Hin2, Hrt2, Hc2, !Hsent3, !app_nil_r.
    cbn [app]. split.
    + intros rq Hin. apply in_app_or in Hin as [Hin | Hin].
      * destruct (Hreq0 rq Hin) as (b & Hb' & ->). eauto.
      * destruct Hk1 as [[_ Hr1] | (img & token & _ & _ & _ & [Hr1 | Hr1])];
          rewrite Hr1 in Hin;
          [by destruct Hin | by destruct Hin | destruct Hin as [<- | []]]. eauto.
    + intros rq Hin. destruct (Hdec (sent_at Challenge t1)) as [He | Hne].
      * rewrite He in Hin. destruct Hin.
      * destruct (Hc1 Hne) as [[He _] _]. rewrite He in Hin.
        destruct Hin as [<- | []]. eauto.
Qed.

(** *** The failures of the handshake *)

(** [ChallengeReq] shows the client the upstream-error page exactly when
    the discovery request cannot be built or is not answered; every later
    failure is silent.  The token endpoint is asked at most once, only
    after the discovery answer carried a Bearer challenge, and with the
    service and the pull scope of the image read from that challenge. *)
Theorem ChallengeReq_failures target image k token k' tc :
  ChallengeReq transport target image k = (Return token, k', tc) ->
  k' = k
  /\ (client_answers tc = [] \/ client_answers tc = [ProxyError])
  /\ (client_answers tc = [ProxyError] <->
      Build_error (rq_with_header (req401_of target) ∅) <> None
      \/ exists e, transport Challenge (req401_of target) = Err e)
  /\ (client_answers tc = [ProxyError] -> token = "")
  /\ (sent_at TokenEndpoint tc <> [] ->
      exists (resp401 : Response) bearer,
        transport Challenge (req401_of target) = Ok resp401
        /\ parseBearerWWWAuthenticateHeader
             (Header_Get (rs_Header resp401) "Www-Authenticate") = Ok bearer
        /\ sent_at TokenEndpoint tc = [getAuthReq_of bearer image]).
Proof.
  unfold ChallengeReq, req401_of, getAuthReq_of. run. repeat step.
  all: intros [= <- <- <-].
  all: split; [reflexivity|].
  all: split; [first [left; reflexivity | right; reflexivity]|].
  all: split;
    [ split;
      [ intros Ha; first [discriminate Ha | left; congruence | right; eauto]
      | intros [Hb | [e' He]]; first [reflexivity | congruence] ] |].
  all: split; [intros Ha; first [reflexivity | discriminate Ha]|].
  all: intros Hne; first [by destruct Hne | eauto].
Qed.

(** *** Routing *)

Lemma resolve_upstream_prefix c cfg target path upstreamTarget destUrl :
  resolve_upstream c cfg target path = inr (upstreamTarget, destUrl) ->
  HasPrefix destUrl ("https://" +:+ upstreamTarget) = true.
Proof.
  unfold resolve_upstream.
  repeat match goal with
         | |- context [if ?b then _ else _] => destruct b
         end.
  all: intros [= <- <-].
  all: rewrite ?append_assoc.
  all: rewrite <- (append_assoc "https://").
  all: apply HasPrefix_app.
Qed.

(** Whatever route parameters and configuration lead to an upstream, the
    requests [GhcrWithImageRouting] has sent for the image, first or
    retried, go to that upstream over https with [Host] set to it, the
    handshake is started at [/v2/] of that same upstream, and the only
    cache entry that can change is the one of [<user>/<repo>]. *)
Theorem GhcrWithImageRouting_upstream cfg c k o k' t upstreamTarget :
  Docker_Enabled cfg = true ->
  routed_upstream c cfg (cl_Param c "target") = inr upstreamTarget ->
  GhcrWithImageRouting transport cfg c k = (o, k', t) ->
  (forall rq,
     In rq (sent_at Initial t ++ sent_at Retry t) ->
     HasPrefix (rq_URL rq) ("https://" +:+ upstreamTarget) = true
     /\ rq_Method rq = cl_Method c
     /\ Header_Get (rq_Header rq) "Host" = upstreamTarget)
  /\ (forall rq, In rq (sent_at Challenge t) -> rq = req401_of upstreamTarget)
  /\ (forall key,
        key <> cl_Param c "user" +:+ "/" +:+ cl_Param c "repo" ->
        k' !! key = k !! key).
Proof.
  unfold routed_upstream, GhcrWithImageRouting, GhcrToTarget.
  intros -> Hroute. cbn [negb].
  destruct (resolve_upstream c cfg _ _) as [e | [up destUrl]] eqn:Hres;
    [discriminate|].
  injection Hroute as ->. intros Hrun.
  apply resolve_upstream_prefix in Hres.
  assert (Hdec : forall l : list Request, l = [] \/ l <> []).
  { intros [|x l]; [by left | by right]. }
  phases Hrun.
  - rewrite Hrt0, Hc0, app_nil_r. repeat (apply conj); [|intros rq []|reflexivity].
    intros rq Hin. destruct (Hreq0 rq Hin) as (b & Hb & ->).
    destruct (initial_request_fields c destUrl upstreamTarget b
                (cached_token k (Some {| User := cl_Param c "user";
                                         Repo := cl_Param c "repo";
                                         Image := cl_Param c "user" +:+ "/"
                                                  +:+ cl_Param c "repo" |})))
      as (-> & -> & _ & ->).
    auto.
  - rewrite !sent_at_app, Hrt0, Hc0, Hin1, app_nil_r. cbn [app].
    repeat (apply conj).
    + intros rq Hin. apply in_app_or in Hin as [Hin | Hin].
      * destruct (Hreq0 rq Hin) as (b & Hb' & ->).
        destruct (initial_request_fields c destUrl upstreamTarget b
                    (cached_token k (Some {| User := cl_Param c "user";
                                             Repo := cl_Param c "repo";
                                             Image := cl_Param c "user" +:+ "/"
                                                      +:+ cl_Param c "repo" |})))
          as (-> & -> & _ & ->).
        auto.
      * destruct Hk1 as [[_ Hr1] | (img & token & _ & _ & _ & [Hr1 | Hr1])];
          rewrite Hr1 in Hin;
          [by destruct Hin | by destruct Hin | destruct Hin as [<- | []]].
        destruct (retry_request_fields c destUrl upstreamTarget bodyByte token)
          as (-> & -> & _ & ->).
        auto.
    + intros rq Hin. destruct (Hdec (sent_at Challenge t1)) as [He | Hne].
      * rewrite He in Hin. destruct Hin.
      * destruct (Hc1 Hne) as [[He _] _]. rewrite He in Hin.
        by destruct Hin as [<- | []].
    + intros key Hkey.
      destruct Hk1 as [[-> _] | (img & token & [= <-] & _ & -> & _)];
        [reflexivity|].
      by rewrite lookup_insert_ne.
  - rewrite !sent_at_app, Hrt0, Hc0, Hin1, Hin2, Hrt2, Hc2, !app_nil_r. cbn [app].
    repeat (apply conj).
    + intros rq Hin. apply in_app_or in Hin as [Hin | Hin].
      * destruct (Hreq0 rq Hin) as (b & Hb' & ->).
        destruct (initial_request_fields c destUrl upstreamTarget b
                    (cached_token k (Some {| User := cl_Param c "user";
                                             Repo := cl_Param c "repo";
                                             Image := cl_Param c "user" +:+ "/"
                                                      +:+ cl_Param c "repo" |})))
          as (-> & -> & _ & ->).
        auto.
      * destruct Hk1 as [[_ Hr1] | (img & token & _ & _ & _ & [Hr1 | Hr1])];
          rewrite Hr1 in Hin;
          [by destruct Hin | by destruct Hin | destruct Hin as [<- | []]].
        destruct (retry_request_fields c destUrl upstreamTarget bodyByte token)
          as (-> & -> & _ & ->).
        auto.
    + intros rq Hin. destruct (Hdec (sent_at Challenge t1)) as [He | Hne].
      * rewrite He in Hin. destruct Hin.
      * destruct (Hc1 Hne) as [[He _] _]. rewrite He in Hin.
        by destruct Hin as [<- | []].
    + intros key Hkey.
      destruct Hk1 as [[-> _] | (img & token & [= <-] & _ & -> & _)];
        [reflexivity|].
      by rewrite lookup_insert_ne.
  - rewrite !sent_at_app, Hrt0, Hc0, Hin1, Hin2, Hrt2, Hc2, !Hsent3, !app_nil_r.
    cbn [app]. repeat (apply conj).
    + intros rq Hin. apply in_app_or in Hin as [Hin | Hin].
      * destruct (Hreq0 rq Hin) as (b & Hb' & ->).
        destruct (initial_request_fields c destUrl upstreamTarget b
                    (cached_token k (Some {| User := cl_Param c "user";
                                             Repo := cl_Param c "repo";
                                             Image := cl_Param c "user" +:+ "/"
                                                      +:+ cl_Param c "repo" |})))
          as (-> & -> & _ & ->).
        auto.
      * destruct Hk1 as [[_ Hr1] | (img & token & _ & _ & _ & [Hr1 | Hr1])];
          rewrite Hr1 in Hin;
          [by destruct Hin | by destruct Hin | destruct Hin as [<- | []]].
        destruct (retry_request_fields c destUrl upstreamTarget bodyByte token)
          as (-> & -> & _ & ->).
        auto.
    + intros rq Hin. destruct (Hdec (sent_at Challenge t1)) as [He | Hne].
      * rewrite He in Hin. destruct Hin.
      * destruct (Hc1 Hne) as [[He _] _]. rewrite He in Hin.
        by destruct Hin as [<- | []].
    + intros key Hkey.
      destruct Hk1 as [[-> _] | (img & token & [= <-] & _ & -> & _)];
        [reflexivity|].
      by rewrite lookup_insert_ne.
Qed.

(** A request is refused before anything is sent when the registry proxy
    is switched off or when neither the route nor the configuration names
    an upstream: the client gets one error page, of status 403, and the
    cache is left alone. *)
Theorem GhcrWithImageRouting_refused cfg c k :
  Docker_Enabled cfg = false
  \/ (exists e, routed_upstream c cfg (cl_Param c "target") = inl e) ->
  exists e,
    GhcrWithImageRouting transport cfg c k = (Return tt, k, [EvErrorPage e])
    /\ ErrStatusCode e = 403.
Proof.
  unfold routed_upstream, GhcrWithImageRouting, GhcrToTarget.
  destruct (Docker_Enabled cfg); cbn [negb].
  - intros [Hoff | [e He]]; [discriminate|].
    destruct (resolve_upstream c cfg _ _) as [e' | [up destUrl]] eqn:Hres;
      [|discriminate].
    exists e'. split; [reflexivity|].
    revert Hres. unfold resolve_upstream.
    repeat match goal with
           | |- context [if ?b then _ else _] => destruct b
           end.
    all: by intros [= <-].
  - intros _. eexists. split; reflexivity.
Qed.

End EngineMore.

(** ** The engine on concrete requests *)

Section EngineScenarios.

Import Sample.

(** A 401, the handshake, a 302 to the retried request and its target:
    four bodies are opened, three are closed, the last one is streamed. *)
Lemma GhcrRequest_bodies_witness :
  GhcrRequest (upstream moved) client u (Some img) (cfg 10) "ghcr.io" ∅
  = (Return tt, fresh, followed_trace)
  /\ streamed_sites followed_trace = [Redirect]
  /\ open_bodies (upstream moved) followed_trace [] = streamed_sites followed_trace
  /\ (length (streamed_sites followed_trace) <= 1)%nat.
Proof.
  split; [reflexivity|]. split; [reflexivity|].
  exact (GhcrRequest_bodies (upstream moved) client u (Some img) (cfg 10) "ghcr.io" ∅
           (Return tt) fresh followed_trace eq_refl).
Defined.

Lemma GhcrRequest_sites_witness :
  GhcrRequest (upstream moved) client u (Some img) (cfg 10) "ghcr.io" ∅
  = (Return tt, fresh, followed_trace)
  /\ sites followed_trace = [Initial; Challenge; TokenEndpoint; Retry; Redirect]
  /\ (sites followed_trace = []
      \/ exists handshake redirect,
           In handshake handshake_orders /\ In redirect redirect_orders
           /\ sites followed_trace = Initial :: handshake ++ redirect).
Proof.
  split; [reflexivity|]. split; [reflexivity|].
  exact (GhcrRequest_sites (upstream moved) client u (Some img) (cfg 10) "ghcr.io" ∅
           (Return tt) fresh followed_trace eq_refl).
Defined.



Lemma GhcrRequest_nothing_sent_witness :
  GhcrRequest (upstream ok_small) client_broken u (Some img) (cfg 10) "ghcr.io" ∅
  = (Return tt, ∅, [EvHandleError "Failed to read request body: unexpected EOF"])
  /\ (requests [EvHandleError "Failed to read request body: unexpected EOF"] = [] <->
      (exists e, cl_ReqBodyFull client_broken = Err e)
      \/ (exists bodyByte e,
            cl_ReqBodyFull client_broken = Ok bodyByte
            /\ Build_error (unsent_request client_broken u bodyByte) = Some e)).
Proof.
  split; [reflexivity|].
  exact (proj1 (GhcrRequest_nothing_sent (upstream ok_small) client_broken u (Some img)
                  (cfg 10) "ghcr.io" ∅ (Return tt) ∅
                  [EvHandleError "Failed to read request body: unexpected EOF"]
                  eq_refl)).
Defined.

Lemma GhcrRequest_challenge_witness :
  GhcrRequest (upstream ok_small) client u (Some img) (cfg 10) "ghcr.io" ∅
  = (Return tt, fresh, served_trace None)
  /\ sent_at Challenge (served_trace None) = [req401_of "ghcr.io"]
  /\ (sent_at Challenge (served_trace None) = []
      \/ sent_at Challenge (served_trace None) = [req401_of "ghcr.io"]).
Proof.
  split; [reflexivity|]. split; [reflexivity|].
  exact (proj1 (GhcrRequest_challenge (upstream ok_small) client u (Some img) (cfg 10)
                  "ghcr.io" ∅ (Return tt) fresh (served_trace None) eq_refl)).
Defined.

Lemma GhcrRequest_no_image_witness :
  GhcrRequest (direct (unauthorized u)) client u None (cfg 10) "ghcr.io" ∅
  = (Return tt, ∅,
     [EvDo Initial (initial_request client u "ghcr.io" "" None);
      EvClose Initial;
      EvErrorPage (NewErrorWithStatusLookup 401 "Unauthorized")]).
Proof.
  exact (GhcrRequest_no_image (direct (unauthorized u)) client u (cfg 10) "ghcr.io" ∅
           "" (unauthorized u) eq_refl eq_refl eq_refl eq_refl ltac:(discriminate)).
Defined.

Lemma GhcrRequest_requests_witness :
  GhcrRequest (upstream ok_small) client u (Some img) (cfg 10) "ghcr.io" ∅
  = (Return tt, fresh, served_trace None)
  /\ sent_at Initial (served_trace None) ++ sent_at Retry (served_trace None)
     = [initial_request client u "ghcr.io" "" None;
        retry_request client u "ghcr.io" "" "tok123"]
  /\ forall rq,
       In rq (sent_at Initial (served_trace None) ++ sent_at Retry (served_trace None)) ->
       rq_URL rq = u /\ rq_Method rq = "GET"
       /\ Header_Get (rq_Header rq) "Host" = "ghcr.io"
       /\ exists bodyByte,
            cl_ReqBodyFull client = Ok bodyByte /\ rq_Body rq = Some bodyByte.
Proof.
  split; [reflexivity|]. split; [reflexivity|].
  exact (proj1 (GhcrRequest_requests (upstream ok_small) client u (Some img) (cfg 10)
                  "ghcr.io" ∅ (Return tt) fresh (served_trace None) eq_refl)).
Defined.

Lemma GhcrWithImageRouting_upstream_witness :
  GhcrWithImageRouting (upstream ok_small) (cfg 10) client_routed ∅
  = (Return tt, fresh, routed_trace)
  /\ map rq_URL (sent_at Initial routed_trace ++ sent_at Retry routed_trace)
     = [u_routed; u_routed]
  /\ forall rq,
       In rq (sent_at Initial routed_trace ++ sent_at Retry routed_trace) ->
       HasPrefix (rq_URL rq) ("https://" +:+ "ghcr.io") = true
       /\ rq_Method rq = "GET"
       /\ Header_Get (rq_Header rq) "Host" = "ghcr.io".
Proof.
  split; [reflexivity|]. split; [reflexivity|].
  exact (proj1 (GhcrWithImageRouting_upstream (upstream ok_small) (cfg 10) client_routed
                  ∅ (Return tt) fresh routed_trace "ghcr.io"
                  eq_refl eq_refl eq_refl)).
Defined.

Lemma GhcrWithImageRouting_refused_witness :
  (exists e,
     GhcrWithImageRouting (upstream ok_small) cfg_off client_routed ∅
     = (Return tt, ∅, [EvErrorPage e])
     /\ ErrStatusCode e = 403)
  /\ exists e,
       GhcrWithImageRouting (upstream ok_small) (cfg_default "") client ∅
       = (Return tt, ∅, [EvErrorPage e])
       /\ ErrStatusCode e = 403.
Proof.
  split.
  - exact (GhcrWithImageRouting_refused (upstream ok_small) cfg_off client_routed ∅
             (or_introl eq_refl)).
  - apply (GhcrWithImageRouting_refused (upstream ok_small) (cfg_default "") client ∅).
    right. eexists. reflexivity.
Defined.

(** The discovery endpoint is unreachable: one error page, no token. *)
Lemma ChallengeReq_failures_witness :
  ChallengeReq (direct (unauthorized u)) "ghcr.io" img ∅
  = (Return "", ∅,
     [EvDo Challenge (req401_of "ghcr.io");
      EvHandleError "Failed to send request: connection refused"])
  /\ (exists e, direct (unauthorized u) Challenge (req401_of "ghcr.io") = Err e)
  /\ client_answers
       [EvDo Challenge (req401_of "ghcr.io");
        EvHandleError "Failed to send request: connection refused"]
     = [ProxyError].
Proof.
  split; [reflexivity|].
  destruct (ChallengeReq_failures (direct (unauthorized u)) "ghcr.io" img ∅ "" ∅
              [EvDo Challenge (req401_of "ghcr.io");
               EvHandleError "Failed to send request: connection refused"]
              eq_refl)
    as (_ & _ & Hiff & _).
  split; [eauto|]. apply Hiff. right. eauto.
Defined.

End EngineScenarios.
